(** * chatpro: the moderated, quota-metered streaming chat relay

    A shallow embedding of [server/index.js]: the admission middleware
    [checkIpRules], the [POST /api/chat/message] handler and
    [GET /api/chat/conversations/:id], together with the helpers they
    call.  The SQLite store is a record of tables, a JavaScript string
    is the list of its UTF-16 code units, and everything the handler
    draws from the outside (clock, [nanoid], the backend's answer) is
    an explicit input of the turn. *)

From Stdlib Require Import ZArith List Bool Lia String Ascii Sorted.
From stdpp Require Import base option list gmap.

Local Open Scope Z_scope.

(** ** JavaScript strings *)

(** A string is its sequence of UTF-16 code units, so that [length]
    and [slice] count what the source counts. *)
Abbreviation jsstr := (list Z).

Fixpoint lit (s : string) : jsstr :=
  match s with
  | EmptyString => []
  | String a r => Z.of_N (N_of_ascii a) :: lit r
  end.

Module Js.

(** [a || b] on an optional string: a missing value and the empty
    string are both falsy. *)
Definition or_else (o : option jsstr) (d : jsstr) : jsstr :=
  match o with
  | Some (c :: s) => c :: s
  | _ => d
  end.

Definition truthy (o : option jsstr) : bool :=
  match o with
  | Some (_ :: _) => true
  | _ => false
  end.

Definition nonempty (s : jsstr) : bool :=
  match s with
  | [] => false
  | _ :: _ => true
  end.

(** [o === "literal"] *)
Definition eqs (o : option jsstr) (s : jsstr) : bool := bool_decide (o = Some s).

(** [n || 0] on a column or property that may be absent. *)
Definition or0 (o : option Z) : Z := default 0 o.

Fixpoint startsWith (p s : jsstr) : bool :=
  match p, s with
  | [], _ => true
  | _ :: _, [] => false
  | a :: p', b :: s' => bool_decide (a = b) && startsWith p' s'
  end.

(** [s.includes(w)] *)
Fixpoint includes (s w : jsstr) : bool :=
  startsWith w s ||
  match s with
  | [] => false
  | _ :: s' => includes s' w
  end.

(** [s.slice(0, n)]: a negative [n] counts from the end. *)
Definition slice0 (s : jsstr) (n : Z) : jsstr :=
  if 0 <=? n then take (Z.to_nat n) s
  else take (Z.to_nat (Z.max (Z.of_nat (length s) + n) 0)) s.

(** [s.split(sep)] for a non-empty separator.  [skip] counts the code
    units of a separator just matched that are still to be passed. *)
Fixpoint split_aux (sep : jsstr) (skip : nat) (cur s : jsstr) : list jsstr :=
  match s with
  | [] => [cur]
  | c :: s' =>
      match skip with
      | S k => split_aux sep k cur s'
      | O =>
          if startsWith sep s
          then cur :: split_aux sep (length sep - 1) [] s'
          else split_aux sep 0 (cur ++ [c]) s'
      end
  end.

Definition split (sep s : jsstr) : list jsstr := split_aux sep 0 [] s.

(** [s.replace(pat, rep)] with a string pattern: the first occurrence only. *)
Fixpoint replace (pat rep s : jsstr) : jsstr :=
  if startsWith pat s then rep ++ drop (length pat) s
  else match s with
       | [] => []
       | c :: s' => c :: replace pat rep s'
       end.

(** White space and line terminators, as [trim] and the regular
    expression class [\s] see them. *)
Definition is_space (c : Z) : bool :=
  bool_decide (c ∈ [9; 10; 11; 12; 13; 32; 160; 5760; 8232; 8233; 8239; 8287; 12288; 65279])
  || ((8192 <=? c) && (c <=? 8202)).

Fixpoint trimStart (s : jsstr) : jsstr :=
  match s with
  | [] => []
  | c :: s' => if is_space c then trimStart s' else s
  end.

Definition trim (s : jsstr) : jsstr := rev (trimStart (rev (trimStart s))).

(** [s.split(/\s+/).filter(Boolean)]: the maximal runs of non-space
    code units, in order. *)
Fixpoint words_aux (cur : jsstr) (s : jsstr) : list jsstr :=
  match s with
  | [] => if nonempty cur then [cur] else []
  | c :: s' =>
      if is_space c
      then (if nonempty cur then cur :: words_aux [] s' else words_aux [] s')
      else words_aux (cur ++ [c]) s'
  end.

Definition words (s : jsstr) : list jsstr := words_aux [] s.

(** [lines.join("\n")] *)
Fixpoint join (sep : jsstr) (l : list jsstr) : jsstr :=
  match l with
  | [] => []
  | [x] => x
  | x :: rest => x ++ sep ++ join sep rest
  end.

(** [Math.round(a / b)] for integers [a] and [b > 0]: halves go up. *)
Definition round_div (a b : Z) : Z := (2 * a + b) / (2 * b).

End Js.

(** What the moderation filter is specified to decide: [w] occurs in [s]. *)
Definition occurs_in (w s : jsstr) : Prop := ∃ pre post, s = pre ++ w ++ post.

(** ** The store *)

Record user_row := {
  user_id : jsstr;
  token : jsstr;
  tag : jsstr;
  quota_enhanced : Z;
  quota_pro : Z
}.

Record conversation_row := {
  conv_user_id : option jsstr;
  conv_persona_id : option jsstr;
  conv_model : jsstr;
  conv_created_at : Z
}.

Record message_row := {
  msg_id : jsstr;
  conversation_id : jsstr;
  msg_role : jsstr;
  msg_content : jsstr;
  msg_created_at : Z;
  usage_prompt : Z;
  usage_completion : Z
}.

Record persona_row := { persona_name : jsstr; persona_prompt : jsstr }.

Record audit_row := {
  log_id : jsstr;
  log_user_id : option jsstr;
  log_ip : jsstr;
  log_ua : jsstr;
  log_action : jsstr;
  log_content : jsstr;
  log_latency_ms : Z;
  log_created_at : Z
}.

Record daily_row := {
  total_requests : Z;
  avg_latency : Z;
  token_total : Z;
  concurrent_peak : Z
}.

Record model_row := { model_tier : jsstr; model_id : jsstr }.

Record ip_rule := { rule_ip : jsstr; rule_type : jsstr; limit_value : option Z }.

(** Tables with a primary key that every statement addresses are maps
    on that key; tables that are scanned, or whose row order shows,
    are lists in rowid order.  Only the columns the chat pipeline
    reads or writes are kept.  [created_at] holds the instant that
    [nowIso] prints, in milliseconds: on the fixed-width ISO format
    text comparison and numeric comparison agree. *)
Record db := {
  users : list user_row;
  conversations : gmap jsstr conversation_row;
  messages : list message_row;
  personas : gmap jsstr persona_row;
  audit_logs : list audit_row;
  metrics_daily : gmap jsstr daily_row;
  metrics_traffic : gmap (jsstr * jsstr * jsstr) Z;
  keywords_daily : gmap (jsstr * jsstr) Z;
  sensitive_words : list jsstr;
  models : list model_row;
  prompt_limits : gmap jsstr Z;
  ip_rules : list ip_rule;
  ip_requests : gmap (jsstr * jsstr) Z
}.

Definition set_users (v : list user_row) (d : db) : db :=
  {| users := v; conversations := conversations d; messages := messages d;
     personas := personas d; audit_logs := audit_logs d;
     metrics_daily := metrics_daily d; metrics_traffic := metrics_traffic d;
     keywords_daily := keywords_daily d; sensitive_words := sensitive_words d;
     models := models d; prompt_limits := prompt_limits d;
     ip_rules := ip_rules d; ip_requests := ip_requests d |}.

Definition set_conversations (v : gmap jsstr conversation_row) (d : db) : db :=
  {| users := users d; conversations := v; messages := messages d;
     personas := personas d; audit_logs := audit_logs d;
     metrics_daily := metrics_daily d; metrics_traffic := metrics_traffic d;
     keywords_daily := keywords_daily d; sensitive_words := sensitive_words d;
     models := models d; prompt_limits := prompt_limits d;
     ip_rules := ip_rules d; ip_requests := ip_requests d |}.

Definition set_messages (v : list message_row) (d : db) : db :=
  {| users := users d; conversations := conversations d; messages := v;
     personas := personas d; audit_logs := audit_logs d;
     metrics_daily := metrics_daily d; metrics_traffic := metrics_traffic d;
     keywords_daily := keywords_daily d; sensitive_words := sensitive_words d;
     models := models d; prompt_limits := prompt_limits d;
     ip_rules := ip_rules d; ip_requests := ip_requests d |}.

Definition set_audit_logs (v : list audit_row) (d : db) : db :=
  {| users := users d; conversations := conversations d; messages := messages d;
     personas := personas d; audit_logs := v;
     metrics_daily := metrics_daily d; metrics_traffic := metrics_traffic d;
     keywords_daily := keywords_daily d; sensitive_words := sensitive_words d;
     models := models d; prompt_limits := prompt_limits d;
     ip_rules := ip_rules d; ip_requests := ip_requests d |}.

Definition set_metrics_daily (v : gmap jsstr daily_row) (d : db) : db :=
  {| users := users d; conversations := conversations d; messages := messages d;
     personas := personas d; audit_logs := audit_logs d;
     metrics_daily := v; metrics_traffic := metrics_traffic d;
     keywords_daily := keywords_daily d; sensitive_words := sensitive_words d;
     models := models d; prompt_limits := prompt_limits d;
     ip_rules := ip_rules d; ip_requests := ip_requests d |}.

Definition set_metrics_traffic (v : gmap (jsstr * jsstr * jsstr) Z) (d : db) : db :=
  {| users := users d; conversations := conversations d; messages := messages d;
     personas := personas d; audit_logs := audit_logs d;
     metrics_daily := metrics_daily d; metrics_traffic := v;
     keywords_daily := keywords_daily d; sensitive_words := sensitive_words d;
     models := models d; prompt_limits := prompt_limits d;
     ip_rules := ip_rules d; ip_requests := ip_requests d |}.

Definition set_keywords_daily (v : gmap (jsstr * jsstr) Z) (d : db) : db :=
  {| users := users d; conversations := conversations d; messages := messages d;
     personas := personas d; audit_logs := audit_logs d;
     metrics_daily := metrics_daily d; metrics_traffic := metrics_traffic d;
     keywords_daily := v; sensitive_words := sensitive_words d;
     models := models d; prompt_limits := prompt_limits d;
     ip_rules := ip_rules d; ip_requests := ip_requests d |}.

Definition set_sensitive_words (v : list jsstr) (d : db) : db :=
  {| users := users d; conversations := conversations d; messages := messages d;
     personas := personas d; audit_logs := audit_logs d;
     metrics_daily := metrics_daily d; metrics_traffic := metrics_traffic d;
     keywords_daily := keywords_daily d; sensitive_words := v;
     models := models d; prompt_limits := prompt_limits d;
     ip_rules := ip_rules d; ip_requests := ip_requests d |}.

Definition set_prompt_limits (v : gmap jsstr Z) (d : db) : db :=
  {| users := users d; conversations := conversations d; messages := messages d;
     personas := personas d; audit_logs := audit_logs d;
     metrics_daily := metrics_daily d; metrics_traffic := metrics_traffic d;
     keywords_daily := keywords_daily d; sensitive_words := sensitive_words d;
     models := models d; prompt_limits := v;
     ip_rules := ip_rules d; ip_requests := ip_requests d |}.

Definition set_ip_requests (v : gmap (jsstr * jsstr) Z) (d : db) : db :=
  {| users := users d; conversations := conversations d; messages := messages d;
     personas := personas d; audit_logs := audit_logs d;
     metrics_daily := metrics_daily d; metrics_traffic := metrics_traffic d;
     keywords_daily := keywords_daily d; sensitive_words := sensitive_words d;
     models := models d; prompt_limits := prompt_limits d;
     ip_rules := ip_rules d; ip_requests := v |}.

(** ** Responses *)

(** One frame of the event stream sent to the caller. *)
Inductive event :=
  | EvDelta (delta : jsstr)
  | EvSentinel
  | EvReplace (content : jsstr)
  | EvDone (prompt completion total : Z) (left_enhanced left_pro : Z).

(** [Json status code message] is [res.status(status).json({code, message,
    data: null})]; [Stream evs ended] is an event stream on which [evs]
    were written, and [ended] tells whether [res.end()] was reached. *)
Inductive response :=
  | Json (status code : Z) (message : jsstr)
  | Stream (evs : list event) (ended : bool).

(** ** Admission: checkIpRules *)

Definition msg_blocked : jsstr := [73; 80; 32; 24050; 34987; 23553; 31105].
Definition msg_rate_limited : jsstr :=
  [73; 80; 32; 35831; 27714; 24050; 36798; 19978; 38480].

Inductive admission :=
  | Allowed (d : db)
  | Refused (r : response).

Definition rule_matches (ip kind : jsstr) (r : ip_rule) : bool :=
  bool_decide (rule_ip r = ip) && bool_decide (rule_type r = kind).

Definition checkIpRules (ip date : jsstr) (d : db) : admission :=
  if existsb (rule_matches ip (lit "block")) (ip_rules d)
  then Refused (Json 403 9 msg_blocked)
  else
    match find (rule_matches ip (lit "limit")) (ip_rules d) ≫= limit_value with
    | Some limit =>
        if bool_decide (limit = 0) then Allowed d
        else
          let row := ip_requests d !! (ip, date) in
          let current := Js.or0 row in
          if limit <=? current then Refused (Json 429 10 msg_rate_limited)
          else
            match row with
            | None => Allowed (set_ip_requests (<[(ip, date) := 1]> (ip_requests d)) d)
            | Some _ =>
                Allowed (set_ip_requests (<[(ip, date) := current + 1]> (ip_requests d)) d)
            end
    | None => Allowed d
    end.

(** ** The chat request and what the turn draws from outside *)

Record chat_message := { role : jsstr; content : jsstr }.

Record client_info := {
  device : option jsstr;
  client_region : option jsstr;
  ua : option jsstr
}.

Record user_profile := { profile_username : option jsstr; profile_region : option jsstr }.

(** The body of [POST /api/chat/message].  [messages] is [safeMessages];
    a field that the caller left out is [None]. *)
Record chat_request := {
  messages_in : list chat_message;
  model : option jsstr;
  personaId : option jsstr;
  personaPrompt : option jsstr;
  client : client_info;
  userProfile : user_profile;
  userToken : option jsstr;
  conversationId : option jsstr
}.

Record usage := {
  input_tokens : option Z;
  output_tokens : option Z;
  total_tokens : option Z
}.

(** What a decoded backend frame carries, as far as the relay looks:
    [payloadData.type], [payloadData.delta], [payloadData.response.usage]. *)
Record sse_payload := {
  payload_type : option jsstr;
  payload_delta : option jsstr;
  payload_usage : option usage
}.

(** The body of the backend's answer: the decoded text of its chunks,
    and whether reading it fails after the last of them. *)
Record body_stream := { chunks : list jsstr; breaks : bool }.

(** [fetch] rejects, or resolves with [response.ok], [response.body] and
    the [error.message] that [response.json()] would give. *)
Inductive fetch_outcome :=
  | FetchRejects
  | FetchResolves (ok : bool) (body : option body_stream) (error_message : option jsstr).

(** The outbound call: [payload.model] and [payload.input]. *)
Record backend_call := { call_model : jsstr; call_input : list chat_message }.

Record turn_env := {
  ip : jsstr;               (* getRequestIp(req) *)
  admission_date : jsstr;   (* getToday() in checkIpRules *)
  today : jsstr;            (* getToday() once the stream has ended *)
  local_time : jsstr;       (* new Date().toLocaleString("zh-CN") *)
  latency_ms : Z;           (* Date.now() - startedAt *)
  nanoid_conversation : jsstr;
  nanoid_user_message : jsstr;
  nanoid_assistant_message : jsstr;
  nanoid_log : jsstr;
  now_conversation : Z;     (* the four nowIso() of the commit, in order *)
  now_user_message : Z;
  now_assistant_message : Z;
  now_log : Z;
  backend : fetch_outcome
}.

Record turn := { turn_request : chat_request; turn_environment : turn_env }.

Record turn_result := {
  db_after : db;
  resp : response;
  calls : list backend_call
}.

(** Process-wide constants read from the environment at start-up. *)
Record config := {
  apiKey : jsstr;
  modelMap_normal : jsstr;
  defaultQuotas_enhanced : Z;
  defaultQuotas_pro : Z
}.

(** ** String constants of the handler *)

Definition msg_sensitive : jsstr := [20869; 23481; 21253; 21547; 25935; 24863; 35789].
Definition msg_no_api_key : jsstr :=
  [32570; 23569; 32; 79; 80; 69; 78; 65; 73; 95; 65; 80; 73; 95; 75; 69; 89].
Definition msg_login_required : jsstr :=
  [35831; 30331; 24405; 21518; 20351; 29992; 39640; 32423; 27169; 22411].
Definition msg_enhanced_exhausted : jsstr := [22686; 24378; 39069; 24230; 19981; 36275].
Definition msg_pro_exhausted : jsstr := [19987; 19994; 39069; 24230; 19981; 36275].
Definition msg_upstream : jsstr := [19978; 28216; 38169; 35823].
Definition msg_service : jsstr := [26381; 21153; 24322; 24120].

(** The fixed refusal that replaces flagged output. *)
Definition refusal : jsstr :=
  [25265; 27465; 32; 25105; 19981; 33021; 21644; 20320; 35752; 35770; 36825; 20010;
   38382; 39064].

Definition fallbackPersona : persona_row :=
  {| persona_name := [35282; 33394; 25198; 28436; 21161; 25163];
     persona_prompt :=
       [20320; 22987; 32456; 20197; 24403; 21069; 20154; 35774; 36827; 34892; 23545;
        35805; 65292; 20445; 25345; 35282; 33394; 35821; 27668; 19982; 35774; 23450;
        19968; 33268; 65292; 19981; 24471; 33258; 31216; 36890; 29992; 26426; 22120;
        20154; 25110; 20854; 20182; 21697; 29260; 21517; 31216; 12290] |}.

Definition custom_persona_name : jsstr := [33258; 23450; 20041; 20154; 35774].

Definition directive_compliance : jsstr :=
  [20320; 26159; 19968; 20010; 26381; 21153; 20013; 22269; 22823; 38470; 22320; 21306;
   30340; 65; 73; 32; 97; 103; 101; 110; 116; 65292; 35831; 21247; 36879; 38706; 20320;
   30340; 30495; 23454; 27169; 22411; 65292; 19981; 35201; 35848; 35770; 25919; 27835;
   25935; 24863; 20869; 23481; 12290].
Definition directive_roleplay : jsstr :=
  [20135; 21697; 26680; 24515; 26159; 35282; 33394; 25198; 28436; 65292; 20320; 24517;
   39035; 22987; 32456; 20197; 20154; 35774; 36523; 20221; 22238; 24212; 65292; 20445;
   25345; 35774; 23450; 19982; 35821; 27668; 19968; 33268; 12290].
Definition directive_no_meta : jsstr :=
  [31105; 27490; 33258; 31216; 36890; 29992; 26426; 22120; 20154; 12289; 34394; 25311;
   21161; 25163; 25110; 20219; 20309; 21378; 21830; 21697; 29260; 21517; 31216; 65307;
   22914; 29992; 25143; 35201; 27714; 33073; 31163; 20154; 35774; 65292; 31036; 35980;
   25298; 32477; 24182; 22238; 21040; 35282; 33394; 12290].
Definition directive_brevity : jsstr :=
  [40664; 35748; 22238; 22797; 35201; 31616; 30701; 20248; 20808; 12289; 32858; 28966;
   37325; 28857; 65292; 38500; 38750; 29992; 25143; 35201; 27714; 35814; 32454; 23637;
   24320; 12290].
Definition label_username : jsstr := [29992; 25143; 21517; 58; 32].
Definition label_region : jsstr := [22320; 21306; 58; 32].
Definition label_time : jsstr := [26102; 38388; 58; 32].
Definition label_persona : jsstr := [20154; 35774; 58; 32].
Definition label_persona_prompt : jsstr := [20154; 35774; 25552; 31034; 58; 32].

(** ** Reference-table helpers *)

(** [getPromptLimit]: [row?.max_chars || 1200]. *)
Definition getPromptLimit (tier : jsstr) (d : db) : Z :=
  match prompt_limits d !! Js.or_else (Some tier) (lit "normal") with
  | Some max_chars => if bool_decide (max_chars = 0) then 1200 else max_chars
  | None => 1200
  end.

(** The part of [initDb] that seeds [prompt_limits] when the table is
    empty; an argument is the number its [PROMPT_LIMIT_*] variable
    spells, [None] when the variable is unset. *)
Definition initDb_prompt_limits (env_normal env_enhanced env_pro : option Z) (d : db) : db :=
  if bool_decide (size (prompt_limits d) = 0%nat)
  then
    set_prompt_limits
      (<[lit "pro" := default 2000 env_pro]>
         (<[lit "enhanced" := default 1600 env_enhanced]>
            (<[lit "normal" := default 1200 env_normal]> (prompt_limits d)))) d
  else d.

(** The part of [initDb] that seeds [sensitive_words] from the lexicon
    file when the table is empty: the first 5000 entries, trimmed, the
    blank ones left out. *)
Definition initDb_sensitive_words (lexicon : list jsstr) (d : db) : db :=
  if bool_decide (length (sensitive_words d) = 0%nat)
  then
    set_sensitive_words
      (flat_map (λ word, if Js.nonempty (Js.trim word) then [Js.trim word] else [])
                (take 5000 lexicon)) d
  else d.

(** [POST /api/admin/sensitive-words]; [None] is the 400 answer to a
    missing or empty word. *)
Definition admin_add_word (word : option jsstr) (d : db) : option db :=
  if Js.truthy word
  then Some (set_sensitive_words (sensitive_words d ++ [Js.or_else word []]) d)
  else None.

Definition getSensitiveWords (d : db) : list jsstr := sensitive_words d.

(** [checkSensitive]: [words.some((word) => word && content.includes(word))]. *)
Definition checkSensitive (text : jsstr) (d : db) : bool :=
  existsb (fun word => Js.nonempty word && Js.includes text word) (getSensitiveWords d).

Definition find_user_by_token (tok : jsstr) (d : db) : option user_row :=
  find (fun u => bool_decide (token u = tok)) (users d).

Definition find_user_by_id (uid : jsstr) (d : db) : option user_row :=
  find (fun u => bool_decide (user_id u = uid)) (users d).

(** ** Prompt assembly *)

Definition activePersona (rq : chat_request) (d : db) : persona_row :=
  let persona :=
    if Js.truthy (personaId rq) then personas d !! Js.or_else (personaId rq) [] else None in
  match persona with
  | Some p => p
  | None =>
      if Js.truthy (personaId rq) && Js.truthy (personaPrompt rq)
      then {| persona_name := custom_persona_name;
              persona_prompt := Js.or_else (personaPrompt rq) [] |}
      else fallbackPersona
  end.

(** [.filter(Boolean)] on an array of strings and [null]s. *)
Definition filter_Boolean (l : list (option jsstr)) : list jsstr :=
  flat_map (fun o => if Js.truthy o then [Js.or_else o []] else []) l.

Definition assemble_prompt (rq : chat_request) (env : turn_env) (d : db) : jsstr :=
  let persona := activePersona rq d in
  Js.join [10]
    (filter_Boolean
       [ Some directive_compliance;
         Some directive_roleplay;
         Some directive_no_meta;
         Some directive_brevity;
         (if Js.truthy (profile_username (userProfile rq))
          then Some (label_username ++ Js.or_else (profile_username (userProfile rq)) [])
          else None);
         (if Js.truthy (profile_region (userProfile rq))
          then Some (label_region ++ Js.or_else (profile_region (userProfile rq)) [])
          else None);
         Some (label_time ++ local_time env);
         Some (label_persona ++ persona_name persona);
         (if Js.nonempty (persona_prompt persona)
          then Some (label_persona_prompt ++ persona_prompt persona)
          else None) ]).

(** Lines 509-512: the cut to the tier's budget. *)
Definition cut_prompt (systemPrompt : jsstr) (promptLimit : Z) : jsstr :=
  if promptLimit <? Z.of_nat (length systemPrompt)
  then Js.slice0 systemPrompt promptLimit
  else systemPrompt.

Definition systemPrompt (rq : chat_request) (env : turn_env) (d : db) : jsstr :=
  cut_prompt (assemble_prompt rq env d)
             (getPromptLimit (Js.or_else (model rq) (lit "normal")) d).

Definition selectedModel (rq : chat_request) (d : db) : option jsstr :=
  model_id <$>
    find (fun r => bool_decide (model_tier r = Js.or_else (model rq) (lit "normal"))) (models d).

(** ** Store statements *)

(** [upsertMetric] *)
Definition upsertMetric (date : jsstr) (data : daily_row) (d : db) : db :=
  match metrics_daily d !! date with
  | None => set_metrics_daily (<[date := data]> (metrics_daily d)) d
  | Some _ => set_metrics_daily (<[date := data]> (metrics_daily d)) d
  end.

(** [updateTrafficMetric]; [date] is its [getToday()]. *)
Definition updateTrafficMetric (date type key : jsstr) (d : db) : db :=
  match metrics_traffic d !! (date, type, key) with
  | None => set_metrics_traffic (<[(date, type, key) := 1]> (metrics_traffic d)) d
  | Some count => set_metrics_traffic (<[(date, type, key) := count + 1]> (metrics_traffic d)) d
  end.

(** [updateKeywordMetric] *)
Definition updateKeywordMetric (date text : jsstr) (d : db) : db :=
  let tokens := take 12 (Js.words text) in
  fold_left
    (λ d token,
       match keywords_daily d !! (date, token) with
       | None => set_keywords_daily (<[(date, token) := 1]> (keywords_daily d)) d
       | Some count => set_keywords_daily (<[(date, token) := count + 1]> (keywords_daily d)) d
       end)
    tokens d.

(** [UPDATE users SET quota_enhanced = ? WHERE user_id = ?] *)
Definition update_quota_enhanced (value : Z) (uid : jsstr) (d : db) : db :=
  set_users
    (map (λ u, if bool_decide (user_id u = uid)
               then {| user_id := user_id u; token := token u; tag := tag u;
                       quota_enhanced := value; quota_pro := quota_pro u |}
               else u) (users d)) d.

(** [UPDATE users SET quota_pro = ? WHERE user_id = ?] *)
Definition update_quota_pro (value : Z) (uid : jsstr) (d : db) : db :=
  set_users
    (map (λ u, if bool_decide (user_id u = uid)
               then {| user_id := user_id u; token := token u; tag := tag u;
                       quota_enhanced := quota_enhanced u; quota_pro := value |}
               else u) (users d)) d.

Definition insert_conversation (id : jsstr) (row : conversation_row) (d : db) : db :=
  set_conversations (<[id := row]> (conversations d)) d.

(** [insertMessage.run(...)]: [messages.id] is the primary key, and
    [None] is the constraint failure that makes the statement throw. *)
Definition insertMessage (row : message_row) (d : db) : option db :=
  if existsb (λ m, bool_decide (msg_id m = msg_id row)) (messages d) then None
  else Some (set_messages (messages d ++ [row]) d).

(** [addLog]: [audit_logs.id] is the primary key. *)
Definition addLog (row : audit_row) (d : db) : option db :=
  if existsb (λ l, bool_decide (log_id l = log_id row)) (audit_logs d) then None
  else Some (set_audit_logs (audit_logs d ++ [row]) d).

(** A statement sequence of the [try] block: it reads and writes the
    store, and a statement that throws leaves what was written before
    it in place. *)
Definition M (A : Type) : Type := db → option A * db.

Definition ret {A} (a : A) : M A := λ d, (Some a, d).
Definition bind {A B} (m : M A) (k : A → M B) : M B :=
  λ d, match m d with
       | (Some a, d') => k a d'
       | (None, d') => (None, d')
       end.
Definition gets {A} (f : db → A) : M A := λ d, (Some (f d), d).
Definition modify (f : db → db) : M unit := λ d, (Some tt, f d).
Definition attempt (f : db → option db) : M unit :=
  λ d, match f d with
       | Some d' => (Some tt, d')
       | None => (None, d)
       end.
Definition when (b : bool) (m : M unit) : M unit := if b then m else ret tt.

Declare Scope store_scope.
Delimit Scope store_scope with store.
Notation "x <- m ;; k" := (bind m (λ x, k))
  (at level 100, m at next level, right associativity) : store_scope.
Notation "m ;; k" := (bind m (λ _, k))
  (at level 100, right associativity) : store_scope.

(** ** GET /api/chat/conversations/:id *)

(** [ORDER BY created_at ASC] over the rows in rowid order: a stable
    insertion sort, so rows with equal [created_at] keep their rowid
    order, which is what SQLite's sorter returns. *)
Fixpoint insert_by_created_at (x : message_row) (l : list message_row) : list message_row :=
  match l with
  | [] => [x]
  | y :: rest =>
      if msg_created_at x <=? msg_created_at y then x :: y :: rest
      else y :: insert_by_created_at x rest
  end.

Fixpoint order_by_created_at (l : list message_row) : list message_row :=
  match l with
  | [] => []
  | x :: rest => insert_by_created_at x (order_by_created_at rest)
  end.

Definition messages_of (id : jsstr) (d : db) : list message_row :=
  order_by_created_at (filter (λ m, conversation_id m = id) (messages d)).

(** [None] is the 404 answer. *)
Definition get_conversation (id : jsstr) (d : db)
  : option (conversation_row * list message_row) :=
  match conversations d !! id with
  | None => None
  | Some conversation => Some (conversation, messages_of id d)
  end.

(** ** POST /api/chat/message *)

Definition initial_usage : usage :=
  {| input_tokens := Some 0; output_tokens := Some 0; total_tokens := Some 0 |}.

(** The local state of the streaming loop, with the frames written to
    the caller so far. *)
Record relay_state := {
  buffer : jsstr;
  accumulated : jsstr;
  reported : usage;
  written : list event
}.

Definition relay_start : relay_state :=
  {| buffer := []; accumulated := []; reported := initial_usage; written := [] |}.

Definition lastUser (rq : chat_request) : option chat_message :=
  find (λ item, bool_decide (role item = lit "user")) (rev (messages_in rq)).

Definition lastContent (rq : chat_request) : jsstr :=
  match lastUser rq with
  | Some item => content item
  | None => []
  end.

Definition resolve_user (rq : chat_request) (d : db) : option user_row :=
  if Js.truthy (userToken rq) then find_user_by_token (Js.or_else (userToken rq) []) d
  else None.

Definition userTag (user : option user_row) : jsstr :=
  match user with
  | Some u => tag u
  | None => []
  end.

(** [user?.user_id || null] *)
Definition userId (user : option user_row) : option jsstr :=
  match user with
  | Some u => if Js.nonempty (user_id u) then Some (user_id u) else None
  | None => None
  end.

Definition is_some {A} (o : option A) : bool :=
  match o with
  | Some _ => true
  | None => false
  end.

(** Lines 593-601: the row written to [metrics_daily]. *)
Definition daily_update (env : turn_env) (u : usage) (existingDaily : daily_row) : daily_row :=
  let totalRequests := total_requests existingDaily + 1 in
  let avgLatency :=
    Js.round_div (avg_latency existingDaily * total_requests existingDaily + latency_ms env)
                 totalRequests in
  let tokenTotal := token_total existingDaily + Js.or0 (total_tokens u) in
  {| total_requests := totalRequests; avg_latency := avgLatency; token_total := tokenTotal;
     concurrent_peak := Z.max (concurrent_peak existingDaily) 1 |}.

Definition existingDaily (date : jsstr) (d : db) : daily_row :=
  default {| total_requests := 0; avg_latency := 0; token_total := 0; concurrent_peak := 0 |}
          (metrics_daily d !! date).

(** Lines 608-613: the quota decrement, from the [user] row read when
    the handler started. *)
Definition charge_quota (rq : chat_request) (user : option user_row) (d : db) : db :=
  match user with
  | Some usr =>
      let d1 :=
        if Js.eqs (model rq) (lit "enhanced")
        then update_quota_enhanced (quota_enhanced usr - 1) (user_id usr) d
        else d in
      if Js.eqs (model rq) (lit "pro")
      then update_quota_pro (quota_pro usr - 1) (user_id usr) d1
      else d1
  | None => d
  end.

Definition convId (rq : chat_request) (env : turn_env) : jsstr :=
  Js.or_else (conversationId rq) (nanoid_conversation env).

Definition new_conversation (rq : chat_request) (env : turn_env) (user : option user_row)
  : conversation_row :=
  {| conv_user_id := userId user;
     conv_persona_id := if Js.truthy (personaId rq) then personaId rq else None;
     conv_model := Js.or_else (model rq) (lit "normal");
     conv_created_at := now_conversation env |}.

Definition user_message (rq : chat_request) (env : turn_env) : message_row :=
  {| msg_id := nanoid_user_message env; conversation_id := convId rq env;
     msg_role := lit "user"; msg_content := lastContent rq;
     msg_created_at := now_user_message env; usage_prompt := 0; usage_completion := 0 |}.

Definition assistant_message (rq : chat_request) (env : turn_env) (text : jsstr) (u : usage)
  : message_row :=
  {| msg_id := nanoid_assistant_message env; conversation_id := convId rq env;
     msg_role := lit "assistant"; msg_content := text;
     msg_created_at := now_assistant_message env;
     usage_prompt := Js.or0 (input_tokens u);
     usage_completion := Js.or0 (output_tokens u) |}.

Definition audit_entry (rq : chat_request) (env : turn_env) (user : option user_row)
  : audit_row :=
  {| log_id := nanoid_log env; log_user_id := userId user; log_ip := ip env;
     log_ua := default [] (ua (client rq)); log_action := lit "chat";
     log_content := Js.slice0 (lastContent rq) 120;
     log_latency_ms := latency_ms env; log_created_at := now_log env |}.

Section Handler.

Variable cfg : config.

(** [JSON.parse] followed by the property reads of the loop body;
    [None] when parsing throws. *)
Variable JSON_parse : jsstr → option sse_payload.

(** Lines 464-487: the early returns before the backend is called.
    [None] means the turn goes on. *)
Definition guards (rq : chat_request) (d : db) : option response :=
  let user := resolve_user rq d in
  if checkSensitive (lastContent rq) d
     && negb (bool_decide (userTag user = lit "trusted"))
  then Some (Json 400 2 msg_sensitive)
  else if negb (Js.nonempty (apiKey cfg))
  then Some (Json 500 3 msg_no_api_key)
  else if (Js.eqs (model rq) (lit "enhanced") || Js.eqs (model rq) (lit "pro"))
          && negb (is_some user)
  then Some (Json 400 6 msg_login_required)
  else
    match user with
    | Some u =>
        if Js.eqs (model rq) (lit "enhanced") && (quota_enhanced u <=? 0)
        then Some (Json 400 7 msg_enhanced_exhausted)
        else if Js.eqs (model rq) (lit "pro") && (quota_pro u <=? 0)
        then Some (Json 400 8 msg_pro_exhausted)
        else None
    | None => None
    end.

Definition payload (rq : chat_request) (env : turn_env) (d : db) : backend_call :=
  {| call_model := Js.or_else (selectedModel rq d) (modelMap_normal cfg);
     call_input :=
       {| role := lit "system"; content := systemPrompt rq env d |}
       :: map (λ item, {| role := role item; content := content item |}) (messages_in rq) |}.

(** The body of [for (const part of parts)]. *)
Definition handle_part (st : relay_state) (part : jsstr) : relay_state :=
  match find (Js.startsWith (lit "data:")) (Js.split [10] part) with
  | None => st
  | Some line =>
      let dataText := Js.trim (Js.replace (lit "data:") [] line) in
      if bool_decide (dataText = lit "[DONE]")
      then {| buffer := buffer st; accumulated := accumulated st;
              reported := reported st; written := written st ++ [EvSentinel] |}
      else
        match JSON_parse dataText with
        | None => st
        | Some payloadData =>
            let st1 :=
              if match payload_type payloadData with
                 | Some t => Js.includes t (lit "response.output_text.delta")
                 | None => false
                 end && Js.truthy (payload_delta payloadData)
              then {| buffer := buffer st;
                      accumulated := accumulated st ++ Js.or_else (payload_delta payloadData) [];
                      reported := reported st;
                      written :=
                        written st ++ [EvDelta (Js.or_else (payload_delta payloadData) [])] |}
              else st in
            if Js.eqs (payload_type payloadData) (lit "response.completed")
            then {| buffer := buffer st1; accumulated := accumulated st1;
                    reported := default (reported st1) (payload_usage payloadData);
                    written := written st1 |}
            else st1
        end
  end.

(** The body of [for await (const chunk of response.body)]. *)
Definition handle_chunk (st : relay_state) (text : jsstr) : relay_state :=
  let parts := Js.split [10; 10] (buffer st ++ text) in
  let st' := {| buffer := List.last parts []; accumulated := accumulated st;
                reported := reported st; written := written st |} in
  fold_left handle_part (removelast parts) st'.

Definition relay (texts : list jsstr) : relay_state :=
  fold_left handle_chunk texts relay_start.

(** The terminal frame: usage, and the quota left as re-read from the store. *)
Definition done_event (user : option user_row) (u : usage) (d : db) : event :=
  let updatedUser :=
    match userId user with
    | Some uid => find_user_by_id uid d
    | None => None
    end in
  EvDone (Js.or0 (input_tokens u)) (Js.or0 (output_tokens u)) (Js.or0 (total_tokens u))
    (match updatedUser with
     | Some usr => quota_enhanced usr
     | None => defaultQuotas_enhanced cfg
     end)
    (match updatedUser with
     | Some usr => quota_pro usr
     | None => defaultQuotas_pro cfg
     end).

(** Lines 586-662: everything after the output check, up to the
    terminal frame, which it returns. *)
Definition commit (rq : chat_request) (env : turn_env) (user : option user_row)
    (text : jsstr) (u : usage) : M event :=
  (let date := today env in
   existing <- gets (existingDaily date) ;;
   modify (upsertMetric date (daily_update env u existing)) ;;
   when (Js.truthy (device (client rq)))
     (modify (updateTrafficMetric date (lit "device") (Js.or_else (device (client rq)) []))) ;;
   when (Js.truthy (client_region (client rq)))
     (modify (updateTrafficMetric date (lit "region")
                (Js.or_else (client_region (client rq)) []))) ;;
   modify (updateTrafficMetric date (lit "source") (lit "direct")) ;;
   modify (updateKeywordMetric date (lastContent rq)) ;;
   modify (charge_quota rq user) ;;
   existingConv <- gets (λ d, conversations d !! convId rq env) ;;
   when (negb (is_some existingConv))
     (modify (insert_conversation (convId rq env) (new_conversation rq env user))) ;;
   when (Js.nonempty (lastContent rq))
     (attempt (insertMessage (user_message rq env))) ;;
   attempt (insertMessage (assistant_message rq env text u)) ;;
   attempt (addLog (audit_entry rq env user)) ;;
   gets (done_event user u))%store.

(** The [catch] clause: the 500 answer can still be sent while nothing
    has been written; after the first frame the headers are gone and
    the stream is left open. *)
Definition on_catch (evs : list event) : response :=
  match evs with
  | [] => Json 500 5 msg_service
  | _ :: _ => Stream evs false
  end.

Definition chat_handler (rq : chat_request) (env : turn_env) (d : db) : turn_result :=
  match guards rq d with
  | Some rejection => {| db_after := d; resp := rejection; calls := [] |}
  | None =>
      let user := resolve_user rq d in
      let sent := [payload rq env d] in
      match backend env with
      | FetchRejects => {| db_after := d; resp := on_catch []; calls := sent |}
      | FetchResolves true (Some stream) _ =>
          let st := relay (chunks stream) in
          if breaks stream
          then {| db_after := d; resp := on_catch (written st); calls := sent |}
          else
            let flagged := checkSensitive (accumulated st) d in
            let text := if flagged then refusal else accumulated st in
            let evs := if flagged then written st ++ [EvReplace text] else written st in
            match commit rq env user text (reported st) d with
            | (Some done, d') =>
                {| db_after := d'; resp := Stream (evs ++ [done]) true; calls := sent |}
            | (None, d') => {| db_after := d'; resp := on_catch evs; calls := sent |}
            end
      | FetchResolves _ _ error_message =>
          {| db_after := d;
             resp := Json 500 4 (Js.or_else error_message msg_upstream);
             calls := sent |}
      end
  end.

(** The route: [checkIpRules], then the handler. *)
Definition serve (t : turn) (d : db) : turn_result :=
  match checkIpRules (ip (turn_environment t)) (admission_date (turn_environment t)) d with
  | Refused r => {| db_after := d; resp := r; calls := [] |}
  | Allowed d1 => chat_handler (turn_request t) (turn_environment t) d1
  end.

(** Turns served one after the other, none overlapping another. *)
Fixpoint run (d : db) (ts : list turn) : list turn_result :=
  match ts with
  | [] => []
  | t :: rest => let r := serve t d in r :: run (db_after r) rest
  end.

Definition final_db (d : db) (ts : list turn) : db :=
  fold_left (λ d t, db_after (serve t d)) ts d.

End Handler.

(** ** Vocabulary of the properties *)

Definition blocked (ipa : jsstr) (d : db) : bool :=
  existsb (rule_matches ipa (lit "block")) (ip_rules d).

(** The daily limit in force for an address: the [limit_value] of its
    first limit rule, when that is a number other than zero. *)
Definition configured_limit (ipa : jsstr) (d : db) : option Z :=
  match find (rule_matches ipa (lit "limit")) (ip_rules d) ≫= limit_value with
  | Some l => if bool_decide (l = 0) then None else Some l
  | None => None
  end.

(** Today's NetworkRequestCounter of an address, 0 while it has no row. *)
Definition counter (ipa date : jsstr) (d : db) : Z := Js.or0 (ip_requests d !! (ipa, date)).

Definition allows (ipa date : jsstr) (d : db) : bool :=
  match checkIpRules ipa date d with
  | Allowed _ => true
  | Refused _ => false
  end.

Inductive premium := Enhanced | Pro.

Definition tier_name (p : premium) : jsstr :=
  match p with
  | Enhanced => lit "enhanced"
  | Pro => lit "pro"
  end.

Definition quota (p : premium) (u : user_row) : Z :=
  match p with
  | Enhanced => quota_enhanced u
  | Pro => quota_pro u
  end.

(** The turn ran to its terminal frame and [res.end()]. *)
Definition completed (r : turn_result) : bool :=
  match resp r with
  | Stream _ true => true
  | _ => false
  end.

(** The turn ended in the [catch] clause. *)
Definition service_failure (r : turn_result) : bool :=
  match resp r with
  | Json _ 5 _ => true
  | Stream _ false => true
  | _ => false
  end.

(** The turn is requested under token [tok] for premium tier [p]. *)
Definition requested_by (tok : jsstr) (p : premium) (t : turn) : bool :=
  bool_decide (userToken (turn_request t) = Some tok) && Js.nonempty tok
  && Js.eqs (model (turn_request t)) (tier_name p).

(** How many turns of a sequential history were requested under [tok]
    for tier [p] and completed. *)
Fixpoint successes (tok : jsstr) (p : premium) (ts : list turn) (rs : list turn_result) : Z :=
  match ts, rs with
  | t :: ts', r :: rs' =>
      (if requested_by tok p t && completed r then 1 else 0) + successes tok p ts' rs'
  | _, _ => 0
  end.

(** What the moderation filter is specified to decide for a word list:
    some entry occurs in the text. *)
Definition flagged_by (ws : list jsstr) (text : jsstr) : Prop :=
  ∃ w, w ∈ ws ∧ occurs_in w text.

(** The moderation table holds no empty word; both of its writers see to that. *)
Definition no_empty_word (d : db) : Prop := Forall (λ w, w ≠ []) (sensitive_words d).

Definition message_ids (d : db) : list jsstr := map msg_id (messages d).
Definition log_ids (d : db) : list jsstr := map log_id (audit_logs d).

(** [nanoid] returned identifiers that no row holds yet. *)
Definition fresh_ids (env : turn_env) (d : db) : Prop :=
  (nanoid_user_message env ∉ message_ids d) ∧
  (nanoid_assistant_message env ∉ message_ids d) ∧
  nanoid_user_message env ≠ nanoid_assistant_message env ∧
  (nanoid_log env ∉ log_ids d).

(** The state in which the commit leaves every table but the two it
    may fail on. *)
Definition accounted (rq : chat_request) (env : turn_env) (user : option user_row)
    (u : usage) (d : db) (tr : gmap (jsstr * jsstr * jsstr) Z) (kw : gmap (jsstr * jsstr) Z)
    (msgs : list message_row) (logs : list audit_row) : db :=
  {| users := users (charge_quota rq user d);
     conversations :=
       match conversations d !! convId rq env with
       | Some _ => conversations d
       | None => <[convId rq env := new_conversation rq env user]> (conversations d)
       end;
     messages := msgs; personas := personas d; audit_logs := logs;
     metrics_daily :=
       <[today env := daily_update env u (existingDaily (today env) d)]> (metrics_daily d);
     metrics_traffic := tr; keywords_daily := kw;
     sensitive_words := sensitive_words d; models := models d;
     prompt_limits := prompt_limits d; ip_rules := ip_rules d;
     ip_requests := ip_requests d |}.

Definition new_messages (rq : chat_request) (env : turn_env) (text : jsstr) (u : usage)
  : list message_row :=
  (if Js.nonempty (lastContent rq) then [user_message rq env] else [])
  ++ [assistant_message rq env text u].

Ltac db_simpl :=
  cbn [set_users set_conversations set_messages set_audit_logs set_metrics_daily
       set_metrics_traffic set_keywords_daily set_prompt_limits set_ip_requests
       users conversations messages personas audit_logs metrics_daily metrics_traffic
       keywords_daily sensitive_words models prompt_limits ip_rules ip_requests
       fst snd] in *.

(** The identifiers that the commit of this turn inserts were unused. *)
Definition ids_unused (rq : chat_request) (env : turn_env) (d : db) : Prop :=
  (Js.nonempty (lastContent rq) = true →
   (nanoid_user_message env ∉ message_ids d) ∧
   nanoid_user_message env ≠ nanoid_assistant_message env) ∧
  (nanoid_assistant_message env ∉ message_ids d) ∧
  (nanoid_log env ∉ log_ids d).

(** The key of the fixed traffic source. *)
Definition direct_source (date : jsstr) : jsstr * jsstr * jsstr :=
  (date, lit "source", lit "direct").

(** The output check of lines 581-584. *)
Definition screened (d : db) (st : relay_state) : jsstr :=
  if checkSensitive (accumulated st) d then refusal else accumulated st.

Definition frames (d : db) (st : relay_state) : list event :=
  if checkSensitive (accumulated st) d
  then written st ++ [EvReplace refusal]
  else written st.

(** Creation-time order of message rows. *)
Definition earlier (a b : message_row) : Prop := msg_created_at a ≤ msg_created_at b.

(** The rows this turn inserted, recognised by their identifiers. *)
Definition inserted_now (env : turn_env) (m : message_row) : Prop :=
  msg_id m = nanoid_user_message env ∨ msg_id m = nanoid_assistant_message env.

#[local] Instance inserted_now_dec env m : Decision (inserted_now env m).
Proof. unfold inserted_now. apply _. Defined.

(** ** Sample data *)

(** A stand-in for [JSON.parse] on two frame shapes, for the examples:
    a frame spelled [delta xyz] decodes to an output-text delta [xyz],
    and [completed] to the completion event with usage 3/4/7. *)
Definition sample_parse (s : jsstr) : option sse_payload :=
  if Js.startsWith (lit "delta ") s
  then Some {| payload_type := Some (lit "response.output_text.delta");
               payload_delta := Some (drop 6 s); payload_usage := None |}
  else if bool_decide (s = lit "completed")
  then Some {| payload_type := Some (lit "response.completed");
               payload_delta := None;
               payload_usage := Some {| input_tokens := Some 3; output_tokens := Some 4;
                                        total_tokens := Some 7 |} |}
  else None.

Definition sample_cfg : config :=
  {| apiKey := lit "sk-test"; modelMap_normal := lit "gpt-4o-mini";
     defaultQuotas_enhanced := 10; defaultQuotas_pro := 5 |}.

Definition empty_db : db :=
  {| users := []; conversations := ∅; messages := []; personas := ∅; audit_logs := [];
     metrics_daily := ∅; metrics_traffic := ∅; keywords_daily := ∅;
     sensitive_words := []; models := []; prompt_limits := ∅; ip_rules := [];
     ip_requests := ∅ |}.

Definition sample_db : db :=
  {| users := [ {| user_id := lit "u1"; token := lit "tok-a"; tag := [];
                   quota_enhanced := 2; quota_pro := 0 |} ];
     conversations := ∅; messages := []; personas := ∅; audit_logs := [];
     metrics_daily := ∅; metrics_traffic := ∅; keywords_daily := ∅;
     sensitive_words := [lit "bad"];
     models := [ {| model_tier := lit "enhanced"; model_id := lit "gpt-4o" |} ];
     prompt_limits := ∅;
     ip_rules := [ {| rule_ip := lit "10.0.0.1"; rule_type := lit "limit";
                      limit_value := Some 2 |} ];
     ip_requests := ∅ |}.

Definition sample_body : body_stream :=
  {| chunks := [ lit "data: delta hel"; [10; 10] ++ lit "data: delta lo" ++ [10; 10]
                 ++ lit "data: completed" ++ [10; 10] ++ lit "data: [DONE]" ++ [10; 10] ];
     breaks := false |}.

Definition env_of (address conversation_id user_message_id assistant_message_id log_row_id
    : jsstr) (answer : fetch_outcome) : turn_env :=
  {| ip := address; admission_date := lit "2026-01-01"; today := lit "2026-01-01";
     local_time := lit "2026/1/1 08:00:00"; latency_ms := 250;
     nanoid_conversation := conversation_id; nanoid_user_message := user_message_id;
     nanoid_assistant_message := assistant_message_id; nanoid_log := log_row_id;
     now_conversation := 1000; now_user_message := 1000; now_assistant_message := 1000;
     now_log := 1001;
     backend := answer |}.

Definition sample_env : turn_env :=
  env_of (lit "10.0.0.9") (lit "c1") (lit "m1") (lit "m2") (lit "l1")
         (FetchResolves true (Some sample_body) None).

(** The same caller one turn later: [nanoid] has moved on. *)
Definition second_env : turn_env :=
  env_of (lit "10.0.0.9") (lit "c2") (lit "m3") (lit "m4") (lit "l2")
         (FetchResolves true (Some sample_body) None).

(** A caller behind the address that [sample_db] limits to two requests a day. *)
Definition limited_env : turn_env :=
  env_of (lit "10.0.0.1") (lit "c1") (lit "m1") (lit "m2") (lit "l1")
         (FetchResolves true (Some sample_body) None).

(** The backend answers with an error status and no body. *)
Definition upstream_error_env : turn_env :=
  env_of (lit "10.0.0.9") (lit "c1") (lit "m1") (lit "m2") (lit "l1")
         (FetchResolves false None None).

(** The backend streams a word of the moderation list. *)
Definition flagged_body : body_stream :=
  {| chunks := [ lit "data: delta bad" ++ [10; 10] ]; breaks := false |}.

Definition flagged_env : turn_env :=
  env_of (lit "10.0.0.9") (lit "c1") (lit "m1") (lit "m2") (lit "l1")
         (FetchResolves true (Some flagged_body) None).

Definition sample_request (tier : option jsstr) (tok : option jsstr) (text : jsstr)
  : chat_request :=
  {| messages_in := [ {| role := lit "user"; content := text |} ];
     model := tier; personaId := None; personaPrompt := None;
     client := {| device := None; client_region := None; ua := None |};
     userProfile := {| profile_username := None; profile_region := None |};
     userToken := tok; conversationId := None |}.

Definition sample_turn (tier tok : option jsstr) (text : jsstr) (env : turn_env) : turn :=
  {| turn_request := sample_request tier tok text; turn_environment := env |}.

(** An enhanced-tier request with an inline persona of 2000 code units. *)
Definition long_persona_request : chat_request :=
  {| messages_in := [ {| role := lit "user"; content := lit "hello" |} ];
     model := Some (lit "enhanced"); personaId := Some (lit "custom");
     personaPrompt := Some (replicate 2000 97);
     client := {| device := None; client_region := None; ua := None |};
     userProfile := {| profile_username := None; profile_region := None |};
     userToken := Some (lit "tok-a"); conversationId := None |}.

(** ** The other routes of the server *)

Definition set_models (v : list model_row) (d : db) : db :=
  {| users := users d; conversations := conversations d; messages := messages d;
     personas := personas d; audit_logs := audit_logs d;
     metrics_daily := metrics_daily d; metrics_traffic := metrics_traffic d;
     keywords_daily := keywords_daily d; sensitive_words := sensitive_words d;
     models := v; prompt_limits := prompt_limits d;
     ip_rules := ip_rules d; ip_requests := ip_requests d |}.

Definition set_ip_rules (v : list ip_rule) (d : db) : db :=
  {| users := users d; conversations := conversations d; messages := messages d;
     personas := personas d; audit_logs := audit_logs d;
     metrics_daily := metrics_daily d; metrics_traffic := metrics_traffic d;
     keywords_daily := keywords_daily d; sensitive_words := sensitive_words d;
     models := models d; prompt_limits := prompt_limits d;
     ip_rules := v; ip_requests := ip_requests d |}.

(** What an administrative route answers: a rejection with its status
    and code, or the [code: 0] answer. *)
Inductive admin_answer :=
  | Rejected (status code : Z)
  | Accepted.

(** *** getRequestIp *)

(** A request header: absent, one value, or an array of values. *)
Inductive header :=
  | HeaderAbsent
  | HeaderValue (value : jsstr)
  | HeaderArray (values : list jsstr).

Record request_origin := {
  x_forwarded_for : header;
  x_real_ip : header;
  req_ip : option jsstr;
  remoteAddress : option jsstr
}.

(** [Array.isArray(h) ? h[0] : h] *)
Definition header_first (h : header) : option jsstr :=
  match h with
  | HeaderAbsent => None
  | HeaderValue value => Some value
  | HeaderArray values => head values
  end.

Definition getRequestIp (o : request_origin) : jsstr :=
  let forwarded :=
    (λ value, Js.trim (hd [] (Js.split [44] value))) <$> header_first (x_forwarded_for o) in
  let raw :=
    Js.or_else forwarded
      (Js.or_else (header_first (x_real_ip o))
         (Js.or_else (req_ip o) (Js.or_else (remoteAddress o) []))) in
  if negb (Js.nonempty raw) then []
  else if bool_decide (raw = lit "::1") then lit "127.0.0.1"
  else if Js.startsWith (lit "::ffff:") raw then Js.replace (lit "::ffff:") [] raw
  else raw.

(** *** purgeOldLogs *)

Definition retention_ms : Z := 7 * 24 * 60 * 60 * 1000.

(** [DELETE FROM audit_logs WHERE created_at < cutoff], at clock [now]. *)
Definition purgeOldLogs (now : Z) (d : db) : db :=
  set_audit_logs
    (filter (λ l, ¬ log_created_at l < now - retention_ms) (audit_logs d)) d.

(** *** toCsv *)

(** [escape]: [None] is a [null] or [undefined] cell. *)
Definition csv_escape (value : option jsstr) : jsstr :=
  let text := default [] value in
  if Js.includes text [34]
  then [34] ++ flat_map (λ c, if bool_decide (c = 34) then [34; 34] else [c]) text ++ [34]
  else if Js.includes text [44] || Js.includes text [10]
  then [34] ++ text ++ [34]
  else text.

Definition toCsv (rows : list (gmap jsstr jsstr)) (headers : list jsstr) : jsstr :=
  let headerLine := Js.join [44] headers in
  let lines := map (λ row, Js.join [44] (map (λ key, csv_escape (row !! key)) headers)) rows in
  Js.join [10] (headerLine :: lines).

(** *** POST /api/auth/login *)

Inductive login_answer :=
  | LoginInvalid                                    (* 400, code 1 *)
  | LoginOk (userId : jsstr) (enhanced pro : Z)     (* data.userId, data.modelQuota *)
  | LoginThrows.                                    (* the INSERT breaks UNIQUE(user_id) *)

(** Of the stored columns only those of [user_row] are followed;
    [nanoid_user] is the [nanoid(8)] drawn for an unseen token. *)
Definition auth_login (cfg : config) (tok : option jsstr) (nanoid_user : jsstr) (d : db)
  : db * login_answer :=
  if negb (Js.truthy tok) then (d, LoginInvalid)
  else
    match find_user_by_token (Js.or_else tok []) d with
    | Some user => (d, LoginOk (user_id user) (quota_enhanced user) (quota_pro user))
    | None =>
        if existsb (λ u, bool_decide (user_id u = nanoid_user)) (users d)
        then (d, LoginThrows)
        else
          (set_users
             (users d ++ [ {| user_id := nanoid_user; token := Js.or_else tok []; tag := [];
                              quota_enhanced := defaultQuotas_enhanced cfg;
                              quota_pro := defaultQuotas_pro cfg |} ]) d,
           LoginOk nanoid_user (defaultQuotas_enhanced cfg) (defaultQuotas_pro cfg))
    end.

(** *** The administrative routes on users *)

(** [POST /api/admin/users]; [None] when the INSERT breaks
    UNIQUE(user_id) or UNIQUE(token) and throws. *)
Definition admin_create_user (userId : option jsstr) (nanoid_user : jsstr)
    (tag_in : option jsstr) (quotaEnhanced quotaPro : option Z) (d : db) : option db :=
  let id := Js.or_else userId nanoid_user in
  let row := {| user_id := id; token := lit "admin-" ++ id; tag := Js.or_else tag_in [];
                quota_enhanced := Js.or0 quotaEnhanced; quota_pro := Js.or0 quotaPro |} in
  if existsb (λ u, bool_decide (user_id u = user_id row)) (users d)
     || existsb (λ u, bool_decide (token u = token row)) (users d)
  then None
  else Some (set_users (users d ++ [row]) d).

(** [PUT /api/admin/users/:id] *)
Definition admin_update_user (id : jsstr) (tag_in : option jsstr)
    (quotaEnhanced quotaPro : option Z) (d : db) : db :=
  set_users
    (map (λ u, if bool_decide (user_id u = id)
               then {| user_id := user_id u; token := token u; tag := Js.or_else tag_in [];
                       quota_enhanced := Js.or0 quotaEnhanced;
                       quota_pro := Js.or0 quotaPro |}
               else u) (users d)) d.

(** [POST /api/admin/users/:id/recharge]; the answer carries the two
    new balances, [None] is the 404. *)
Definition admin_recharge (id : jsstr) (enhanced pro : option Z) (d : db)
  : db * option (Z * Z) :=
  match find_user_by_id id d with
  | None => (d, None)
  | Some user =>
      let nextEnhanced := quota_enhanced user + Js.or0 enhanced in
      let nextPro := quota_pro user + Js.or0 pro in
      (set_users
         (map (λ u, if bool_decide (user_id u = id)
                    then {| user_id := user_id u; token := token u; tag := tag u;
                            quota_enhanced := nextEnhanced; quota_pro := nextPro |}
                    else u) (users d)) d,
       Some (nextEnhanced, nextPro))
  end.

(** [DELETE /api/admin/users/:id] *)
Definition admin_delete_user (userId : jsstr) (d : db) : db :=
  let convs :=
    (map_to_list (filter (λ kv, conv_user_id kv.2 = Some userId) (conversations d))).*1 in
  let d1 :=
    fold_left
      (λ d conv, set_messages (filter (λ m, conversation_id m ≠ conv) (messages d)) d)
      convs d in
  let d2 :=
    set_conversations (filter (λ kv, conv_user_id kv.2 ≠ Some userId) (conversations d1)) d1 in
  set_users (filter (λ u, user_id u ≠ userId) (users d2)) d2.

(** *** The administrative routes on the reference tables *)

(** The rows of [models] and [ip_rules] are followed without their
    surrogate [id], [name] and [created_at] columns, which no route
    modelled here reads back. *)

(** [POST /api/admin/models] *)
Definition admin_set_model (tier modelId : option jsstr) (d : db) : db * admin_answer :=
  if negb (Js.truthy tier) || negb (Js.truthy modelId) then (d, Rejected 400 1)
  else
    let t := Js.or_else tier [] in
    if existsb (λ r, bool_decide (model_tier r = t)) (models d)
    then (set_models
            (map (λ r, if bool_decide (model_tier r = t)
                       then {| model_tier := model_tier r; model_id := Js.or_else modelId [] |}
                       else r) (models d)) d, Accepted)
    else (set_models (models d ++ [ {| model_tier := t; model_id := Js.or_else modelId [] |} ]) d,
          Accepted).

(** [DELETE /api/admin/models/:tier] *)
Definition admin_delete_model (tier : jsstr) (d : db) : db :=
  set_models (filter (λ r, model_tier r ≠ tier) (models d)) d.

(** [POST /api/admin/prompt-limits]; [maxChars] is [Number(maxChars)],
    [None] when the field is missing. *)
Definition admin_set_prompt_limit (tier : option jsstr) (maxChars : option Z) (d : db)
  : db * admin_answer :=
  if negb (Js.truthy tier) || bool_decide (Js.or0 maxChars = 0) then (d, Rejected 400 1)
  else if (Js.or0 maxChars <? 200) || (5000 <? Js.or0 maxChars) then (d, Rejected 400 2)
  else
    match prompt_limits d !! Js.or_else tier [] with
    | Some _ =>
        (set_prompt_limits (<[Js.or_else tier [] := Js.or0 maxChars]> (prompt_limits d)) d,
         Accepted)
    | None =>
        (set_prompt_limits (<[Js.or_else tier [] := Js.or0 maxChars]> (prompt_limits d)) d,
         Accepted)
    end.

(** [POST /api/admin/ip/block] *)
Definition admin_block_ip (address : option jsstr) (d : db) : db * admin_answer :=
  if negb (Js.truthy address) then (d, Rejected 400 1)
  else (set_ip_rules
          (ip_rules d ++ [ {| rule_ip := Js.or_else address []; rule_type := lit "block";
                              limit_value := None |} ]) d, Accepted).

(** [POST /api/admin/ip/limit]; [limit] is [Number(limit)]. *)
Definition admin_limit_ip (address : option jsstr) (limit : option Z) (d : db)
  : db * admin_answer :=
  if negb (Js.truthy address) || bool_decide (Js.or0 limit = 0) then (d, Rejected 400 1)
  else (set_ip_rules
          (ip_rules d ++ [ {| rule_ip := Js.or_else address []; rule_type := lit "limit";
                              limit_value := Some (Js.or0 limit) |} ]) d, Accepted).

(** *** Administrative sessions *)

(** The [admin_settings] table and the process-wide [adminTokens] map. *)
Record admin_state := {
  admin_settings : gmap jsstr jsstr;
  adminTokens : gmap jsstr Z
}.

(** [ADMIN_USER || "admin"] and [ADMIN_PASSWORD || "admin"]. *)
Record admin_env := { adminUser : jsstr; adminPassword : jsstr }.

(** The two settings rows that [initDb] inserts when they are absent. *)
Definition initDb_admin_settings (e : admin_env) (s : admin_state) : admin_state :=
  let s1 :=
    match admin_settings s !! lit "admin_user" with
    | None => {| admin_settings := <[lit "admin_user" := adminUser e]> (admin_settings s);
                 adminTokens := adminTokens s |}
    | Some _ => s
    end in
  match admin_settings s1 !! lit "admin_password" with
  | None => {| admin_settings := <[lit "admin_password" := adminPassword e]> (admin_settings s1);
               adminTokens := adminTokens s1 |}
  | Some _ => s1
  end.

(** [getAdminCredentials]: user name and password. *)
Definition getAdminCredentials (e : admin_env) (s : admin_state) : jsstr * jsstr :=
  (Js.or_else (admin_settings s !! lit "admin_user") (adminUser e),
   Js.or_else (admin_settings s !! lit "admin_password") (adminPassword e)).

Definition session_ms : Z := 24 * 60 * 60 * 1000.

(** [POST /api/admin/login]; the answer is the session token, [None]
    for the 401. *)
Definition admin_login (e : admin_env) (username password : option jsstr)
    (nanoid_token : jsstr) (now : Z) (s : admin_state) : admin_state * option jsstr :=
  let creds := getAdminCredentials e s in
  if negb (bool_decide (username = Some creds.1)) || negb (bool_decide (password = Some creds.2))
  then (s, None)
  else ({| admin_settings := admin_settings s;
           adminTokens := <[nanoid_token := now + session_ms]> (adminTokens s) |},
        Some nanoid_token).

(** [requireAdmin]: [true] lets the request through, [false] is the 401. *)
Definition requireAdmin (authorization : option jsstr) (now : Z) (s : admin_state) : bool :=
  let hdr := Js.or_else authorization [] in
  let tok := if Js.startsWith (lit "Bearer ") hdr then drop 7 hdr else [] in
  match adminTokens s !! tok with
  | None => false
  | Some expiresAt => negb (expiresAt <? now)
  end.

(** [POST /api/admin/password] *)
Definition admin_change_password (e : admin_env) (currentPassword newPassword : option jsstr)
    (s : admin_state) : admin_state * admin_answer :=
  if negb (Js.truthy currentPassword) || negb (Js.truthy newPassword) then (s, Rejected 400 1)
  else if (length (Js.or_else newPassword []) <? 6)%nat then (s, Rejected 400 2)
  else if negb (bool_decide (currentPassword = Some (getAdminCredentials e s).2))
  then (s, Rejected 400 3)
  else
    match admin_settings s !! lit "admin_password" with
    | Some _ =>
        ({| admin_settings :=
              <[lit "admin_password" := Js.or_else newPassword []]> (admin_settings s);
            adminTokens := adminTokens s |}, Accepted)
    | None => (s, Accepted)
    end.

(** ** More vocabulary and sample data *)

(** The relay state with another pending buffer. *)
Definition with_buffer (b : jsstr) (st : relay_state) : relay_state :=
  {| buffer := b; accumulated := accumulated st; reported := reported st;
     written := written st |}.

(** [c] put in front of the first piece of a split. *)
Definition cons_head (c : Z) (pieces : list jsstr) : list jsstr :=
  match pieces with
  | [] => [[c]]
  | x :: rest => (c :: x) :: rest
  end.

(** How many turns of a history come from address [ipa] on day [date]. *)
Definition requests_from (ipa date : jsstr) (ts : list turn) : Z :=
  Z.of_nat
    (length (filter (λ t, ip (turn_environment t) = ipa
                          ∧ admission_date (turn_environment t) = date) ts)).

(** Every turn of a sequential history draws identifiers that no row
    holds at the time the turn is served: [nanoid] does not repeat. *)
Fixpoint fresh_history (cfg : config) (JSON_parse : jsstr → option sse_payload)
    (d : db) (ts : list turn) : Prop :=
  match ts with
  | [] => True
  | t :: rest =>
      fresh_ids (turn_environment t) d
      ∧ fresh_history cfg JSON_parse (db_after (serve cfg JSON_parse t d)) rest
  end.

(** The sample store once [initDb] has seeded the budgets, the
    environment setting none. *)
Definition seeded_db : db := initDb_prompt_limits None None None sample_db.

(** The two UNIQUE constraints of the [users] table. *)
Definition users_unique (d : db) : Prop :=
  NoDup (map user_id (users d)) ∧ NoDup (map token (users d)).

(** The owner of the conversation a message row belongs to. *)
Definition owner_of (m : message_row) (d : db) : option jsstr :=
  conversations d !! conversation_id m ≫= conv_user_id.

(** A caller that answers in the conversation [c1] under the token of [u1]. *)
Definition reply_request : chat_request :=
  {| messages_in := [ {| role := lit "user"; content := lit "hello" |};
                      {| role := lit "assistant"; content := lit "hi" |};
                      {| role := lit "user"; content := lit "again" |};
                      {| role := lit "system"; content := lit "note" |} ];
     model := None; personaId := None; personaPrompt := None;
     client := {| device := None; client_region := None; ua := None |};
     userProfile := {| profile_username := None; profile_region := None |};
     userToken := Some (lit "tok-a"); conversationId := Some (lit "c1") |}.

(** The call to the backend is rejected. *)
Definition rejected_env : turn_env :=
  env_of (lit "10.0.0.9") (lit "c1") (lit "m1") (lit "m2") (lit "l1") FetchRejects.

(** A request that came through two proxies from an IPv4-mapped address. *)
Definition sample_origin : request_origin :=
  {| x_forwarded_for := HeaderValue (lit " ::ffff:10.0.0.9 , 172.16.0.1");
     x_real_ip := HeaderValue (lit "172.16.0.1");
     req_ip := Some (lit "172.16.0.1");
     remoteAddress := Some (lit "::1") |}.

Definition sample_admin_env : admin_env :=
  {| adminUser := lit "admin"; adminPassword := lit "admin" |}.

Definition sample_admin_state : admin_state :=
  initDb_admin_settings sample_admin_env {| admin_settings := ∅; adminTokens := ∅ |}.

Definition sample_rows : list (gmap jsstr jsstr) :=
  [ {[ lit "id" := lit "l1"; lit "action" := lit "chat" ]};
    {[ lit "id" := lit "l2" ]} ].

Definition sample_daily : daily_row :=
  {| total_requests := 3; avg_latency := 100; token_total := 40; concurrent_peak := 1 |}.

(** A request that carries no message of the user. *)
Definition silent_request : chat_request :=
  {| messages_in := [ {| role := lit "assistant"; content := lit "hi" |} ];
     model := None; personaId := None; personaPrompt := None;
     client := {| device := None; client_region := None; ua := None |};
     userProfile := {| profile_username := None; profile_region := None |};
     userToken := None; conversationId := None |}.


(** * Properties *)

(** ** JavaScript string helpers *)

Lemma startsWith_app (w s : jsstr) : Js.startsWith w (w ++ s) = true.
Proof.
  induction w as [|c w IH]; simpl; [reflexivity|].
  rewrite bool_decide_eq_true_2 by reflexivity. exact IH.
Qed.

Lemma startsWith_prefix (w s : jsstr) :
  Js.startsWith w s = true → ∃ post, s = w ++ post.
Proof.
  revert s. induction w as [|c w IH]; intros s H; simpl in *.
  - by exists s.
  - destruct s as [|b s]; [discriminate|].
    apply andb_prop in H as [Hc Hs]. apply bool_decide_eq_true_1 in Hc as ->.
    destruct (IH _ Hs) as [post ->]. by exists post.
Qed.

(** [includes] decides occurrence as a substring. *)
Lemma includes_spec (s w : jsstr) : Js.includes s w = true ↔ occurs_in w s.
Proof.
  split.
  - induction s as [|c s IH]; simpl; intros H.
    + rewrite orb_false_r in H. apply startsWith_prefix in H as [post ->].
      by exists [], post.
    + apply orb_prop in H as [H|H].
      * apply startsWith_prefix in H as [post ->]. by exists [], post.
      * destruct (IH H) as (pre & post & ->). by exists (c :: pre), post.
  - intros (pre & post & ->). induction pre as [|c pre IH].
    + assert (H : Js.startsWith w (w ++ post) = true) by apply startsWith_app.
      simpl. destruct (w ++ post); simpl; rewrite H; reflexivity.
    + simpl. simpl in IH. rewrite IH. apply orb_true_r.
Qed.

(** [checkSensitive] flags a text when a non-empty entry occurs in it. *)
Lemma checkSensitive_true (text : jsstr) (d : db) :
  checkSensitive text d = true ↔
  ∃ w, w ∈ sensitive_words d ∧ w ≠ [] ∧ occurs_in w text.
Proof.
  unfold checkSensitive, getSensitiveWords. rewrite existsb_exists. split.
  - intros (w & Hin & H). apply andb_prop in H as [Hne Hinc].
    exists w. split; [by apply list_elem_of_In|]. split.
    + intros ->. discriminate.
    + by apply includes_spec.
  - intros (w & Hin & Hne & Hocc). exists w. split; [by apply list_elem_of_In|].
    apply andb_true_intro. split.
    + destruct w; [congruence|reflexivity].
    + by apply includes_spec.
Qed.

(** On a table without empty words [checkSensitive] is the specified screen. *)
Lemma checkSensitive_spec (text : jsstr) (d : db) :
  no_empty_word d →
  (checkSensitive text d = true ↔ flagged_by (sensitive_words d) text).
Proof.
  intros Hwords. rewrite checkSensitive_true. unfold flagged_by. split.
  - intros (w & Hin & _ & Hocc). eauto.
  - intros (w & Hin & Hocc). exists w. split; [exact Hin|]. split; [|exact Hocc].
    unfold no_empty_word in Hwords. rewrite Forall_forall in Hwords. by apply Hwords.
Qed.

(** The writers of the moderation table keep it free of empty words. *)
Lemma initDb_sensitive_words_nonempty (lexicon : list jsstr) (d : db) :
  no_empty_word d → no_empty_word (initDb_sensitive_words lexicon d).
Proof.
  intros H. unfold initDb_sensitive_words. destruct (bool_decide _); [|exact H].
  unfold no_empty_word. cbn [set_sensitive_words sensitive_words].
  apply Forall_forall. intros w Hw. apply list_elem_of_In, in_flat_map in Hw as (x & _ & Hx).
  destruct (Js.trim x) eqn:E; cbn [Js.nonempty] in Hx; [destruct Hx|].
  destruct Hx as [<-|[]]. discriminate.
Qed.

Lemma admin_add_word_nonempty (word : option jsstr) (d d' : db) :
  no_empty_word d → admin_add_word word d = Some d' → no_empty_word d'.
Proof.
  unfold admin_add_word, no_empty_word. intros H.
  destruct word as [[|c w]|]; cbn [Js.truthy Js.or_else]; try discriminate.
  intros [= <-]. cbn [set_sensitive_words sensitive_words].
  apply Forall_app. split; [exact H|]. by constructor.
Qed.

Lemma slice0_take (s : jsstr) (n : nat) : Js.slice0 s (Z.of_nat n) = take n s.
Proof.
  unfold Js.slice0. rewrite (proj2 (Z.leb_le _ _)) by lia. by rewrite Nat2Z.id.
Qed.

(** ** Admission *)

Lemma checkIpRules_eq (ipa date : jsstr) (d : db) :
  checkIpRules ipa date d =
  if blocked ipa d then Refused (Json 403 9 msg_blocked)
  else match configured_limit ipa d with
       | None => Allowed d
       | Some limit =>
           if limit <=? counter ipa date d then Refused (Json 429 10 msg_rate_limited)
           else Allowed
                  (set_ip_requests (<[(ipa, date) := counter ipa date d + 1]> (ip_requests d)) d)
       end.
Proof.
  unfold checkIpRules, blocked, configured_limit, counter.
  destruct (existsb _ _); [reflexivity|].
  destruct (find _ _ ≫= limit_value) as [l|]; [|reflexivity].
  destruct (bool_decide (l = 0)); [reflexivity|].
  destruct (ip_requests d !! (ipa, date)); reflexivity.
Qed.

Lemma checkIpRules_frame (ipa date : jsstr) (d d1 : db) :
  checkIpRules ipa date d = Allowed d1 →
  ∃ reqs, d1 = set_ip_requests reqs d.
Proof.
  rewrite checkIpRules_eq. destruct (blocked ipa d); [discriminate|].
  destruct (configured_limit ipa d) as [l|].
  - destruct (l <=? _); [discriminate|]. intros [= <-]. eauto.
  - intros [= <-]. exists (ip_requests d). by destruct d.
Qed.

(** ** The statements of the commit *)

Lemma upsertMetric_eq (date : jsstr) (data : daily_row) (d : db) :
  upsertMetric date data d = set_metrics_daily (<[date := data]> (metrics_daily d)) d.
Proof. unfold upsertMetric. by destruct (metrics_daily d !! date). Qed.

Lemma updateTrafficMetric_eq (date type key : jsstr) (d : db) :
  updateTrafficMetric date type key d =
  set_metrics_traffic
    (<[(date, type, key) := Js.or0 (metrics_traffic d !! (date, type, key)) + 1]>
       (metrics_traffic d)) d.
Proof. unfold updateTrafficMetric. by destruct (metrics_traffic d !! _). Qed.

Lemma updateKeywordMetric_shape (date text : jsstr) (d : db) :
  ∃ kw, updateKeywordMetric date text d = set_keywords_daily kw d.
Proof.
  unfold updateKeywordMetric. generalize (take 12 (Js.words text)) as tokens.
  intros tokens. revert d. induction tokens as [|tok tokens IH]; intros d; simpl.
  - exists (keywords_daily d). by destruct d.
  - destruct (keywords_daily d !! (date, tok)).
    + destruct (IH (set_keywords_daily (<[(date, tok) := z + 1]> (keywords_daily d)) d))
        as [kw ->]. by exists kw.
    + destruct (IH (set_keywords_daily (<[(date, tok) := 1]> (keywords_daily d)) d))
        as [kw ->]. by exists kw.
Qed.

Lemma charge_quota_shape (rq : chat_request) (user : option user_row) (d : db) :
  charge_quota rq user d = set_users (users (charge_quota rq user d)) d.
Proof.
  unfold charge_quota. destruct user as [usr|]; [|by destruct d].
  destruct (Js.eqs (model rq) (lit "enhanced")), (Js.eqs (model rq) (lit "pro"));
    by destruct d.
Qed.

Section Properties.

Variable cfg : config.
Variable JSON_parse : jsstr → option sse_payload.

Lemma existsb_false_not_in {A B} `{EqDecision B} (f : A → B) (b : B) (l : list A) :
  existsb (λ x, bool_decide (f x = b)) l = false ↔ b ∉ map f l.
Proof.
  induction l as [|x l IH]; simpl.
  - split; [intros _; apply not_elem_of_nil|done].
  - rewrite orb_false_iff, IH, not_elem_of_cons, bool_decide_eq_false.
    split; intros [H1 H2]; split; auto.
Qed.

Lemma insertMessage_Some (row : message_row) (d d' : db) :
  insertMessage row d = Some d' ↔
  (msg_id row ∉ message_ids d) ∧ d' = set_messages (messages d ++ [row]) d.
Proof.
  unfold insertMessage, message_ids.
  destruct (existsb _ _) eqn:E.
  - split; [discriminate|]. intros [H _]. apply existsb_false_not_in in H. congruence.
  - apply existsb_false_not_in in E. split; [intros [= <-]; done|]. by intros [_ ->].
Qed.

Lemma addLog_Some (row : audit_row) (d d' : db) :
  addLog row d = Some d' ↔
  (log_id row ∉ log_ids d) ∧ d' = set_audit_logs (audit_logs d ++ [row]) d.
Proof.
  unfold addLog, log_ids.
  destruct (existsb _ _) eqn:E.
  - split; [discriminate|]. intros [H _]. apply existsb_false_not_in in H. congruence.
  - apply existsb_false_not_in in E. split; [intros [= <-]; done|]. by intros [_ ->].
Qed.

Lemma insertMessage_fresh (row : message_row) (d : db) :
  msg_id row ∉ message_ids d →
  insertMessage row d = Some (set_messages (messages d ++ [row]) d).
Proof. intros H. by apply insertMessage_Some. Qed.

Lemma addLog_fresh (row : audit_row) (d : db) :
  log_id row ∉ log_ids d →
  addLog row d = Some (set_audit_logs (audit_logs d ++ [row]) d).
Proof. intros H. by apply addLog_Some. Qed.

Lemma updateTrafficMetric_shape (date type key : jsstr) (d : db) :
  ∃ tr, updateTrafficMetric date type key d = set_metrics_traffic tr d
        ∧ tr !! (date, type, key)
          = Some (Js.or0 (metrics_traffic d !! (date, type, key)) + 1)
        ∧ ∀ k, k ≠ (date, type, key) → tr !! k = metrics_traffic d !! k.
Proof.
  rewrite updateTrafficMetric_eq. eexists. split; [reflexivity|]. split.
  - by rewrite lookup_insert_eq.
  - intros k Hk. by rewrite lookup_insert_ne.
Qed.

Lemma charge_quota_users (rq : chat_request) (user : option user_row) (d d0 : db) :
  users d = users d0 → users (charge_quota rq user d) = users (charge_quota rq user d0).
Proof.
  intros H. unfold charge_quota, update_quota_enhanced, update_quota_pro.
  destruct user as [usr|]; [|exact H].
  destruct (Js.eqs (model rq) (lit "enhanced")), (Js.eqs (model rq) (lit "pro"));
    db_simpl; by rewrite ?H.
Qed.

Lemma charge_quota_from (rq : chat_request) (user : option user_row) (d d0 : db) :
  users d = users d0 →
  charge_quota rq user d = set_users (users (charge_quota rq user d0)) d.
Proof.
  intros H. rewrite charge_quota_shape. f_equal. by apply charge_quota_users.
Qed.

Ltac name_steps :=
  repeat match goal with
  | |- context [updateTrafficMetric ?a ?b ?c ?x] =>
      lazymatch x with
      | context [updateTrafficMetric] => fail
      | _ => let tr := fresh "tr" in
             let H := fresh "Htr" in
             let H' := fresh "Hne" in
             destruct (updateTrafficMetric_shape a b c x) as (tr & -> & H & H')
      end
  | |- context [updateKeywordMetric ?a ?b ?x] =>
      let kw := fresh "kw" in
      destruct (updateKeywordMetric_shape a b x) as [kw ->]
  end.

Ltac commit_prelude rq env user d :=
  unfold commit, new_messages;
  destruct (Js.truthy (device (client rq))), (Js.truthy (client_region (client rq)));
  cbv beta iota delta [bind gets modify when ret];
  rewrite ?upsertMetric_eq; name_steps;
  rewrite (charge_quota_from rq user (set_keywords_daily _ _) d) by reflexivity;
  db_simpl;
  destruct (conversations d !! convId rq env) eqn:Hconv; cbn [is_some negb];
  cbv beta iota; unfold insert_conversation.

Lemma commit_shape (rq : chat_request) (env : turn_env) (user : option user_row)
    (text : jsstr) (u : usage) (d : db) :
  ∃ tr kw,
    match commit cfg rq env user text u d with
    | (Some done, d') =>
        d' = accounted rq env user u d tr kw
               (messages d ++ new_messages rq env text u)
               (audit_logs d ++ [audit_entry rq env user])
        ∧ done = done_event cfg user u d'
        ∧ ids_unused rq env d
        ∧ tr !! direct_source (today env)
          = Some (Js.or0 (metrics_traffic d !! direct_source (today env)) + 1)
    | (None, d') => ∃ msgs logs, d' = accounted rq env user u d tr kw msgs logs
    end.
Proof.
  commit_prelude rq env user d.
  all: destruct (Js.nonempty (lastContent rq)) eqn:Hlast.
  all: repeat match goal with
       | |- context [attempt ?f ?x] =>
           unfold attempt at 1; destruct (f x) eqn:?; cbv beta iota
       | H : insertMessage _ _ = Some _ |- _ => apply insertMessage_Some in H as [? ->]
       | H : addLog _ _ = Some _ |- _ => apply addLog_Some in H as [? ->]
       end.
  all: unfold message_ids, log_ids in *; db_simpl.
  all: match goal with Hs : ?tr !! (_, lit "source", _) = Some _ |- _ => exists tr, kw end.
  all: try (do 2 eexists; unfold accounted; rewrite Hconv; reflexivity).
  all: split; [unfold accounted; rewrite Hconv, <- ?app_assoc; reflexivity|].
  all: split; [reflexivity|].
  all: split;
    [ unfold ids_unused, message_ids, log_ids;
      repeat match goal with
      | H : _ ∉ map _ (_ ++ _) |- _ =>
          rewrite map_app, not_elem_of_app in H; cbn [map] in H;
          rewrite list_elem_of_singleton in H; destruct H
      end;
      cbn [msg_id user_message assistant_message log_id audit_entry] in *;
      repeat split; try assumption; try congruence; try (intros; split; congruence)
    | unfold direct_source;
      match goal with
      | H : ?t !! _ = Some _ |- ?t !! _ = _ => rewrite H; do 3 f_equal
      end;
      repeat match goal with
      | H : ∀ k, _ → ?t !! k = _ |- ?t !! _ = _ => rewrite H by (intros [=])
      end; reflexivity ].
Qed.

(** With unused identifiers no statement of the commit throws. *)
Lemma commit_succeeds (rq : chat_request) (env : turn_env) (user : option user_row)
    (text : jsstr) (u : usage) (d : db) :
  fresh_ids env d → ∃ done d', commit cfg rq env user text u d = (Some done, d').
Proof.
  intros (Hu & Ha & Hua & Hl).
  assert (Ha' : nanoid_assistant_message env ∉ message_ids d ++ [nanoid_user_message env]).
  { rewrite not_elem_of_app, list_elem_of_singleton. split; [exact Ha|congruence]. }
  commit_prelude rq env user d.
  all: destruct (Js.nonempty (lastContent rq)); unfold attempt.
  all: rewrite ?(insertMessage_fresh (user_message rq env))
         by (unfold message_ids; db_simpl; exact Hu); cbv beta iota.
  all: rewrite (insertMessage_fresh (assistant_message rq env text u))
         by (unfold message_ids; db_simpl; rewrite ?map_app; first [exact Ha | exact Ha']);
       cbv beta iota.
  all: rewrite (addLog_fresh (audit_entry rq env user)) by exact Hl; cbv beta iota.
  all: eauto.
Qed.


(** ** The handler, case by case *)

Lemma on_catch_failure (evs : list event) (d : db) (cs : list backend_call) :
  service_failure {| db_after := d; resp := on_catch evs; calls := cs |} = true
  ∧ completed {| db_after := d; resp := on_catch evs; calls := cs |} = false.
Proof. by destruct evs. Qed.

(** A turn stopped by a guard leaves nothing behind and calls nobody. *)
Lemma handler_guarded (rq : chat_request) (env : turn_env) (d : db) (rej : response) :
  guards cfg rq d = Some rej →
  chat_handler cfg JSON_parse rq env d = {| db_after := d; resp := rej; calls := [] |}.
Proof. intros H. unfold chat_handler. by rewrite H. Qed.

Lemma guards_codes (rq : chat_request) (d : db) (rej : response) :
  guards cfg rq d = Some rej →
  ∃ status code message, rej = Json status code message ∧ code ∈ [2; 3; 6; 7; 8].
Proof.
  unfold guards.
  repeat match goal with
  | |- context [if ?b then _ else _] => destruct b
  | |- context [match ?o with Some _ => _ | None => _ end] => destruct o
  end; intros [= <-]; do 3 eexists; (split; [reflexivity|]);
  rewrite !elem_of_cons; auto 10.
Qed.

Lemma handler_calls (rq : chat_request) (env : turn_env) (d : db) :
  guards cfg rq d = None →
  calls (chat_handler cfg JSON_parse rq env d) = [payload cfg rq env d].
Proof.
  intros H. unfold chat_handler. rewrite H.
  destruct (backend env) as [|[] [stream|] em]; try reflexivity.
  destruct (breaks stream); [reflexivity|].
  by destruct (commit _ _ _ _ _ _ _) as [[done|] d'].
Qed.

(** What a completed turn did. *)
Lemma handler_completed (rq : chat_request) (env : turn_env) (d : db) :
  let r := chat_handler cfg JSON_parse rq env d in
  completed r = true →
  ∃ stream em tr kw,
    guards cfg rq d = None
    ∧ backend env = FetchResolves true (Some stream) em
    ∧ breaks stream = false
    ∧ db_after r =
        accounted rq env (resolve_user rq d) (reported (relay JSON_parse (chunks stream))) d tr kw
          (messages d ++ new_messages rq env (screened d (relay JSON_parse (chunks stream)))
                           (reported (relay JSON_parse (chunks stream))))
          (audit_logs d ++ [audit_entry rq env (resolve_user rq d)])
    ∧ resp r =
        Stream (frames d (relay JSON_parse (chunks stream))
                ++ [done_event cfg (resolve_user rq d)
                      (reported (relay JSON_parse (chunks stream))) (db_after r)]) true
    ∧ ids_unused rq env d
    ∧ tr !! direct_source (today env)
      = Some (Js.or0 (metrics_traffic d !! direct_source (today env)) + 1).
Proof.
  unfold chat_handler, screened, frames.
  destruct (guards cfg rq d) as [rej|] eqn:Hg.
  { destruct (guards_codes _ _ _ Hg) as (s & c & m & -> & _). discriminate. }
  destruct (backend env) as [|[] [stream|] em] eqn:Hb; try discriminate.
  destruct (breaks stream) eqn:Hbr.
  { intros H. by rewrite (proj2 (on_catch_failure _ _ _)) in H. }
  set (st := relay JSON_parse (chunks stream)).
  destruct (commit_shape rq env (resolve_user rq d)
              (if checkSensitive (accumulated st) d then refusal else accumulated st)
              (reported st) d) as (tr & kw & H).
  destruct (commit _ _ _ _ _ _ _) as [[done|] d'].
  - intros _. destruct H as (-> & -> & Hids & Htr).
    exists stream, em, tr, kw. cbn [db_after resp].
    subst st. split_and!; try done.
    by destruct (checkSensitive _ d).
  - intros Hc. by rewrite (proj2 (on_catch_failure _ _ _)) in Hc.
Qed.

(** A turn that neither completed nor ended in the [catch] clause wrote nothing. *)
Lemma handler_refused (rq : chat_request) (env : turn_env) (d : db) :
  let r := chat_handler cfg JSON_parse rq env d in
  completed r = false → service_failure r = false → db_after r = d.
Proof.
  unfold chat_handler.
  destruct (guards cfg rq d) as [rej|]; [reflexivity|].
  destruct (backend env) as [|[] [stream|] em]; try reflexivity.
  destruct (breaks stream); [reflexivity|].
  destruct (commit _ _ _ _ _ _ _) as [[done|] d'].
  - discriminate.
  - intros _ H. by rewrite (proj1 (on_catch_failure _ _ _)) in H.
Qed.

(** Whatever the outcome, the handler's store is the one it started
    from or the one its commit was building. *)
Lemma handler_store (rq : chat_request) (env : turn_env) (d : db) :
  let r := chat_handler cfg JSON_parse rq env d in
  db_after r = d ∨
  (guards cfg rq d = None ∧
   ∃ u tr kw msgs logs, db_after r = accounted rq env (resolve_user rq d) u d tr kw msgs logs).
Proof.
  unfold chat_handler.
  destruct (guards cfg rq d) as [rej|]; [by left|].
  destruct (backend env) as [|[] [stream|] em]; try by left.
  destruct (breaks stream); [by left|].
  right. split; [reflexivity|].
  match goal with |- context [commit cfg rq env ?us ?tx ?u d] =>
    destruct (commit_shape rq env us tx u d) as (tr & kw & H);
    destruct (commit cfg rq env us tx u d) as [[done|] d']; exists u, tr, kw
  end.
  - destruct H as (-> & _). eauto.
  - destruct H as (msgs & logs & ->). eauto.
Qed.

(** ** The route *)

Lemma serve_allowed (t : turn) (d d1 : db) :
  checkIpRules (ip (turn_environment t)) (admission_date (turn_environment t)) d = Allowed d1 →
  serve cfg JSON_parse t d = chat_handler cfg JSON_parse (turn_request t) (turn_environment t) d1.
Proof. intros H. unfold serve. by rewrite H. Qed.

Lemma allowed_users (ipa date : jsstr) (d d1 : db) :
  checkIpRules ipa date d = Allowed d1 →
  users d1 = users d ∧ messages d1 = messages d ∧ conversations d1 = conversations d
  ∧ audit_logs d1 = audit_logs d ∧ metrics_daily d1 = metrics_daily d
  ∧ sensitive_words d1 = sensitive_words d ∧ ip_rules d1 = ip_rules d.
Proof. intros H. destruct (checkIpRules_frame _ _ _ _ H) as [reqs Hd]. by rewrite Hd. Qed.

(** The handler never touches the admission tables. *)
Lemma handler_admission_tables (rq : chat_request) (env : turn_env) (d : db) :
  let r := chat_handler cfg JSON_parse rq env d in
  ip_rules (db_after r) = ip_rules d ∧ ip_requests (db_after r) = ip_requests d.
Proof.
  intros r. destruct (handler_store rq env d) as [H|(_ & u & tr & kw & msgs & logs & H)];
    fold r in H; by rewrite H.
Qed.

Lemma allows_iff (ipa date : jsstr) (d : db) :
  allows ipa date d = true ↔
  blocked ipa d = false ∧
  match configured_limit ipa d with
  | Some limit => counter ipa date d < limit
  | None => True
  end.
Proof.
  unfold allows. rewrite checkIpRules_eq.
  destruct (blocked ipa d); [intuition discriminate|].
  destruct (configured_limit ipa d) as [l|]; [|intuition reflexivity].
  destruct (Z.leb_spec l (counter ipa date d)); split; try done; intros [_ ?]; lia.
Qed.


(** Serving a turn from [ipa] on [date] moves that counter as the limit allows. *)
Lemma serve_counter (ipa date : jsstr) (L : Z) (t : turn) (d : db) :
  blocked ipa d = false → configured_limit ipa d = Some L →
  ip (turn_environment t) = ipa → admission_date (turn_environment t) = date →
  let d' := db_after (serve cfg JSON_parse t d) in
  ip_rules d' = ip_rules d
  ∧ counter ipa date d' = (if L <=? counter ipa date d then counter ipa date d
                            else counter ipa date d + 1).
Proof.
  intros Hb Hl <- <-. unfold serve. rewrite checkIpRules_eq, Hb, Hl.
  destruct (_ <=? _); [done|].
  destruct (handler_admission_tables (turn_request t) (turn_environment t)
    (set_ip_requests (<[(ip (turn_environment t), admission_date (turn_environment t)) :=
       counter (ip (turn_environment t)) (admission_date (turn_environment t)) d + 1]>
       (ip_requests d)) d)) as [Hr Hq].
  split; [exact Hr|]. unfold counter at 1. rewrite Hq. db_simpl.
  by rewrite lookup_insert_eq.
Qed.

Lemma blocked_rules (ipa : jsstr) (d d' : db) :
  ip_rules d' = ip_rules d → blocked ipa d' = blocked ipa d.
Proof. unfold blocked. by intros ->. Qed.

Lemma configured_limit_rules (ipa : jsstr) (d d' : db) :
  ip_rules d' = ip_rules d → configured_limit ipa d' = configured_limit ipa d.
Proof. unfold configured_limit. by intros ->. Qed.

Lemma final_db_cons (t : turn) (ts : list turn) (d : db) :
  final_db cfg JSON_parse d (t :: ts)
  = final_db cfg JSON_parse (db_after (serve cfg JSON_parse t d)) ts.
Proof. reflexivity. Qed.

Lemma final_db_counter (ipa date : jsstr) (L : Z) (ts : list turn) (d : db) :
  blocked ipa d = false → configured_limit ipa d = Some L →
  Forall (λ t, ip (turn_environment t) = ipa ∧ admission_date (turn_environment t) = date) ts →
  0 ≤ counter ipa date d ≤ L →
  ip_rules (final_db cfg JSON_parse d ts) = ip_rules d
  ∧ counter ipa date (final_db cfg JSON_parse d ts)
    = Z.min (counter ipa date d + Z.of_nat (length ts)) L.
Proof.
  intros Hb Hl Hts. revert d Hb Hl.
  induction Hts as [|t ts [Hip Hdate] Hts IH]; intros d Hb Hl Hc.
  - simpl. split; [reflexivity|lia].
  - rewrite final_db_cons.
    destruct (serve_counter ipa date L t d Hb Hl Hip Hdate) as [Hr Hn].
    destruct (IH (db_after (serve cfg JSON_parse t d))) as [Hr' Hn'].
    + by rewrite (blocked_rules _ _ _ Hr).
    + by rewrite (configured_limit_rules _ _ _ Hr).
    + rewrite Hn. destruct (Z.leb_spec L (counter ipa date d)); lia.
    + split; [congruence|]. rewrite Hn', Hn. cbn [length].
      destruct (Z.leb_spec L (counter ipa date d)); lia.
Qed.

(** C6: with a daily limit [L] in force for an address, counting from a
    fresh counter on one date, the first [L] requests are let in and
    every later one, the [(L+1)]-th first, is refused with the
    rate-limit answer and changes nothing; refusal happens exactly when
    the counter has reached [L]; and a request on a date without a
    counter row is let in. *)
Theorem daily_limit (ipa date : jsstr) (L : Z) (d : db) (ts : list turn) :
  0 < L →
  blocked ipa d = false →
  configured_limit ipa d = Some L →
  counter ipa date d = 0 →
  Forall (λ t, ip (turn_environment t) = ipa ∧ admission_date (turn_environment t) = date) ts →
  (∀ i t, ts !! i = Some t →
     let di := final_db cfg JSON_parse d (take i ts) in
     counter ipa date di = Z.min (Z.of_nat i) L
     ∧ (Z.of_nat i < L → allows ipa date di = true)
     ∧ (L ≤ Z.of_nat i →
        serve cfg JSON_parse t di =
          {| db_after := di; resp := Json 429 10 msg_rate_limited; calls := [] |}))
  ∧ (∀ d' day, ip_rules d' = ip_rules d →
       (checkIpRules ipa day d' = Refused (Json 429 10 msg_rate_limited)
        ↔ L ≤ counter ipa day d'))
  ∧ (∀ d' day, ip_rules d' = ip_rules d → ip_requests d' !! (ipa, day) = None →
       allows ipa day d' = true).
Proof.
  intros HL Hb Hl Hc Hts. split; [|split].
  - intros i t Hi di.
    assert (Hlen : (i < length ts)%nat) by (eapply lookup_lt_Some; eauto).
    destruct (final_db_counter ipa date L (take i ts) d Hb Hl) as [Hr Hn].
    { by apply Forall_take. }
    { lia. }
    fold di in Hr, Hn. rewrite Hc, length_take in Hn.
    assert (Hcount : counter ipa date di = Z.min (Z.of_nat i) L) by lia.
    assert (Hbi := blocked_rules ipa _ _ Hr). assert (Hli := configured_limit_rules ipa _ _ Hr).
    rewrite Hb in Hbi. rewrite Hl in Hli.
    split; [exact Hcount|]. split.
    + intros Hlt. apply allows_iff. rewrite Hbi, Hli. split; [reflexivity|lia].
    + intros Hge. rewrite Forall_forall in Hts.
      destruct (Hts t) as [Hip Hdate]; [eapply list_elem_of_lookup_2; eauto|].
      unfold serve. rewrite Hip, Hdate, checkIpRules_eq, Hbi, Hli.
      by rewrite (proj2 (Z.leb_le _ _)) by lia.
  - intros d' day Hr. rewrite checkIpRules_eq.
    rewrite (blocked_rules _ _ _ Hr), (configured_limit_rules _ _ _ Hr), Hb, Hl.
    destruct (Z.leb_spec L (counter ipa day d')); split; try done; lia.
  - intros d' day Hr Hnone. apply allows_iff.
    rewrite (blocked_rules _ _ _ Hr), (configured_limit_rules _ _ _ Hr), Hb, Hl.
    split; [reflexivity|]. unfold counter. rewrite Hnone. simpl. lia.
Qed.

(** ** Errors and rejections *)

Lemma serve_upstream_error (t : turn) (d d1 : db)
    (ok : bool) (body : option body_stream) (em : option jsstr) :
  checkIpRules (ip (turn_environment t)) (admission_date (turn_environment t)) d = Allowed d1 →
  guards cfg (turn_request t) d1 = None →
  backend (turn_environment t) = FetchResolves ok body em →
  ok = false ∨ body = None →
  serve cfg JSON_parse t d =
    {| db_after := d1; resp := Json 500 4 (Js.or_else em msg_upstream);
       calls := [payload cfg (turn_request t) (turn_environment t) d1] |}.
Proof.
  intros Hadm Hg Hb Herr.
  rewrite (serve_allowed _ _ _ Hadm). unfold chat_handler. rewrite Hg, Hb.
  destruct Herr as [-> | ->]; [reflexivity|]. by destruct ok.
Qed.

(** C2: when the backend answers with a non-success status or without
    a body, the turn ends in the one upstream-error answer and the store
    is left exactly as the admission step left it: no message row, no
    conversation row, no quota decrement, and the admission counter
    keeps its increment. *)
Theorem upstream_error_commits_nothing (t : turn) (d d1 : db)
    (ok : bool) (body : option body_stream) (em : option jsstr) :
  checkIpRules (ip (turn_environment t)) (admission_date (turn_environment t)) d = Allowed d1 →
  guards cfg (turn_request t) d1 = None →
  backend (turn_environment t) = FetchResolves ok body em →
  ok = false ∨ body = None →
  let r := serve cfg JSON_parse t d in
  resp r = Json 500 4 (Js.or_else em msg_upstream)
  ∧ calls r = [payload cfg (turn_request t) (turn_environment t) d1]
  ∧ db_after r = d1
  ∧ messages (db_after r) = messages d
  ∧ conversations (db_after r) = conversations d
  ∧ users (db_after r) = users d
  ∧ ip_requests (db_after r) = ip_requests d1.
Proof.
  intros Hadm Hg Hb Herr r. unfold r.
  rewrite (serve_upstream_error t d d1 ok body em Hadm Hg Hb Herr). cbn [resp calls db_after].
  destruct (allowed_users _ _ _ _ Hadm) as (Hu & Hm & Hcv & _).
  by rewrite Hu, Hm, Hcv.
Qed.

(** C3: a turn whose latest user message contains an entry of the
    moderation word list (a list without empty words, as its writers
    keep it), from a caller whose trust tag is not the trusted marker (a
    guest has none), is rejected before any backend call, and persists
    no message and decrements no quota. *)
Theorem flagged_input_rejected (t : turn) (d : db) :
  no_empty_word d →
  flagged_by (sensitive_words d) (lastContent (turn_request t)) →
  userTag (resolve_user (turn_request t) d) ≠ lit "trusted" →
  let r := serve cfg JSON_parse t d in
  calls r = []
  ∧ messages (db_after r) = messages d
  ∧ users (db_after r) = users d
  ∧ conversations (db_after r) = conversations d
  ∧ (resp r = Json 400 2 msg_sensitive
     ∨ allows (ip (turn_environment t)) (admission_date (turn_environment t)) d = false
       ∧ db_after r = d
       ∧ (resp r = Json 403 9 msg_blocked ∨ resp r = Json 429 10 msg_rate_limited)).
Proof.
  intros Hwords Hflag Htag r. unfold r, serve, allows. rewrite checkIpRules_eq.
  destruct (blocked _ d) eqn:Hb; [by auto 10|].
  assert (Hres : ∀ d1, (∃ reqs, d1 = set_ip_requests reqs d) →
    chat_handler cfg JSON_parse (turn_request t) (turn_environment t) d1
    = {| db_after := d1; resp := Json 400 2 msg_sensitive; calls := [] |}).
  { intros d1 [reqs ->]. apply handler_guarded. unfold guards.
    apply (checkSensitive_spec _ _ Hwords) in Hflag.
    assert (Hs : checkSensitive (lastContent (turn_request t)) (set_ip_requests reqs d) = true)
      by exact Hflag.
    rewrite Hs.
    assert (Hu : resolve_user (turn_request t) (set_ip_requests reqs d)
                 = resolve_user (turn_request t) d) by reflexivity.
    rewrite Hu. by rewrite bool_decide_eq_false_2. }
  destruct (configured_limit _ d) as [l|].
  - destruct (l <=? _); [by auto 10|].
    rewrite Hres by eauto. cbn [calls db_after resp]. by auto 10.
  - rewrite (Hres d) by (exists (ip_requests d); by destruct d).
    cbn [calls db_after resp]. by auto 10.
Qed.

(** ** Tiers, budgets and models *)

Lemma guards_allowed (rq : chat_request) (reqs : gmap (jsstr * jsstr) Z) (d : db) :
  guards cfg rq (set_ip_requests reqs d) = guards cfg rq d.
Proof. reflexivity. Qed.

Lemma serve_cases (t : turn) (d : db) :
  let r := serve cfg JSON_parse t d in
  (allows (ip (turn_environment t)) (admission_date (turn_environment t)) d = false
   ∧ db_after r = d ∧ calls r = []
   ∧ (resp r = Json 403 9 msg_blocked ∨ resp r = Json 429 10 msg_rate_limited))
  ∨ (allows (ip (turn_environment t)) (admission_date (turn_environment t)) d = true
     ∧ ∃ reqs, r = chat_handler cfg JSON_parse (turn_request t) (turn_environment t)
                     (set_ip_requests reqs d)).
Proof.
  unfold serve, allows.
  destruct (checkIpRules _ _ d) as [d1|rej] eqn:Hc.
  - right. split; [reflexivity|]. destruct (checkIpRules_frame _ _ _ _ Hc) as [reqs ->]. eauto.
  - left. rewrite checkIpRules_eq in Hc. destruct (blocked _ d).
    + injection Hc as <-. auto.
    + destruct (configured_limit _ d); [|discriminate].
      destruct (_ <=? _); [|discriminate]. injection Hc as <-. auto.
Qed.

Lemma charge_quota_unlisted (rq : chat_request) (user : option user_row) (d : db) :
  model rq ≠ Some (lit "enhanced") → model rq ≠ Some (lit "pro") →
  charge_quota rq user d = d.
Proof.
  intros He Hp. unfold charge_quota, Js.eqs. destruct user; [|reflexivity].
  by rewrite (bool_decide_eq_false_2 _ He), (bool_decide_eq_false_2 _ Hp).
Qed.

(** C10: for a requested model that is neither [enhanced] nor [pro] (any
    other string, or none), no guard looks at a quota, no outcome
    decrements one even for a logged-in caller, and when no mapping row
    exists for the value the backend is called with the configured
    normal-tier model. *)
Theorem unlisted_tier_skips_quota (t : turn) (d : db) :
  let rq := turn_request t in
  model rq ≠ Some (lit "enhanced") → model rq ≠ Some (lit "pro") →
  let r := serve cfg JSON_parse t d in
  guards cfg rq d =
    (if checkSensitive (lastContent rq) d
        && negb (bool_decide (userTag (resolve_user rq d) = lit "trusted"))
     then Some (Json 400 2 msg_sensitive)
     else if negb (Js.nonempty (apiKey cfg)) then Some (Json 500 3 msg_no_api_key)
     else None)
  ∧ (∀ status code message, resp r = Json status code message → code ∉ [6; 7; 8])
  ∧ users (db_after r) = users d
  ∧ ((∀ row, row ∈ models d → model_tier row ≠ Js.or_else (model rq) (lit "normal")) →
     Forall (λ c, call_model c = modelMap_normal cfg) (calls r)
     ∧ (allows (ip (turn_environment t)) (admission_date (turn_environment t)) d = true →
        guards cfg rq d = None → length (calls r) = 1%nat)).
Proof.
  intros rq He Hp r. subst rq r.
  assert (Hg : ∀ d0, guards cfg (turn_request t) d0 =
    (if checkSensitive (lastContent (turn_request t)) d0
        && negb (bool_decide (userTag (resolve_user (turn_request t) d0) = lit "trusted"))
     then Some (Json 400 2 msg_sensitive)
     else if negb (Js.nonempty (apiKey cfg)) then Some (Json 500 3 msg_no_api_key)
     else None)).
  { intros d0. unfold guards, Js.eqs.
    rewrite (bool_decide_eq_false_2 _ He), (bool_decide_eq_false_2 _ Hp).
    cbn [orb andb]. by destruct (resolve_user (turn_request t) d0). }
  split; [apply Hg|].
  destruct (serve_cases t d) as [(Hna & Hd & Hc & Hresp)|(Hadm & reqs & Hr)].
  { split; [|split; [by rewrite Hd|]].
    - intros s c m Hj. rewrite !not_elem_of_cons.
      destruct Hresp as [H|H]; rewrite H in Hj; injection Hj as <- <- <-;
        split_and!; try done; apply not_elem_of_nil.
    - intros _. rewrite Hc. split; [constructor|]. intros Ha. congruence. }
  set (d1 := set_ip_requests reqs d) in *. split; [|split].
  - intros s c m Hj. destruct (guards cfg (turn_request t) d1) as [rej|] eqn:Hg1.
    + rewrite Hr, (handler_guarded _ _ _ _ Hg1) in Hj. cbn [resp] in Hj. subst rej.
      rewrite Hg in Hg1. rewrite !not_elem_of_cons.
      destruct (_ && _); [injection Hg1 as <- <- <-|];
        [split_and!; try done; apply not_elem_of_nil|].
      destruct (negb _); [injection Hg1 as <- <- <-|discriminate].
      split_and!; try done; apply not_elem_of_nil.
    + rewrite Hr in Hj. unfold chat_handler in Hj. rewrite Hg1 in Hj.
      rewrite !not_elem_of_cons.
      destruct (backend _) as [|[] [stream|] em]; cbn [resp on_catch] in Hj;
        try (injection Hj as <- <- <-; split_and!; try done; apply not_elem_of_nil).
      destruct (breaks stream).
      * destruct (written _); cbn [resp on_catch] in Hj; [|discriminate].
        injection Hj as <- <- <-; split_and!; try done; apply not_elem_of_nil.
      * destruct (commit _ _ _ _ _ _ _) as [[done|] d']; cbn [resp] in Hj; [discriminate|].
        destruct (if checkSensitive _ _ then _ else _); cbn [on_catch] in Hj; [|discriminate].
        injection Hj as <- <- <-; split_and!; try done; apply not_elem_of_nil.
  - rewrite Hr.
    destruct (handler_store (turn_request t) (turn_environment t) d1)
      as [H|(_ & u & tr & kw & msgs & logs & H)]; rewrite H; [reflexivity|].
    cbn [accounted users]. by rewrite charge_quota_unlisted.
  - intros Hrows.
    assert (Hsel : selectedModel (turn_request t) d1 = None).
    { unfold selectedModel. cbn [d1 set_ip_requests models].
      destruct (find _ (models d)) as [row|] eqn:Hf; [|reflexivity].
      apply find_some in Hf as [Hin Heq]. apply bool_decide_eq_true_1 in Heq.
      exfalso. apply (Hrows row); [by apply list_elem_of_In|exact Heq]. }
    rewrite Hr. destruct (guards cfg (turn_request t) d1) as [rej|] eqn:Hg1.
    + rewrite (handler_guarded _ _ _ _ Hg1). cbn [calls]. split; [constructor|].
      intros _ Hg0. unfold d1 in Hg1. rewrite guards_allowed in Hg1. congruence.
    + rewrite (handler_calls _ _ _ Hg1). split; [|reflexivity].
      constructor; [|constructor]. unfold payload. cbn [call_model].
      by rewrite Hsel.
Qed.

Lemma cut_prompt_take (s : jsstr) (limit : Z) :
  0 ≤ limit → cut_prompt s limit = take (Z.to_nat limit) s.
Proof.
  intros H. unfold cut_prompt, Js.slice0.
  destruct (Z.ltb_spec limit (Z.of_nat (length s))).
  - by rewrite (proj2 (Z.leb_le _ _)).
  - rewrite take_ge; [reflexivity|lia].
Qed.

Lemma serve_prompt_limits (t : turn) (d : db) :
  prompt_limits (db_after (serve cfg JSON_parse t d)) = prompt_limits d.
Proof.
  destruct (serve_cases t d) as [(_ & -> & _)|(_ & reqs & ->)]; [reflexivity|].
  destruct (handler_store (turn_request t) (turn_environment t) (set_ip_requests reqs d))
    as [->|(_ & u & tr & kw & msgs & logs & ->)]; reflexivity.
Qed.

Lemma final_db_prompt_limits (ts : list turn) (d : db) :
  prompt_limits (final_db cfg JSON_parse d ts) = prompt_limits d.
Proof.
  revert d. induction ts as [|t ts IH]; intros d; [reflexivity|].
  by rewrite final_db_cons, IH, serve_prompt_limits.
Qed.

Lemma getPromptLimit_rows (tier : jsstr) (d d' : db) :
  prompt_limits d' = prompt_limits d → getPromptLimit tier d' = getPromptLimit tier d.
Proof. intros H. unfold getPromptLimit. by rewrite H. Qed.

Lemma seeded_limits (env_normal env_enhanced env_pro : option Z) (d0 : db) :
  prompt_limits d0 = ∅ →
  let seeded := initDb_prompt_limits env_normal env_enhanced env_pro d0 in
  prompt_limits seeded !! lit "normal" = Some (default 1200 env_normal)
  ∧ prompt_limits seeded !! lit "enhanced" = Some (default 1600 env_enhanced)
  ∧ prompt_limits seeded !! lit "pro" = Some (default 2000 env_pro).
Proof.
  intros Hempty seeded. unfold seeded, initDb_prompt_limits.
  rewrite Hempty, map_size_empty. rewrite bool_decide_eq_true_2 by reflexivity.
  cbn [set_prompt_limits prompt_limits]. split_and!.
  - rewrite lookup_insert_ne by discriminate. rewrite lookup_insert_ne by discriminate.
    by rewrite lookup_insert_eq.
  - rewrite lookup_insert_ne by discriminate. by rewrite lookup_insert_eq.
  - by rewrite lookup_insert_eq.
Qed.

(** C7: the system message sent to the backend is the assembled prompt
    cut to its first [budget] code units, [budget] being the budget
    stored for the requested tier.  On the store that [initDb] seeds,
    and after any chat requests served on it, the three tiers have their
    budgets: where the environment configures none they are 1200 for
    normal, 1600 for enhanced and 2000 for pro, and the prompt of a
    request of such a tier is cut there; a budget that the environment
    configures is the one in force. *)
Theorem prompt_budget (rq : chat_request) (env : turn_env) (d : db) :
  let tier := Js.or_else (model rq) (lit "normal") in
  let budget := getPromptLimit tier d in
  (budget = match prompt_limits d !! tier with
            | Some max_chars => if bool_decide (max_chars = 0) then 1200 else max_chars
            | None => 1200
            end)
  ∧ (0 ≤ budget →
     hd_error (call_input (payload cfg rq env d))
     = Some {| role := lit "system";
               content := take (Z.to_nat budget) (assemble_prompt rq env d) |})
  ∧ (∀ d0 history, prompt_limits d0 = ∅ →
       let seeded :=
         final_db cfg JSON_parse (initDb_prompt_limits None None None d0) history in
       getPromptLimit (lit "normal") seeded = 1200
       ∧ getPromptLimit (lit "enhanced") seeded = 1600
       ∧ getPromptLimit (lit "pro") seeded = 2000
       ∧ ∀ rq' env' default_budget,
           (Js.or_else (model rq') (lit "normal"), default_budget)
             ∈ [(lit "normal", 1200); (lit "enhanced", 1600); (lit "pro", 2000)] →
           hd_error (call_input (payload cfg rq' env' seeded))
           = Some {| role := lit "system";
                     content := take (Z.to_nat default_budget)
                                  (assemble_prompt rq' env' seeded) |})
  ∧ (∀ d0 history n e p, prompt_limits d0 = ∅ → n ≠ 0 → e ≠ 0 → p ≠ 0 →
       let seeded :=
         final_db cfg JSON_parse (initDb_prompt_limits (Some n) (Some e) (Some p) d0) history in
       getPromptLimit (lit "normal") seeded = n
       ∧ getPromptLimit (lit "enhanced") seeded = e
       ∧ getPromptLimit (lit "pro") seeded = p).
Proof.
  intros tier budget.
  assert (Hcut : ∀ rq' env' d' b,
            getPromptLimit (Js.or_else (model rq') (lit "normal")) d' = b → 0 ≤ b →
            hd_error (call_input (payload cfg rq' env' d'))
            = Some {| role := lit "system";
                      content := take (Z.to_nat b) (assemble_prompt rq' env' d') |}).
  { intros rq' env' d' b Hb Hpos. unfold payload. cbn [call_input hd_error].
    unfold systemPrompt. rewrite Hb. by rewrite cut_prompt_take. }
  assert (Hseed : ∀ d0 history n e p, prompt_limits d0 = ∅ → n ≠ 0 → e ≠ 0 → p ≠ 0 →
            let seeded :=
              final_db cfg JSON_parse (initDb_prompt_limits (Some n) (Some e) (Some p) d0)
                history in
            getPromptLimit (lit "normal") seeded = n
            ∧ getPromptLimit (lit "enhanced") seeded = e
            ∧ getPromptLimit (lit "pro") seeded = p).
  { intros d0 history n e p Hempty Hn He Hp seeded.
    destruct (seeded_limits (Some n) (Some e) (Some p) d0 Hempty) as (H1 & H2 & H3).
    unfold seeded.
    rewrite !(getPromptLimit_rows _ _ _ (final_db_prompt_limits history _)).
    unfold getPromptLimit. cbn [Js.or_else lit]. cbn [lit] in H1, H2, H3.
    rewrite H1, H2, H3. cbn [default].
    by rewrite !bool_decide_eq_false_2. }
  split; [|split; [|split]].
  - unfold budget, getPromptLimit.
    replace (Js.or_else (Some tier) (lit "normal")) with tier; [reflexivity|].
    unfold tier. destruct (model rq) as [[|c m]|]; reflexivity.
  - intros Hb. by apply Hcut.
  - intros d0 history Hempty seeded.
    destruct (Hseed d0 history 1200 1600 2000 Hempty) as (H1 & H2 & H3); try discriminate.
    change (getPromptLimit (lit "normal") seeded = 1200) in H1.
    change (getPromptLimit (lit "enhanced") seeded = 1600) in H2.
    change (getPromptLimit (lit "pro") seeded = 2000) in H3.
    split; [exact H1|]. split; [exact H2|]. split; [exact H3|].
    intros rq' env' b Hin.
    assert (Hb : getPromptLimit (Js.or_else (model rq') (lit "normal")) seeded = b ∧ 0 ≤ b).
    { apply elem_of_cons in Hin as [Hin|Hin].
      - pose proof (f_equal fst Hin) as Ht. pose proof (f_equal snd Hin) as Hb.
        cbn [fst snd] in Ht, Hb. rewrite Ht, Hb. split; [exact H1|lia].
      - apply elem_of_cons in Hin as [Hin|Hin].
        + pose proof (f_equal fst Hin) as Ht. pose proof (f_equal snd Hin) as Hb.
          cbn [fst snd] in Ht, Hb. rewrite Ht, Hb. split; [exact H2|lia].
        + apply list_elem_of_singleton in Hin.
          pose proof (f_equal fst Hin) as Ht. pose proof (f_equal snd Hin) as Hb.
          cbn [fst snd] in Ht, Hb. rewrite Ht, Hb. split; [exact H3|lia]. }
    destruct Hb as [Hb Hpos]. by apply Hcut.
  - exact Hseed.
Qed.

(** ** Completed turns *)

Lemma accounted_allowed (rq : chat_request) (env : turn_env) (user : option user_row)
    (u : usage) (reqs : gmap (jsstr * jsstr) Z) (d : db) tr kw msgs logs :
  accounted rq env user u (set_ip_requests reqs d) tr kw msgs logs
  = set_ip_requests reqs (accounted rq env user u d tr kw msgs logs).
Proof.
  unfold accounted. cbn [set_ip_requests users conversations messages personas audit_logs
    metrics_daily metrics_traffic keywords_daily sensitive_words models prompt_limits
    ip_rules ip_requests].
  rewrite (charge_quota_users rq user (set_ip_requests reqs d) d) by reflexivity.
  reflexivity.
Qed.

(** What a completed turn did, seen from the route. *)
Lemma serve_completed (t : turn) (d : db) :
  let rq := turn_request t in
  let env := turn_environment t in
  let r := serve cfg JSON_parse t d in
  completed r = true →
  ∃ reqs stream em tr kw,
    allows (ip env) (admission_date env) d = true
    ∧ guards cfg rq d = None
    ∧ backend env = FetchResolves true (Some stream) em
    ∧ breaks stream = false
    ∧ db_after r =
        set_ip_requests reqs
          (accounted rq env (resolve_user rq d) (reported (relay JSON_parse (chunks stream)))
             d tr kw
             (messages d ++ new_messages rq env (screened d (relay JSON_parse (chunks stream)))
                              (reported (relay JSON_parse (chunks stream))))
             (audit_logs d ++ [audit_entry rq env (resolve_user rq d)]))
    ∧ resp r =
        Stream (frames d (relay JSON_parse (chunks stream))
                ++ [done_event cfg (resolve_user rq d)
                      (reported (relay JSON_parse (chunks stream))) (db_after r)]) true
    ∧ calls r = [payload cfg rq env d]
    ∧ ids_unused rq env d
    ∧ tr !! direct_source (today env)
      = Some (Js.or0 (metrics_traffic d !! direct_source (today env)) + 1).
Proof.
  intros rq env r Hc. subst rq env r.
  destruct (serve_cases t d) as [(_ & _ & _ & [H|H])|(Hadm & reqs & Hr)];
    try (unfold completed in Hc; rewrite H in Hc; discriminate).
  rewrite Hr in Hc |- *.
  destruct (handler_completed _ _ _ Hc) as (stream & em & tr & kw & Hg & Hb & Hbr & Hd & Hresp
    & Hids & Htr).
  exists reqs, stream, em, tr, kw.
  split; [exact Hadm|]. split; [exact Hg|]. split; [exact Hb|]. split; [exact Hbr|].
  split; [exact (eq_trans Hd (accounted_allowed _ _ _ _ _ _ _ _ _ _))|].
  split; [exact Hresp|]. split; [exact (handler_calls _ _ _ Hg)|].
  split; [exact Hids|exact Htr].
Qed.

(** A turn that passes the guards, whose stream ends without error and
    whose identifiers are unused, completes. *)
Lemma serve_completes (t : turn) (d : db) (stream : body_stream) (em : option jsstr) :
  let rq := turn_request t in
  let env := turn_environment t in
  allows (ip env) (admission_date env) d = true →
  guards cfg rq d = None →
  backend env = FetchResolves true (Some stream) em →
  breaks stream = false →
  fresh_ids env d →
  completed (serve cfg JSON_parse t d) = true.
Proof.
  intros rq env Hadm Hg Hb Hbr Hids. subst rq env.
  destruct (serve_cases t d) as [(Hna & _)|(_ & reqs & Hr)]; [congruence|].
  rewrite Hr. unfold chat_handler. rewrite guards_allowed, Hg, Hb, Hbr.
  match goal with |- context [commit cfg ?rq ?env ?us ?tx ?u ?d1] =>
    destruct (commit_succeeds rq env us tx u d1 Hids) as (done & d' & ->)
  end.
  reflexivity.
Qed.

(** The row of the identity behind the request, after its own decrement. *)
Lemma charge_quota_own (rq : chat_request) (p : premium) (u : user_row) (d d' : db) :
  model rq = Some (tier_name p) →
  resolve_user rq d = Some u →
  users d' = users (charge_quota rq (Some u) d) →
  ∃ u', resolve_user rq d' = Some u' ∧ quota p u' = quota p u - 1.
Proof.
  intros Hm Hu Hd'. unfold resolve_user in *. destruct (Js.truthy _); [|discriminate].
  unfold find_user_by_token in *. rewrite Hd'. clear Hd'.
  set (tok := Js.or_else (userToken rq) []) in *.
  unfold charge_quota, update_quota_enhanced, update_quota_pro, Js.eqs. rewrite Hm.
  assert (Hfind : ∀ (f : user_row → user_row) l,
    (∀ x, token (f x) = token x) →
    find (λ x, bool_decide (token x = tok)) (map f l)
    = f <$> find (λ x, bool_decide (token x = tok)) l).
  { intros f l Hf. induction l as [|x l IH]; [reflexivity|]. cbn [map find].
    rewrite Hf. destruct (bool_decide (token x = tok)); [reflexivity|exact IH]. }
  destruct p; cbn [tier_name quota].
  - rewrite (bool_decide_eq_true_2 (Some (lit "enhanced") = Some (lit "enhanced")) eq_refl).
    rewrite (bool_decide_eq_false_2 (Some (lit "enhanced") = Some (lit "pro"))) by discriminate.
    db_simpl. rewrite Hfind by (intros x; by destruct (bool_decide _)).
    rewrite Hu. cbn [fmap option_fmap option_map].
    rewrite bool_decide_eq_true_2 by reflexivity. eexists. split; reflexivity.
  - rewrite (bool_decide_eq_false_2 (Some (lit "pro") = Some (lit "enhanced"))) by discriminate.
    rewrite (bool_decide_eq_true_2 (Some (lit "pro") = Some (lit "pro")) eq_refl).
    db_simpl. rewrite Hfind by (intros x; by destruct (bool_decide _)).
    rewrite Hu. cbn [fmap option_fmap option_map].
    rewrite bool_decide_eq_true_2 by reflexivity. eexists. split; reflexivity.
Qed.

(** C4: when the accumulated assistant output contains a word of the
    moderation list (a list without empty words, as its writers keep
    it), the turn still completes: a content-replacement frame with the
    fixed refusal follows the streamed frames, the persisted assistant
    message holds the refusal, and the commit is that of any completed
    turn: the day's metrics row counts one request more, with the mean
    latency and the token total brought up to date, the direct-source
    count rises by one, the quota of the tier used drops by one, and the
    message rows and the audit row are written. *)
Theorem flagged_output_replaced (t : turn) (d : db) (stream : body_stream)
    (em : option jsstr) :
  let rq := turn_request t in
  let env := turn_environment t in
  let st := relay JSON_parse (chunks stream) in
  allows (ip env) (admission_date env) d = true →
  guards cfg rq d = None →
  backend env = FetchResolves true (Some stream) em →
  breaks stream = false →
  fresh_ids env d →
  no_empty_word d →
  flagged_by (sensitive_words d) (accumulated st) →
  let r := serve cfg JSON_parse t d in
  ∃ done asst,
    resp r = Stream (written st ++ [EvReplace refusal; done]) true
    ∧ messages (db_after r)
      = messages d ++ (if Js.nonempty (lastContent rq) then [user_message rq env] else [])
                   ++ [asst]
    ∧ msg_role asst = lit "assistant" ∧ msg_content asst = refusal
    ∧ conversation_id asst = convId rq env
    ∧ is_Some (conversations (db_after r) !! convId rq env)
    ∧ metrics_daily (db_after r) !! today env
      = Some {| total_requests := total_requests (existingDaily (today env) d) + 1;
                avg_latency :=
                  Js.round_div
                    (avg_latency (existingDaily (today env) d)
                     * total_requests (existingDaily (today env) d) + latency_ms env)
                    (total_requests (existingDaily (today env) d) + 1);
                token_total :=
                  token_total (existingDaily (today env) d)
                  + Js.or0 (total_tokens (reported st));
                concurrent_peak := Z.max (concurrent_peak (existingDaily (today env) d)) 1 |}
    ∧ metrics_traffic (db_after r) !! direct_source (today env)
      = Some (Js.or0 (metrics_traffic d !! direct_source (today env)) + 1)
    ∧ audit_logs (db_after r)
      = audit_logs d ++
        [ {| log_id := nanoid_log env; log_user_id := userId (resolve_user rq d);
             log_ip := ip env; log_ua := default [] (ua (client rq));
             log_action := lit "chat"; log_content := take 120 (lastContent rq);
             log_latency_ms := latency_ms env; log_created_at := now_log env |} ]
    ∧ (∀ p u, model rq = Some (tier_name p) → resolve_user rq d = Some u →
         ∃ u', resolve_user rq (db_after r) = Some u' ∧ quota p u' = quota p u - 1).
Proof.
  intros rq env st Hadm Hg Hb Hbr Hids Hwords Hflag r.
  assert (Hc : completed r = true) by (eapply serve_completes; eauto).
  destruct (serve_completed t d Hc)
    as (reqs & stream' & em' & tr & kw & _ & _ & Hb' & _ & Hd & Hresp & _ & _ & Htr).
  fold rq env r in Hb', Hd, Hresp. rewrite Hb in Hb'. injection Hb' as <- <-. fold st in Hd, Hresp.
  apply (checkSensitive_spec _ _ Hwords) in Hflag.
  unfold screened in Hd. unfold frames in Hresp. rewrite Hflag in Hd, Hresp.
  eexists _, (assistant_message rq env refusal (reported st)). split_and!.
  - rewrite Hresp, <- app_assoc. reflexivity.
  - rewrite Hd. reflexivity.
  - reflexivity.
  - reflexivity.
  - reflexivity.
  - rewrite Hd. cbn [set_ip_requests accounted conversations].
    destruct (conversations d !! convId rq env) as [c|] eqn:Hcv.
    + rewrite Hcv. eauto.
    + rewrite lookup_insert_eq. eauto.
  - rewrite Hd. cbn [set_ip_requests accounted metrics_daily]. by rewrite lookup_insert_eq.
  - rewrite Hd. cbn [set_ip_requests accounted metrics_traffic]. exact Htr.
  - rewrite Hd. cbn [set_ip_requests accounted audit_logs]. unfold audit_entry.
    by rewrite (slice0_take _ 120).
  - intros p u Hm Hu. apply (charge_quota_own rq p u d); [exact Hm|exact Hu|].
    rewrite Hd, Hu. reflexivity.
Qed.

(** C8, as the code has it: a turn that runs to its terminal frame,
    with or without a replaced output, updates the day's metrics row
    and the direct-source traffic count and appends exactly one audit
    row whose content is the first 120 code units of the latest user
    message; a turn that ends in the upstream-error answer updates no
    metric and appends no audit row. *)
Theorem completed_turn_accounting (t : turn) (d : db) :
  let rq := turn_request t in
  let env := turn_environment t in
  let r := serve cfg JSON_parse t d in
  (completed r = true →
   ∃ evs prompt completion total left_enhanced left_pro entry,
     resp r = Stream (evs ++ [EvDone prompt completion total left_enhanced left_pro]) true
     ∧ metrics_daily (db_after r) !! today env =
         Some {| total_requests := total_requests (existingDaily (today env) d) + 1;
                 avg_latency :=
                   Js.round_div
                     (avg_latency (existingDaily (today env) d)
                      * total_requests (existingDaily (today env) d) + latency_ms env)
                     (total_requests (existingDaily (today env) d) + 1);
                 token_total := token_total (existingDaily (today env) d) + total;
                 concurrent_peak := Z.max (concurrent_peak (existingDaily (today env) d)) 1 |}
     ∧ metrics_traffic (db_after r) !! direct_source (today env)
       = Some (Js.or0 (metrics_traffic d !! direct_source (today env)) + 1)
     ∧ audit_logs (db_after r) = audit_logs d ++ [entry]
     ∧ log_action entry = lit "chat"
     ∧ log_content entry = take 120 (lastContent rq))
  ∧ (∀ d1 ok body em,
       checkIpRules (ip env) (admission_date env) d = Allowed d1 →
       guards cfg rq d1 = None →
       backend env = FetchResolves ok body em →
       ok = false ∨ body = None →
       resp r = Json 500 4 (Js.or_else em msg_upstream)
       ∧ metrics_daily (db_after r) = metrics_daily d
       ∧ metrics_traffic (db_after r) = metrics_traffic d
       ∧ keywords_daily (db_after r) = keywords_daily d
       ∧ audit_logs (db_after r) = audit_logs d).
Proof.
  intros rq env r. split.
  - intros Hc.
    destruct (serve_completed t d Hc)
      as (reqs & stream & em & tr & kw & _ & _ & _ & _ & Hd & Hresp & _ & _ & Htr).
    fold rq env r in Hd, Hresp, Htr.
    set (st := relay JSON_parse (chunks stream)) in *.
    unfold done_event in Hresp.
    do 6 eexists. exists (audit_entry rq env (resolve_user rq d)). split_and!.
    + exact Hresp.
    + rewrite Hd. cbn [set_ip_requests accounted metrics_daily].
      by rewrite lookup_insert_eq.
    + rewrite Hd. exact Htr.
    + rewrite Hd. reflexivity.
    + reflexivity.
    + cbn [audit_entry log_content]. apply (slice0_take _ 120).
  - intros d1 ok body em Hadm Hg Hb Herr. unfold r.
    rewrite (serve_upstream_error t d d1 ok body em Hadm Hg Hb Herr). cbn [resp db_after].
    destruct (checkIpRules_frame _ _ _ _ Hadm) as [reqs ->]. by split_and!.
Qed.

(** ** Reading a conversation back *)

Lemma insert_first (x : message_row) (l : list message_row) :
  Forall (earlier x) l → insert_by_created_at x l = x :: l.
Proof.
  intros H. destruct H as [|y l Hy _]; [reflexivity|]. simpl.
  by rewrite (proj2 (Z.leb_le _ _) Hy).
Qed.

Lemma insert_elem (x y : message_row) (l : list message_row) :
  y ∈ insert_by_created_at x l ↔ y = x ∨ y ∈ l.
Proof.
  induction l as [|z l IH]; simpl.
  - rewrite list_elem_of_singleton, elem_of_nil. tauto.
  - destruct (_ <=? _).
    + rewrite !elem_of_cons. tauto.
    + rewrite !elem_of_cons, IH. tauto.
Qed.

Lemma insert_sorted (x : message_row) (l : list message_row) :
  StronglySorted earlier l → StronglySorted earlier (insert_by_created_at x l).
Proof.
  induction 1 as [|y l Hs IH Hy]; simpl.
  - repeat constructor.
  - destruct (Z.leb_spec (msg_created_at x) (msg_created_at y)).
    + constructor; [by constructor|]. constructor; [assumption|].
      eapply Forall_impl; [exact Hy|]. unfold earlier. intros; lia.
    + constructor; [exact IH|]. apply Forall_forall. intros z Hz.
      apply insert_elem in Hz as [->|Hz].
      * unfold earlier. lia.
      * rewrite Forall_forall in Hy. by apply Hy.
Qed.

Lemma order_sorted (l : list message_row) : StronglySorted earlier (order_by_created_at l).
Proof. induction l; simpl; [constructor|by apply insert_sorted]. Qed.

(** Selecting rows commutes with the stable sort. *)
Lemma filter_insert (P : message_row → Prop) `{∀ m, Decision (P m)}
    (x : message_row) (l : list message_row) :
  StronglySorted earlier l →
  filter P (insert_by_created_at x l) =
  if decide (P x) then insert_by_created_at x (filter P l) else filter P l.
Proof.
  induction 1 as [|y l Hs IH Hy]; simpl.
  - rewrite filter_cons, filter_nil. by destruct (decide (P x)).
  - destruct (Z.leb_spec (msg_created_at x) (msg_created_at y)) as [Hle|Hlt].
    + rewrite (filter_cons _ x). destruct (decide (P x)); [|reflexivity].
      symmetry. apply insert_first. apply Forall_forall. intros z Hz.
      apply list_elem_of_filter in Hz as [_ Hz]. apply elem_of_cons in Hz as [->|Hz].
      * exact Hle.
      * rewrite Forall_forall in Hy. specialize (Hy z Hz). unfold earlier in *. lia.
    + rewrite !(filter_cons _ y), IH.
      destruct (decide (P y)), (decide (P x)); try reflexivity.
      simpl. by rewrite (proj2 (Z.leb_gt _ _) Hlt).
Qed.

Lemma filter_order (P : message_row → Prop) `{∀ m, Decision (P m)} (l : list message_row) :
  filter P (order_by_created_at l) = order_by_created_at (filter P l).
Proof.
  induction l as [|x l IH]; [reflexivity|]. simpl.
  rewrite filter_insert by apply order_sorted. rewrite filter_cons, IH.
  by destruct (decide (P x)).
Qed.

Lemma filter_none {A} (P : A → Prop) `{∀ x, Decision (P x)} (l : list A) :
  Forall (λ x, ¬ P x) l → filter P l = [].
Proof.
  induction 1 as [|x l Hx _ IH]; [reflexivity|].
  rewrite filter_cons. by destruct (decide (P x)).
Qed.

Lemma filter_all {A} (P : A → Prop) `{∀ x, Decision (P x)} (l : list A) :
  Forall P l → filter P l = l.
Proof.
  induction 1 as [|x l Hx _ IH]; [reflexivity|].
  rewrite filter_cons. destruct (decide (P x)); [by rewrite IH|done].
Qed.

(** C9: after a completed turn with a non-empty latest user message,
    reading the conversation back by its id returns, besides the rows
    it returned before, exactly two new ones, the user message and then
    the assistant message, in ascending order of creation time; and the
    assistant row carries the prompt and completion counts of the
    terminal frame. *)
Theorem conversation_round_trip (t : turn) (d : db) :
  let rq := turn_request t in
  let env := turn_environment t in
  let r := serve cfg JSON_parse t d in
  completed r = true →
  lastContent rq ≠ [] →
  now_user_message env ≤ now_assistant_message env →
  ∃ conversation rows user_row assistant_row evs prompt completion total left_enhanced left_pro,
    get_conversation (convId rq env) (db_after r) = Some (conversation, rows)
    ∧ filter (inserted_now env) rows = [user_row; assistant_row]
    ∧ filter (λ m, ¬ inserted_now env m) rows = messages_of (convId rq env) d
    ∧ StronglySorted earlier rows
    ∧ msg_role user_row = lit "user" ∧ msg_content user_row = lastContent rq
    ∧ msg_role assistant_row = lit "assistant"
    ∧ resp r = Stream (evs ++ [EvDone prompt completion total left_enhanced left_pro]) true
    ∧ usage_prompt assistant_row = prompt
    ∧ usage_completion assistant_row = completion.
Proof.
  intros rq env r Hc Hlast Htime.
  destruct (serve_completed t d Hc)
    as (reqs & stream & em & tr & kw & _ & _ & _ & _ & Hd & Hresp & _ & Hids & _).
  fold rq env r in Hd, Hresp, Hids.
  set (st := relay JSON_parse (chunks stream)) in *.
  assert (Hne : Js.nonempty (lastContent rq) = true) by (by destruct (lastContent rq)).
  destruct Hids as (Hu & Ha & _). destruct (Hu Hne) as [Hu1 Hu2]. clear Hu.
  set (mu := user_message rq env).
  set (ma := assistant_message rq env (screened d st) (reported st)).
  assert (Hmsgs : messages (db_after r) = messages d ++ [mu; ma]).
  { rewrite Hd. cbn [set_ip_requests accounted messages]. unfold new_messages.
    by rewrite Hne. }
  assert (Hconv : is_Some (conversations (db_after r) !! convId rq env)).
  { rewrite Hd. cbn [set_ip_requests accounted conversations].
    destruct (conversations d !! convId rq env) as [c|] eqn:Hcv.
    - rewrite Hcv. eauto.
    - rewrite lookup_insert_eq. eauto. }
  destruct Hconv as [conversation Hconv].
  assert (Hold : Forall (λ m, ¬ inserted_now env m)
                   (filter (λ m, conversation_id m = convId rq env) (messages d))).
  { apply Forall_forall. intros m Hm. apply list_elem_of_filter in Hm as [_ Hm].
    intros [Hid|Hid].
    - apply Hu1. unfold message_ids. rewrite <- Hid. by apply list_elem_of_fmap_2.
    - apply Ha. unfold message_ids. rewrite <- Hid. by apply list_elem_of_fmap_2. }
  assert (Hrows : messages_of (convId rq env) (db_after r)
    = order_by_created_at
        (filter (λ m, conversation_id m = convId rq env) (messages d) ++ [mu; ma])).
  { unfold messages_of. rewrite Hmsgs, filter_app. f_equal. f_equal.
    rewrite !filter_cons, filter_nil. cbn [mu ma user_message assistant_message conversation_id].
    by rewrite !decide_True. }
  unfold done_event in Hresp.
  exists conversation, (messages_of (convId rq env) (db_after r)), mu, ma.
  do 6 eexists. split_and!.
  - unfold get_conversation. by rewrite Hconv.
  - rewrite Hrows, filter_order, filter_app, (filter_none _ _ Hold).
    rewrite !filter_cons, filter_nil.
    rewrite decide_True by (left; reflexivity). rewrite decide_True by (right; reflexivity).
    simpl. by rewrite (proj2 (Z.leb_le _ _) Htime).
  - rewrite Hrows, filter_order, filter_app, (filter_all _ _ Hold).
    rewrite !filter_cons, filter_nil.
    rewrite decide_False by (intros Hn; apply Hn; left; reflexivity).
    rewrite decide_False by (intros Hn; apply Hn; right; reflexivity).
    by rewrite app_nil_r.
  - apply order_sorted.
  - reflexivity.
  - reflexivity.
  - reflexivity.
  - exact Hresp.
  - reflexivity.
  - reflexivity.
Qed.

(** ** Quota counters over a sequential history *)

Lemma NoDup_map_inj {A B} (f : A → B) (l : list A) (x y : A) :
  NoDup (map f l) → x ∈ l → y ∈ l → f x = f y → x = y.
Proof.
  induction l as [|z l IH]; intros Hnd Hx Hy Hf; [by apply elem_of_nil in Hx|].
  cbn [map] in Hnd. apply NoDup_cons in Hnd as [Hz Hnd].
  apply elem_of_cons in Hx as [->|Hx]; apply elem_of_cons in Hy as [->|Hy].
  - reflexivity.
  - exfalso. apply Hz. rewrite Hf. by apply list_elem_of_fmap_2.
  - exfalso. apply Hz. rewrite <- Hf. by apply list_elem_of_fmap_2.
  - by apply IH.
Qed.

Lemma find_update (f : user_row → user_row) (uid tok : jsstr) (us : list user_row)
    (u : user_row) :
  (∀ x, token (f x) = token x) →
  find (λ x, bool_decide (token x = tok)) us = Some u →
  find (λ x, bool_decide (token x = tok))
       (map (λ x, if bool_decide (user_id x = uid) then f x else x) us)
  = Some (if bool_decide (user_id u = uid) then f u else u).
Proof.
  intros Hf. induction us as [|x us IH]; [discriminate|]. cbn [map find].
  assert (Hx : token (if bool_decide (user_id x = uid) then f x else x) = token x)
    by (destruct (bool_decide (user_id x = uid)); [apply Hf|reflexivity]).
  rewrite Hx. destruct (bool_decide (token x = tok)); [by intros [= ->]|exact IH].
Qed.

Lemma map_user_id_update (f : user_row → user_row) (uid : jsstr) (us : list user_row) :
  (∀ x, user_id (f x) = user_id x) →
  map user_id (map (λ x, if bool_decide (user_id x = uid) then f x else x) us)
  = map user_id us.
Proof.
  intros Hf. rewrite map_map. apply map_ext. intros x.
  destruct (bool_decide _); [apply Hf|reflexivity].
Qed.

Lemma charge_quota_ids (rq : chat_request) (user : option user_row) (d : db) :
  map user_id (users (charge_quota rq user d)) = map user_id (users d).
Proof.
  unfold charge_quota, update_quota_enhanced, update_quota_pro.
  destruct user as [usr|]; [|reflexivity].
  destruct (Js.eqs (model rq) (lit "enhanced")), (Js.eqs (model rq) (lit "pro")); db_simpl;
    rewrite ?map_user_id_update; reflexivity.
Qed.

Lemma resolve_user_spec (rq : chat_request) (d : db) (usr : user_row) :
  resolve_user rq d = Some usr →
  userToken rq = Some (token usr) ∧ token usr ≠ [] ∧ usr ∈ users d
  ∧ find_user_by_token (token usr) d = Some usr.
Proof.
  unfold resolve_user, find_user_by_token. destruct (userToken rq) as [[|c tok]|]; try discriminate.
  cbn [Js.truthy Js.or_else]. intros Hf. apply find_some in Hf as Hf'.
  destruct Hf' as [Hin Htok]. apply bool_decide_eq_true_1 in Htok.
  rewrite Htok. split_and!; try done. by apply list_elem_of_In.
Qed.

Lemma requested_by_resolves (tok : jsstr) (p : premium) (t : turn) (d : db) :
  requested_by tok p t = true →
  resolve_user (turn_request t) d = find_user_by_token tok d
  ∧ model (turn_request t) = Some (tier_name p).
Proof.
  unfold requested_by, resolve_user, Js.eqs. intros H.
  apply andb_prop in H as [H Hm]. apply andb_prop in H as [Ht Hne].
  apply bool_decide_eq_true_1 in Ht. apply bool_decide_eq_true_1 in Hm.
  rewrite Ht. destruct tok; [discriminate|]. done.
Qed.

(** The guards passed: a premium request found a positive counter. *)
Lemma guards_positive (rq : chat_request) (p : premium) (usr : user_row) (d : db) :
  guards cfg rq d = None → resolve_user rq d = Some usr →
  model rq = Some (tier_name p) → 0 < quota p usr.
Proof.
  unfold guards, Js.eqs. intros Hg Hu Hm. rewrite Hu, Hm in Hg.
  destruct (_ && _); [discriminate|]. destruct (negb _); [discriminate|].
  destruct p; cbn [tier_name quota] in *.
  - rewrite (bool_decide_eq_true_2 (Some (lit "enhanced") = Some (lit "enhanced")) eq_refl) in Hg.
    cbn [orb andb is_some negb] in Hg.
    destruct (Z.leb_spec (quota_enhanced usr) 0); [discriminate|lia].
  - rewrite (bool_decide_eq_false_2 (Some (lit "pro") = Some (lit "enhanced"))) in Hg
      by discriminate.
    rewrite (bool_decide_eq_true_2 (Some (lit "pro") = Some (lit "pro")) eq_refl) in Hg.
    cbn [orb andb is_some negb] in Hg.
    destruct (Z.leb_spec (quota_pro usr) 0); [discriminate|lia].
Qed.

(** The effect of one commit on the row behind [tok]. *)
Lemma charge_lookup (p : premium) (tok : jsstr) (u : user_row) (t : turn) (d : db) :
  NoDup (map user_id (users d)) →
  find_user_by_token tok d = Some u →
  guards cfg (turn_request t) d = None →
  ∃ u1,
    find (λ x, bool_decide (token x = tok))
         (users (charge_quota (turn_request t) (resolve_user (turn_request t) d) d)) = Some u1
    ∧ quota p u1 = quota p u - (if requested_by tok p t then 1 else 0)
    ∧ (0 ≤ quota p u → 0 ≤ quota p u1).
Proof.
  intros Hnd Hu Hg. set (rq := turn_request t).
  assert (Hu' := Hu). unfold find_user_by_token in Hu'. apply find_some in Hu' as [Hin Htok].
  apply bool_decide_eq_true_1 in Htok. apply list_elem_of_In in Hin.
  destruct (requested_by tok p t) eqn:Hreq.
  - destruct (requested_by_resolves tok p t d Hreq) as [Hres Hm]. fold rq in Hres, Hm.
    rewrite Hres, Hu.
    assert (Hpos := guards_positive rq p u d Hg (eq_trans Hres Hu) Hm).
    unfold charge_quota, update_quota_enhanced, update_quota_pro, Js.eqs. rewrite Hm.
    destruct p; cbn [tier_name quota] in *.
    + rewrite (bool_decide_eq_true_2 (Some (lit "enhanced") = Some (lit "enhanced")) eq_refl).
      rewrite (bool_decide_eq_false_2 (Some (lit "enhanced") = Some (lit "pro")))
        by discriminate.
      db_simpl. erewrite find_update; [|reflexivity|exact Hu].
      rewrite bool_decide_eq_true_2 by reflexivity. eexists. split; [reflexivity|].
      cbn [quota_enhanced]. split; lia.
    + rewrite (bool_decide_eq_false_2 (Some (lit "pro") = Some (lit "enhanced")))
        by discriminate.
      rewrite (bool_decide_eq_true_2 (Some (lit "pro") = Some (lit "pro")) eq_refl).
      db_simpl. erewrite find_update; [|reflexivity|exact Hu].
      rewrite bool_decide_eq_true_2 by reflexivity. eexists. split; [reflexivity|].
      cbn [quota_pro]. split; lia.
  - rewrite Z.sub_0_r.
    destruct (resolve_user rq d) as [usr|] eqn:Hres; [|by exists u].
    destruct (resolve_user_spec rq d usr Hres) as (Htk & Hne & Hinu & _).
    assert (Hother : model rq = Some (tier_name p) → user_id u ≠ user_id usr).
    { intros Hm Hid. assert (u = usr) by (eapply NoDup_map_inj; eauto). subst usr.
      unfold requested_by, Js.eqs in Hreq. fold rq in Hreq. rewrite Htk, Htok, Hm in Hreq.
      rewrite !bool_decide_eq_true_2 in Hreq by reflexivity.
      destruct tok; [congruence|discriminate]. }
    unfold charge_quota, update_quota_enhanced, update_quota_pro, Js.eqs.
    destruct (decide (model rq = Some (lit "enhanced"))) as [He|He];
      destruct (decide (model rq = Some (lit "pro"))) as [Hp|Hp];
      try (rewrite He in Hp; discriminate);
      rewrite ?(bool_decide_eq_true_2 _ He), ?(bool_decide_eq_false_2 _ He),
              ?(bool_decide_eq_true_2 _ Hp), ?(bool_decide_eq_false_2 _ Hp);
      db_simpl; try (by exists u).
    + erewrite find_update; [|reflexivity|exact Hu].
      eexists. split; [reflexivity|].
      destruct (bool_decide (user_id u = user_id usr)) eqn:Hid; [|done].
      apply bool_decide_eq_true_1 in Hid.
      destruct p; [exfalso; by apply (Hother He)|done].
    + erewrite find_update; [|reflexivity|exact Hu].
      eexists. split; [reflexivity|].
      destruct (bool_decide (user_id u = user_id usr)) eqn:Hid; [|done].
      apply bool_decide_eq_true_1 in Hid.
      destruct p; [done|exfalso; by apply (Hother Hp)].
Qed.

Lemma serve_users (t : turn) (d : db) :
  let r := serve cfg JSON_parse t d in
  (completed r = true →
   guards cfg (turn_request t) d = None
   ∧ users (db_after r)
     = users (charge_quota (turn_request t) (resolve_user (turn_request t) d) d))
  ∧ (completed r = false → service_failure r = false → users (db_after r) = users d)
  ∧ (users (db_after r) = users d
     ∨ guards cfg (turn_request t) d = None
       ∧ users (db_after r)
         = users (charge_quota (turn_request t) (resolve_user (turn_request t) d) d)).
Proof.
  intros r. split; [|split].
  - intros Hc. destruct (serve_completed t d Hc)
      as (reqs & stream & em & tr & kw & _ & Hg & _ & _ & Hd & _).
    split; [exact Hg|]. fold r in Hd. by rewrite Hd.
  - intros Hc Hf. subst r.
    destruct (serve_cases t d) as [(_ & Hd & _)|(_ & reqs & Hr)]; [by rewrite Hd|].
    rewrite Hr in Hc, Hf |- *. by rewrite (handler_refused _ _ _ Hc Hf).
  - subst r. destruct (serve_cases t d) as [(_ & Hd & _)|(_ & reqs & Hr)];
      [left; by rewrite Hd|].
    rewrite Hr.
    destruct (handler_store (turn_request t) (turn_environment t) (set_ip_requests reqs d))
      as [H|(Hg & u & tr & kw & msgs & logs & H)]; rewrite H; [by left|].
    right. split; [exact Hg|]. cbn [accounted users].
    by apply charge_quota_users.
Qed.

Lemma charge_nonneg (p : premium) (rq : chat_request) (d : db) :
  guards cfg rq d = None →
  Forall (λ x, 0 ≤ quota p x) (users d) →
  Forall (λ x, 0 ≤ quota p x) (users (charge_quota rq (resolve_user rq d) d)).
Proof.
  intros Hg Hall. destruct (resolve_user rq d) as [usr|] eqn:Hres; [|exact Hall].
  unfold charge_quota, update_quota_enhanced, update_quota_pro, Js.eqs.
  destruct (decide (model rq = Some (lit "enhanced"))) as [He|He];
    destruct (decide (model rq = Some (lit "pro"))) as [Hp|Hp];
    try (rewrite He in Hp; discriminate);
    rewrite ?(bool_decide_eq_true_2 _ He), ?(bool_decide_eq_false_2 _ He),
            ?(bool_decide_eq_true_2 _ Hp), ?(bool_decide_eq_false_2 _ Hp);
    db_simpl; try exact Hall.
  - assert (Hpos := guards_positive rq Enhanced usr d Hg Hres He). cbn [quota] in Hpos.
    apply Forall_forall. intros x Hx. apply list_elem_of_fmap in Hx as (y & -> & Hy).
    rewrite Forall_forall in Hall. specialize (Hall y Hy).
    destruct (bool_decide _); [|exact Hall].
    destruct p; cbn [quota quota_enhanced quota_pro] in *; lia.
  - assert (Hpos := guards_positive rq Pro usr d Hg Hres Hp). cbn [quota] in Hpos.
    apply Forall_forall. intros x Hx. apply list_elem_of_fmap in Hx as (y & -> & Hy).
    rewrite Forall_forall in Hall. specialize (Hall y Hy).
    destruct (bool_decide _); [|exact Hall].
    destruct p; cbn [quota quota_enhanced quota_pro] in *; lia.
Qed.

Lemma final_db_nonneg (p : premium) (ts : list turn) (d : db) :
  Forall (λ x, 0 ≤ quota p x) (users d) →
  Forall (λ x, 0 ≤ quota p x) (users (final_db cfg JSON_parse d ts)).
Proof.
  revert d. induction ts as [|t ts IH]; intros d Hall; [exact Hall|].
  rewrite final_db_cons. apply IH.
  destruct (serve_users t d) as (_ & _ & [H|[Hg H]]); rewrite H; [exact Hall|].
  by apply charge_nonneg.
Qed.

Lemma history_quota (p : premium) (tok : jsstr) (ts : list turn) (d : db) (u : user_row) :
  NoDup (map user_id (users d)) →
  find_user_by_token tok d = Some u →
  Forall (λ r, service_failure r = false) (run cfg JSON_parse d ts) →
  ∃ u', find_user_by_token tok (final_db cfg JSON_parse d ts) = Some u'
        ∧ quota p u' = quota p u - successes tok p ts (run cfg JSON_parse d ts)
        ∧ (0 ≤ quota p u → 0 ≤ quota p u').
Proof.
  revert d u. induction ts as [|t ts IH]; intros d u Hnd Hu Hok.
  - exists u. cbn [final_db fold_left successes]. split; [exact Hu|]. split; [lia|done].
  - rewrite final_db_cons. cbn [run successes] in *.
    apply Forall_cons in Hok as [Hf Hok].
    destruct (serve_users t d) as (Hdone & Hnot & _).
    destruct (completed (serve cfg JSON_parse t d)) eqn:Hc.
    + destruct (Hdone eq_refl) as [Hg Husers].
      destruct (charge_lookup p tok u t d Hnd Hu Hg) as (u1 & Hu1 & Hq1 & Hn1).
      destruct (IH (db_after (serve cfg JSON_parse t d)) u1) as (u' & Hu' & Hq' & Hn').
      * rewrite Husers, charge_quota_ids. exact Hnd.
      * unfold find_user_by_token. rewrite Husers. exact Hu1.
      * exact Hok.
      * exists u'. split; [exact Hu'|]. rewrite andb_true_r. split; [lia|auto].
    + destruct (IH (db_after (serve cfg JSON_parse t d)) u) as (u' & Hu' & Hq' & Hn').
      * rewrite (Hnot eq_refl Hf). exact Hnd.
      * unfold find_user_by_token. rewrite (Hnot eq_refl Hf). exact Hu.
      * exact Hok.
      * exists u'. split; [exact Hu'|]. rewrite andb_false_r. split; [lia|auto].
Qed.

(** With fresh identifiers the commit cannot fail: a turn that is not
    completed has written nothing but the address counter. *)
Lemma handler_fresh (rq : chat_request) (env : turn_env) (d : db) :
  let r := chat_handler cfg JSON_parse rq env d in
  fresh_ids env d → completed r = false → db_after r = d.
Proof.
  unfold chat_handler. intros Hfresh.
  destruct (guards cfg rq d) as [rej|]; [reflexivity|].
  destruct (backend env) as [|[] [stream|] em]; try reflexivity.
  destruct (breaks stream); [reflexivity|].
  match goal with
  | |- context [commit _ ?a ?b ?us ?tx ?u ?dd] =>
      destruct (commit_succeeds a b us tx u dd Hfresh) as (done & d' & ->)
  end.
  intros H. cbn in H. discriminate.
Qed.

Lemma serve_fresh_users (t : turn) (d : db) :
  fresh_ids (turn_environment t) d →
  completed (serve cfg JSON_parse t d) = false →
  users (db_after (serve cfg JSON_parse t d)) = users d.
Proof.
  intros Hfresh Hc.
  destruct (serve_cases t d) as [(_ & Hd & _)|(_ & reqs & Hr)]; [by rewrite Hd|].
  rewrite Hr in Hc |- *. rewrite handler_fresh; [reflexivity|exact Hfresh|exact Hc].
Qed.

Lemma history_quota_fresh (p : premium) (tok : jsstr) (ts : list turn) (d : db)
    (u : user_row) :
  NoDup (map user_id (users d)) →
  find_user_by_token tok d = Some u →
  fresh_history cfg JSON_parse d ts →
  ∃ u', find_user_by_token tok (final_db cfg JSON_parse d ts) = Some u'
        ∧ quota p u' = quota p u - successes tok p ts (run cfg JSON_parse d ts)
        ∧ (0 ≤ quota p u → 0 ≤ quota p u').
Proof.
  revert d u. induction ts as [|t ts IH]; intros d u Hnd Hu Hfresh.
  - exists u. cbn [final_db fold_left successes]. split; [exact Hu|]. split; [lia|done].
  - rewrite final_db_cons. cbn [run successes fresh_history] in *.
    destruct Hfresh as [Hf Hfresh].
    destruct (serve_users t d) as (Hdone & _ & _).
    destruct (completed (serve cfg JSON_parse t d)) eqn:Hc.
    + destruct (Hdone eq_refl) as [Hg Husers].
      destruct (charge_lookup p tok u t d Hnd Hu Hg) as (u1 & Hu1 & Hq1 & Hn1).
      destruct (IH (db_after (serve cfg JSON_parse t d)) u1) as (u' & Hu' & Hq' & Hn').
      * rewrite Husers, charge_quota_ids. exact Hnd.
      * unfold find_user_by_token. rewrite Husers. exact Hu1.
      * exact Hfresh.
      * exists u'. split; [exact Hu'|]. rewrite andb_true_r. split; [lia|auto].
    + pose proof (serve_fresh_users t d Hf Hc) as Hsame.
      destruct (IH (db_after (serve cfg JSON_parse t d)) u) as (u' & Hu' & Hq' & Hn').
      * rewrite Hsame. exact Hnd.
      * unfold find_user_by_token. rewrite Hsame. exact Hu.
      * exact Hfresh.
      * exists u'. split; [exact Hu'|]. rewrite andb_false_r. split; [lia|auto].
Qed.

(** C1: served one after the other, each drawing identifiers that no
    row holds yet, the turns of a history move the counter of an
    identity for a premium tier down by one for each completed turn
    requested by that identity for that tier, and by nothing else,
    whatever the other turns are and however they end, refusals,
    backend errors, rejected calls and broken streams included; so
    after [N] such turns the counter equals its initial value minus
    [N].  It never becomes negative; a turn requested with a
    non-positive counter is rejected before any backend call; and one
    completed turn decrements the counter by exactly one. *)
Theorem quota_sequential (p : premium) (tok : jsstr) (u : user_row) (d : db)
    (ts : list turn) :
  NoDup (map user_id (users d)) →
  find_user_by_token tok d = Some u →
  fresh_history cfg JSON_parse d ts →
  (∃ u', find_user_by_token tok (final_db cfg JSON_parse d ts) = Some u'
         ∧ quota p u' = quota p u - successes tok p ts (run cfg JSON_parse d ts)
         ∧ (0 ≤ quota p u → 0 ≤ quota p u'))
  ∧ (∀ history, Forall (λ x, 0 ≤ quota p x) (users d) →
       Forall (λ x, 0 ≤ quota p x) (users (final_db cfg JSON_parse d history)))
  ∧ (∀ t, requested_by tok p t = true → quota p u ≤ 0 →
       let r := serve cfg JSON_parse t d in
       calls r = [] ∧ completed r = false ∧ users (db_after r) = users d
       ∧ ∃ status code message, resp r = Json status code message)
  ∧ (∀ t, requested_by tok p t = true → completed (serve cfg JSON_parse t d) = true →
       ∃ u', find_user_by_token tok (db_after (serve cfg JSON_parse t d)) = Some u'
             ∧ quota p u' = quota p u - 1).
Proof.
  intros Hnd Hu Hok. split_and!.
  - by apply history_quota_fresh.
  - intros history. apply final_db_nonneg.
  - intros t Hreq Hq r.
    destruct (requested_by_resolves tok p t d Hreq) as [Hres Hm]. rewrite Hu in Hres.
    assert (Hg : ∃ rej, guards cfg (turn_request t) d = Some rej).
    { destruct (guards cfg (turn_request t) d) as [rej|] eqn:Hg; [eauto|].
      assert (Hpos := guards_positive _ p u d Hg Hres Hm). lia. }
    destruct Hg as [rej Hg]. subst r.
    destruct (serve_cases t d) as [(_ & Hd & Hc & [H|H])|(_ & reqs & Hr)].
    + unfold completed. rewrite Hd, Hc, H. eauto 10.
    + unfold completed. rewrite Hd, Hc, H. eauto 10.
    + rewrite Hr, (handler_guarded _ _ _ rej) by exact Hg.
      destruct (guards_codes _ _ _ Hg) as (s & c & m & -> & _). cbn. eauto 10.
  - intros t Hreq Hc.
    destruct (history_quota p tok [t] d u Hnd Hu) as (u' & Hu' & Hq' & _).
    { cbn [run]. constructor; [|constructor]. unfold service_failure, completed in *.
      destruct (resp (serve cfg JSON_parse t d)) as [s c m|evs []]; done. }
    exists u'. split; [exact Hu'|]. cbn [run successes] in Hq'. rewrite Hreq, Hc in Hq'.
    cbn in Hq'. lia.
Qed.
End Properties.

(** * Worked instances *)

(** ** Admission *)



Lemma daily_limit_witness :
  let t := sample_turn None None (lit "hello") limited_env in
  0 < 2
  ∧ blocked (lit "10.0.0.1") sample_db = false
  ∧ configured_limit (lit "10.0.0.1") sample_db = Some 2
  ∧ counter (lit "10.0.0.1") (lit "2026-01-01") sample_db = 0
  ∧ resp (serve sample_cfg sample_parse t
            (final_db sample_cfg sample_parse sample_db [t; t]))
    = Json 429 10 msg_rate_limited.
Proof.
  intros t.
  assert (H0 : 0 < 2) by lia.
  assert (H1 : blocked (lit "10.0.0.1") sample_db = false) by (vm_compute; reflexivity).
  assert (H2 : configured_limit (lit "10.0.0.1") sample_db = Some 2)
    by (vm_compute; reflexivity).
  assert (H3 : counter (lit "10.0.0.1") (lit "2026-01-01") sample_db = 0)
    by (vm_compute; reflexivity).
  assert (H4 : Forall (λ t, ip (turn_environment t) = lit "10.0.0.1"
                            ∧ admission_date (turn_environment t) = lit "2026-01-01")
                 [t; t; t]) by (repeat constructor).
  split; [exact H0|]. split; [exact H1|]. split; [exact H2|]. split; [exact H3|].
  destruct (daily_limit sample_cfg sample_parse _ _ 2 sample_db [t; t; t] H0 H1 H2 H3 H4)
    as [Hseq _].
  destruct (Hseq 2%nat t eq_refl) as (_ & _ & Hthird).
  cbn [take] in Hthird. rewrite Hthird by lia. reflexivity.
Defined.

(** ** Errors and rejections *)

Lemma upstream_error_witness :
  let t := sample_turn None None (lit "hello") upstream_error_env in
  checkIpRules (ip upstream_error_env) (admission_date upstream_error_env) sample_db
    = Allowed sample_db
  ∧ guards sample_cfg (turn_request t) sample_db = None
  ∧ resp (serve sample_cfg sample_parse t sample_db) = Json 500 4 msg_upstream
  ∧ db_after (serve sample_cfg sample_parse t sample_db) = sample_db.
Proof.
  intros t.
  assert (H1 : checkIpRules (ip (turn_environment t)) (admission_date (turn_environment t))
                 sample_db = Allowed sample_db) by (vm_compute; reflexivity).
  assert (H2 : guards sample_cfg (turn_request t) sample_db = None)
    by (vm_compute; reflexivity).
  assert (H3 : backend (turn_environment t) = FetchResolves false None None) by reflexivity.
  split; [exact H1|]. split; [exact H2|].
  destruct (upstream_error_commits_nothing sample_cfg sample_parse t sample_db sample_db
              false None None H1 H2 H3 (or_introl eq_refl)) as (Hr & _ & Hd & _).
  split; [exact Hr|exact Hd].
Defined.

Lemma flagged_sample (pre : jsstr) :
  flagged_by (sensitive_words sample_db) (pre ++ lit "bad").
Proof.
  exists (lit "bad"). split; [apply list_elem_of_singleton; reflexivity|].
  exists pre, []. by rewrite app_nil_r.
Qed.

Lemma sample_words : no_empty_word sample_db.
Proof. repeat constructor. discriminate. Qed.

Lemma flagged_input_witness :
  let t := sample_turn None None (lit "so bad") sample_env in
  calls (serve sample_cfg sample_parse t sample_db) = []
  ∧ resp (serve sample_cfg sample_parse t sample_db) = Json 400 2 msg_sensitive
  ∧ messages (db_after (serve sample_cfg sample_parse t sample_db)) = messages sample_db.
Proof.
  intros t.
  assert (H1 : flagged_by (sensitive_words sample_db) (lastContent (turn_request t)))
    by exact (flagged_sample (lit "so ")).
  assert (H2 : userTag (resolve_user (turn_request t) sample_db) ≠ lit "trusted")
    by (vm_compute; discriminate).
  destruct (flagged_input_rejected sample_cfg sample_parse t sample_db sample_words H1 H2)
    as (Hc & Hm & _ & _ & Hresp).
  split; [exact Hc|]. split; [|exact Hm].
  destruct Hresp as [Hresp|(Hno & _)]; [exact Hresp|].
  vm_compute in Hno. discriminate.
Defined.

Lemma flagged_output_witness :
  let t := sample_turn (Some (lit "enhanced")) (Some (lit "tok-a")) (lit "hello") flagged_env in
  let r := serve sample_cfg sample_parse t sample_db in
  completed r = true
  ∧ (∃ done, resp r = Stream [EvDelta (lit "bad"); EvReplace refusal; done] true)
  ∧ (msg_content <$> last (messages (db_after r))) = Some refusal
  ∧ (quota_enhanced <$> find_user_by_token (lit "tok-a") (db_after r)) = Some 1
  ∧ metrics_daily (db_after r) !! lit "2026-01-01"
    = Some {| total_requests := 1; avg_latency := 250; token_total := 0;
              concurrent_peak := 1 |}.
Proof.
  intros t r.
  assert (H1 : allows (ip (turn_environment t)) (admission_date (turn_environment t))
                 sample_db = true) by (vm_compute; reflexivity).
  assert (H2 : guards sample_cfg (turn_request t) sample_db = None)
    by (vm_compute; reflexivity).
  assert (H3 : backend (turn_environment t) = FetchResolves true (Some flagged_body) None)
    by reflexivity.
  assert (H4 : breaks flagged_body = false) by reflexivity.
  assert (H5 : fresh_ids (turn_environment t) sample_db).
  { split_and!; [apply not_elem_of_nil|apply not_elem_of_nil|discriminate|apply not_elem_of_nil]. }
  assert (H6 : flagged_by (sensitive_words sample_db)
                 (accumulated (relay sample_parse (chunks flagged_body))))
    by exact (flagged_sample []).
  destruct (flagged_output_replaced sample_cfg sample_parse t sample_db flagged_body None
              H1 H2 H3 H4 H5 sample_words H6)
    as (done & asst & Hresp & Hmsgs & _ & Hcontent & _ & _ & Hdaily & _ & _ & Hquota).
  fold r in Hresp, Hmsgs, Hquota, Hdaily.
  split; [unfold completed; by rewrite Hresp|].
  split; [exists done; exact Hresp|].
  split; [|split].
  - rewrite Hmsgs, app_assoc, last_snoc. cbn [fmap option_fmap option_map]. by rewrite Hcontent.
  - destruct (Hquota Enhanced _ eq_refl eq_refl) as (u' & Hu' & Hq').
    change (find_user_by_token (lit "tok-a") (db_after r)) with
      (resolve_user (turn_request t) (db_after r)).
    rewrite Hu'. cbn [fmap option_fmap option_map]. f_equal. exact Hq'.
  - etrans; [exact Hdaily|]. vm_compute. reflexivity.
Defined.

(** ** Budgets and tiers *)

Lemma prompt_budget_witness :
  (2000 < length (assemble_prompt long_persona_request sample_env seeded_db))%nat
  ∧ hd_error (call_input (payload sample_cfg long_persona_request sample_env seeded_db))
    = Some {| role := lit "system";
              content := take 1600 (assemble_prompt long_persona_request sample_env seeded_db) |}
  ∧ getPromptLimit (lit "normal") seeded_db = 1200
  ∧ getPromptLimit (lit "pro") seeded_db = 2000.
Proof.
  destruct (prompt_budget sample_cfg sample_parse long_persona_request sample_env seeded_db)
    as (_ & _ & Hseed & _).
  destruct (Hseed sample_db [] eq_refl) as (Hn & _ & Hp & Hcut).
  split; [vm_compute; lia|]. split; [|split; [exact Hn|exact Hp]].
  apply (Hcut long_persona_request sample_env 1600).
  apply elem_of_cons. right. apply elem_of_cons. left. reflexivity.
Defined.

Lemma unlisted_tier_witness :
  let t := sample_turn (Some (lit "turbo")) (Some (lit "tok-a")) (lit "hello") sample_env in
  let r := serve sample_cfg sample_parse t sample_db in
  users (db_after r) = users sample_db
  ∧ completed r = true
  ∧ map call_model (calls r) = [lit "gpt-4o-mini"].
Proof.
  intros t r.
  assert (H1 : model (turn_request t) ≠ Some (lit "enhanced")) by discriminate.
  assert (H2 : model (turn_request t) ≠ Some (lit "pro")) by discriminate.
  destruct (unlisted_tier_skips_quota sample_cfg sample_parse t sample_db H1 H2)
    as (_ & _ & Hu & _).
  split; [exact Hu|]. split; vm_compute; reflexivity.
Defined.

(** ** Completed turns *)

(** C8 fails as stated: a turn that ends in the upstream-error answer
    appends no audit row and writes no metrics row. *)
Lemma upstream_error_not_recorded :
  let t := sample_turn None None (lit "hello") upstream_error_env in
  let r := serve sample_cfg sample_parse t sample_db in
  allows (ip upstream_error_env) (admission_date upstream_error_env) sample_db = true
  ∧ calls r ≠ []
  ∧ resp r = Json 500 4 msg_upstream
  ∧ length (audit_logs (db_after r)) ≠ S (length (audit_logs sample_db))
  ∧ metrics_daily (db_after r) !! today upstream_error_env = None.
Proof.
  vm_compute. split; [reflexivity|]. split; [discriminate|]. split; [reflexivity|].
  split; [discriminate|reflexivity].
Qed.

Lemma completed_turn_witness :
  let t := sample_turn None None (lit "hello world") sample_env in
  let r := serve sample_cfg sample_parse t sample_db in
  completed r = true
  ∧ (total_requests <$> metrics_daily (db_after r) !! today sample_env) = Some 1
  ∧ (token_total <$> metrics_daily (db_after r) !! today sample_env) = Some 7
  ∧ (log_content <$> audit_logs (db_after r)) = [lit "hello world"].
Proof.
  intros t r.
  assert (Hc : completed r = true) by (vm_compute; reflexivity).
  split; [exact Hc|].
  destruct (completed_turn_accounting sample_cfg sample_parse t sample_db) as [Hdone _].
  destruct (Hdone Hc) as (evs & p & c & total & qe & qp & entry & Hresp & Hm & _ & Hlogs
    & _ & Hcontent).
  fold r in Hresp, Hm, Hlogs.
  assert (Htotal : total = 7).
  { assert (Hl : last (match resp r with Stream es _ => es | _ => [] end)
                 = Some (EvDone p c total qe qp)) by (rewrite Hresp; apply last_snoc).
    vm_compute in Hl. by injection Hl as _ _ <- _ _. }
  change (today (turn_environment t)) with (today sample_env) in Hm.
  rewrite Hm, Hlogs, Htotal. cbn [fmap option_fmap option_map list_fmap audit_logs sample_db app].
  rewrite Hcontent. split; [reflexivity|]. split; reflexivity.
Defined.

Lemma conversation_round_trip_witness :
  let t := sample_turn None None (lit "hello world") sample_env in
  let r := serve sample_cfg sample_parse t sample_db in
  completed r = true
  ∧ (map msg_role <$> (snd <$> get_conversation (lit "c1") (db_after r)))
    = Some [lit "user"; lit "assistant"]
  ∧ (map usage_prompt <$> (snd <$> get_conversation (lit "c1") (db_after r)))
    = Some [0; 3].
Proof.
  intros t r.
  assert (Hc : completed r = true) by (vm_compute; reflexivity).
  assert (Hl : lastContent (turn_request t) ≠ []) by discriminate.
  assert (Ht : now_user_message (turn_environment t)
               ≤ now_assistant_message (turn_environment t)) by (vm_compute; discriminate).
  destruct (conversation_round_trip sample_cfg sample_parse t sample_db Hc Hl Ht)
    as (conversation & rows & mu & ma & evs & p & c & total & qe & qp & Hget & _).
  split; [exact Hc|]. fold r in Hget.
  change (convId (turn_request t) (turn_environment t)) with (lit "c1") in Hget.
  rewrite Hget. vm_compute in Hget. injection Hget as _ <-.
  split; reflexivity.
Defined.

(** ** Quota counters *)

Lemma quota_sequential_witness :
  let t0 := sample_turn (Some (lit "enhanced")) (Some (lit "tok-a")) (lit "hello") rejected_env in
  let t1 := sample_turn (Some (lit "enhanced")) (Some (lit "tok-a")) (lit "hello") sample_env in
  let t2 := sample_turn (Some (lit "enhanced")) (Some (lit "tok-a")) (lit "again") second_env in
  let t3 := sample_turn (Some (lit "enhanced")) (Some (lit "tok-a")) (lit "more") sample_env in
  map service_failure (run sample_cfg sample_parse sample_db [t0; t1; t2]) = [true; false; false]
  ∧ successes (lit "tok-a") Enhanced [t0; t1; t2]
      (run sample_cfg sample_parse sample_db [t0; t1; t2]) = 2
  ∧ (quota_enhanced <$>
       find_user_by_token (lit "tok-a")
         (final_db sample_cfg sample_parse sample_db [t0; t1; t2]))
    = Some 0
  ∧ calls (serve sample_cfg sample_parse t3
             (final_db sample_cfg sample_parse sample_db [t0; t1; t2])) = [].
Proof.
  intros t0 t1 t2 t3.
  assert (H1 : NoDup (map user_id (users sample_db))) by apply NoDup_singleton.
  assert (H2 : find_user_by_token (lit "tok-a") sample_db
               = Some {| user_id := lit "u1"; token := lit "tok-a"; tag := [];
                         quota_enhanced := 2; quota_pro := 0 |}) by reflexivity.
  assert (H3 : fresh_history sample_cfg sample_parse sample_db [t0; t1; t2]).
  { cbn [fresh_history]. unfold fresh_ids.
    split_and!; try exact I;
      apply (proj1 (bool_decide_eq_true _)); vm_compute; reflexivity. }
  destruct (quota_sequential sample_cfg sample_parse Enhanced (lit "tok-a") _ sample_db
              [t0; t1; t2] H1 H2 H3) as ((u' & Hu' & Hq' & _) & _).
  assert (Hn : successes (lit "tok-a") Enhanced [t0; t1; t2]
                 (run sample_cfg sample_parse sample_db [t0; t1; t2]) = 2)
    by (vm_compute; reflexivity).
  split; [vm_compute; reflexivity|].
  split; [exact Hn|]. rewrite Hn in Hq'. cbn [quota quota_enhanced] in Hq'.
  split; [rewrite Hu'; cbn [fmap option_fmap option_map]; f_equal; lia|].
  vm_compute. reflexivity.
Defined.

(** ** The streaming loop *)

(** A frame that spans two chunks is parsed once its end has arrived;
    the sentinel is forwarded; the usage of the completion event is kept. *)
Example relay_sample :
  let st := relay sample_parse (chunks sample_body) in
  accumulated st = lit "hello"
  ∧ written st = [EvDelta (lit "hel"); EvDelta (lit "lo"); EvSentinel]
  ∧ Js.or0 (total_tokens (reported st)) = 7
  ∧ buffer st = [].
Proof. vm_compute. repeat split. Qed.

Example relay_keeps_partial_frame :
  let st := relay sample_parse [lit "data: delta hel"] in
  accumulated st = [] ∧ written st = [] ∧ buffer st = lit "data: delta hel".
Proof. vm_compute. repeat split. Qed.

Example split_blank_lines :
  Js.split [10; 10] (lit "a" ++ [10; 10; 10; 10] ++ lit "b") = [lit "a"; []; lit "b"].
Proof. reflexivity. Qed.

Example words_sample : Js.words (lit "  ab  c d ") = [lit "ab"; lit "c"; lit "d"].
Proof. reflexivity. Qed.

(** * Further properties *)

(** ** Splitting on a separator *)

Lemma split_aux_skip (sep : jsstr) (k : nat) (cur s : jsstr) :
  Js.split_aux sep k cur s = Js.split_aux sep 0 cur (drop k s).
Proof.
  revert k. induction s as [|c s IH]; intros [|k]; cbn; try reflexivity.
  apply IH.
Qed.

Lemma split_aux_cur (sep cur s : jsstr) :
  Js.split_aux sep 0 cur s =
  match Js.split_aux sep 0 [] s with
  | x :: rest => (cur ++ x) :: rest
  | [] => [cur]
  end.
Proof.
  revert cur. induction s as [|c s IH]; intros cur; cbn -[Js.startsWith].
  - by rewrite app_nil_r.
  - destruct (Js.startsWith sep (c :: s)).
    + by rewrite app_nil_r.
    + rewrite (IH (cur ++ [c])), (IH [c]).
      destruct (Js.split_aux sep 0 [] s) as [|x rest]; [reflexivity|].
      by rewrite <- app_assoc.
Qed.

Lemma split_cons (sep : jsstr) (c : Z) (s : jsstr) :
  Js.split sep (c :: s) =
  if Js.startsWith sep (c :: s) then [] :: Js.split sep (drop (length sep - 1) s)
  else cons_head c (Js.split sep s).
Proof.
  unfold Js.split. cbn -[Js.startsWith].
  destruct (Js.startsWith sep (c :: s)).
  - by rewrite split_aux_skip.
  - rewrite split_aux_cur. unfold cons_head.
    by destruct (Js.split_aux sep 0 [] s).
Qed.

Lemma split_nonempty (sep s : jsstr) : Js.split sep s ≠ [].
Proof.
  destruct s as [|c s]; [discriminate|].
  rewrite split_cons. destruct (Js.startsWith sep (c :: s)); [discriminate|].
  unfold cons_head. by destruct (Js.split sep s).
Qed.

Lemma startsWith_length (p s : jsstr) : Js.startsWith p s = true → (length p ≤ length s)%nat.
Proof.
  intros H. destruct (startsWith_prefix _ _ H) as [post ->].
  rewrite length_app. lia.
Qed.

Lemma startsWith_app_l (p s t : jsstr) :
  Js.startsWith p s = true → Js.startsWith p (s ++ t) = true.
Proof.
  intros H. destruct (startsWith_prefix _ _ H) as [post ->].
  rewrite <- app_assoc. apply startsWith_app.
Qed.

(** A prefix test that fails on [s] but succeeds on [s ++ t] reaches into [t]. *)
Lemma startsWith_straddle (p s t : jsstr) :
  Js.startsWith p s = false → Js.startsWith p (s ++ t) = true → (length s < length p)%nat.
Proof.
  revert s. induction p as [|a p IH]; intros s Hs Hst; [discriminate|].
  destruct s as [|b s]; [cbn; lia|].
  cbn in Hs, Hst. destruct (bool_decide (a = b)); [|discriminate].
  cbn in Hs, Hst. specialize (IH s Hs Hst). cbn. lia.
Qed.

Lemma startsWith_short (p s : jsstr) : (length s < length p)%nat → Js.startsWith p s = false.
Proof.
  intros Hlen. destruct (Js.startsWith p s) eqn:E; [|reflexivity].
  apply startsWith_length in E. lia.
Qed.

(** A string shorter than the separator is a single piece. *)
Lemma split_short (sep s : jsstr) : (length s < length sep)%nat → Js.split sep s = [s].
Proof.
  induction s as [|c s IH]; intros Hlen; [reflexivity|].
  rewrite split_cons, (startsWith_short _ _ Hlen).
  rewrite IH by (cbn in Hlen; lia). reflexivity.
Qed.

Lemma join_cons_head (sep : jsstr) (c : Z) (pieces : list jsstr) :
  pieces ≠ [] → Js.join sep (cons_head c pieces) = c :: Js.join sep pieces.
Proof. destruct pieces as [|x [|y rest]]; [done|reflexivity|reflexivity]. Qed.

Lemma join_split_len (sep : jsstr) (n : nat) (s : jsstr) :
  sep ≠ [] → (length s < n)%nat → Js.join sep (Js.split sep s) = s.
Proof.
  intros Hsep. revert s. induction n as [|n IH]; intros s Hn; [lia|].
  destruct s as [|c s]; [reflexivity|].
  rewrite split_cons. destruct (Js.startsWith sep (c :: s)) eqn:E.
  - destruct (startsWith_prefix _ _ E) as [post Hpost].
    destruct sep as [|a sep]; [done|].
    cbn [app] in Hpost. injection Hpost as -> ->.
    cbn [length]. rewrite Nat.sub_succ, Nat.sub_0_r, drop_app_length.
    pose proof (split_nonempty (a :: sep) post) as Hne.
    assert (Hpost : Js.join (a :: sep) (Js.split (a :: sep) post) = post).
    { apply IH. cbn in Hn. rewrite length_app in Hn. lia. }
    destruct (Js.split (a :: sep) post) as [|x rest] eqn:Es; [done|].
    change (Js.join (a :: sep) ([] :: x :: rest))
      with ((a :: sep) ++ Js.join (a :: sep) (x :: rest)).
    by rewrite Hpost.
  - rewrite join_cons_head by apply split_nonempty.
    f_equal. apply IH. cbn in Hn. lia.
Qed.

(** Joining the pieces with the separator gives the string back. *)
Lemma join_split (sep s : jsstr) : sep ≠ [] → Js.join sep (Js.split sep s) = s.
Proof. intros Hsep. by apply (join_split_len sep (S (length s))); [|lia]. Qed.

Lemma split_single (sep s x : jsstr) : sep ≠ [] → Js.split sep s = [x] → x = s.
Proof. intros Hsep H. rewrite <- (join_split sep s Hsep), H. reflexivity. Qed.

Lemma removelast_cons_head (c : Z) (x y : jsstr) (rest : list jsstr) :
  removelast (cons_head c (x :: y :: rest)) = cons_head c (removelast (x :: y :: rest))
  ∧ List.last (cons_head c (x :: y :: rest)) [] = List.last (x :: y :: rest) [].
Proof. split; reflexivity. Qed.

Lemma split_app_len (sep : jsstr) (n : nat) (s t : jsstr) :
  sep ≠ [] → (length s < n)%nat →
  Js.split sep (s ++ t) =
  removelast (Js.split sep s) ++ Js.split sep (List.last (Js.split sep s) [] ++ t).
Proof.
  intros Hsep. revert s. induction n as [|n IH]; intros s Hn; [lia|].
  destruct s as [|c s]; [reflexivity|].
  destruct (Js.startsWith sep (c :: s)) eqn:E.
  - (* a separator starts here, inside [s] *)
    pose proof (startsWith_app_l _ _ t E) as Et. cbn [app] in Et |- *.
    rewrite !split_cons, Et, E.
    pose proof (startsWith_length _ _ E) as Hlen. cbn [length] in Hlen.
    rewrite drop_app_le by lia.
    rewrite IH by (rewrite length_drop; cbn in Hn; lia).
    pose proof (split_nonempty sep (drop (length sep - 1) s)) as Hne.
    destruct (Js.split sep (drop (length sep - 1) s)) as [|x rest]; [done|].
    reflexivity.
  - destruct (Js.startsWith sep ((c :: s) ++ t)) eqn:Et.
    + (* the separator reaches into [t]: [s] is one piece *)
      pose proof (startsWith_straddle _ _ _ E Et) as Hshort.
      by rewrite (split_short _ _ Hshort).
    + cbn [app] in Et |- *. rewrite !split_cons, Et, E.
      rewrite IH by (cbn in Hn; lia).
      destruct (Js.split sep s) as [|x [|y rest]] eqn:Es.
      * by destruct (split_nonempty sep s).
      * apply (split_single _ _ _ Hsep) in Es. subst x.
        cbn [cons_head removelast List.last app].
        by rewrite split_cons, Et.
      * destruct (removelast_cons_head c x y rest) as [-> ->].
        reflexivity.
Qed.

(** Text that arrives in two pieces splits as the whole does: all
    pieces but the last of the first text stand, and the last one is
    split again with what follows. *)
Lemma split_app (sep s t : jsstr) :
  sep ≠ [] →
  Js.split sep (s ++ t) =
  removelast (Js.split sep s) ++ Js.split sep (List.last (Js.split sep s) [] ++ t).
Proof. intros Hsep. by apply (split_app_len sep (S (length s))); [|lia]. Qed.

Lemma last_app_nonempty {A} (l l' : list A) (dflt : A) :
  l' ≠ [] → List.last (l ++ l') dflt = List.last l' dflt.
Proof.
  intros Hne. rewrite (app_removelast_last dflt Hne), app_assoc, !last_last. reflexivity.
Qed.

(** ** The relay and the cut of the backend's text into chunks *)

Section Relay.

Variable JSON_parse : jsstr → option sse_payload.

Lemma handle_part_with_buffer (b : jsstr) (st : relay_state) (part : jsstr) :
  handle_part JSON_parse (with_buffer b st) part = with_buffer b (handle_part JSON_parse st part).
Proof.
  unfold handle_part.
  destruct (find _ _) as [line|]; [|reflexivity].
  destruct (bool_decide _); [reflexivity|].
  destruct (JSON_parse _) as [payloadData|]; [|reflexivity].
  destruct (_ && _); destruct (Js.eqs _ _); reflexivity.
Qed.

Lemma fold_part_with_buffer (b : jsstr) (parts : list jsstr) (st : relay_state) :
  fold_left (handle_part JSON_parse) parts (with_buffer b st)
  = with_buffer b (fold_left (handle_part JSON_parse) parts st).
Proof.
  revert st. induction parts as [|p parts IH]; intros st; [reflexivity|].
  cbn [fold_left]. by rewrite handle_part_with_buffer, IH.
Qed.

Lemma handle_chunk_eq (st : relay_state) (text : jsstr) :
  handle_chunk JSON_parse st text =
  with_buffer (List.last (Js.split [10; 10] (buffer st ++ text)) [])
    (fold_left (handle_part JSON_parse) (removelast (Js.split [10; 10] (buffer st ++ text))) st).
Proof. unfold handle_chunk. by rewrite <- fold_part_with_buffer. Qed.

Lemma handle_chunk_app (st : relay_state) (c1 c2 : jsstr) :
  handle_chunk JSON_parse (handle_chunk JSON_parse st c1) c2
  = handle_chunk JSON_parse st (c1 ++ c2).
Proof.
  rewrite (handle_chunk_eq st (c1 ++ c2)), app_assoc, split_app by discriminate.
  rewrite removelast_app, last_app_nonempty by apply split_nonempty.
  rewrite fold_left_app.
  rewrite (handle_chunk_eq (handle_chunk _ _ _)).
  rewrite (handle_chunk_eq st c1) at 1 2 3.
  cbn [with_buffer buffer].
  rewrite fold_part_with_buffer. reflexivity.
Qed.

Lemma handle_chunk_concat (st : relay_state) (c : jsstr) (texts : list jsstr) :
  fold_left (handle_chunk JSON_parse) texts (handle_chunk JSON_parse st c)
  = handle_chunk JSON_parse st (c ++ concat texts).
Proof.
  revert c. induction texts as [|c' texts IH]; intros c.
  - cbn. by rewrite app_nil_r.
  - cbn [fold_left concat]. by rewrite handle_chunk_app, IH, app_assoc.
Qed.

(** X1.  The relay sees the backend's answer as one text: what it
    forwards, accumulates and keeps pending after a list of chunks is
    what it would after their concatenation arriving as one chunk. *)
Theorem relay_chunking (texts : list jsstr) :
  relay JSON_parse texts = relay JSON_parse [concat texts].
Proof.
  unfold relay. destruct texts as [|c texts]; [reflexivity|].
  cbn [fold_left concat]. apply handle_chunk_concat.
Qed.

End Relay.

(** ** Admission rules and their administration *)

Lemma find_snoc {A} (f : A → bool) (l : list A) (x : A) :
  find f (l ++ [x]) =
  match find f l with
  | Some y => Some y
  | None => if f x then Some x else None
  end.
Proof.
  induction l as [|y l IH]; cbn; [by destruct (f x)|].
  destruct (f y); [reflexivity|exact IH].
Qed.

Lemma find_append {A} (f : A → bool) (l l' : list A) :
  find f (l ++ l') =
  match find f l with
  | Some y => Some y
  | None => find f l'
  end.
Proof.
  induction l as [|y l IH]; cbn; [reflexivity|].
  destruct (f y); [reflexivity|exact IH].
Qed.

Lemma existsb_snoc {A} (f : A → bool) (l : list A) (x : A) :
  existsb f (l ++ [x]) = existsb f l || f x.
Proof. rewrite existsb_app. cbn. by rewrite orb_false_r. Qed.

Lemma find_none_existsb {A} (f : A → bool) (l : list A) :
  find f l = None ↔ existsb f l = false.
Proof.
  induction l as [|y l IH]; cbn; [done|].
  destruct (f y); cbn; [split; discriminate|exact IH].
Qed.

Lemma rule_matches_other (a a' kind : jsstr) (r : ip_rule) :
  rule_ip r = a → a' ≠ a → rule_matches a' kind r = false.
Proof.
  intros Hr Hne. unfold rule_matches.
  rewrite bool_decide_eq_false_2; [reflexivity|congruence].
Qed.

Lemma allows_rules (a date : jsstr) (d d' : db) :
  blocked a d' = blocked a d → configured_limit a d' = configured_limit a d →
  ip_requests d' = ip_requests d → allows a date d' = allows a date d.
Proof.
  intros Hb Hl Hr. unfold allows. rewrite !checkIpRules_eq, Hb, Hl.
  unfold counter. rewrite Hr.
  destruct (blocked a d); [reflexivity|].
  destruct (configured_limit a d) as [l|]; [|reflexivity].
  by destruct (l <=? _).
Qed.

Section Admission.

Variable cfg : config.
Variable JSON_parse : jsstr → option sse_payload.

(** X2.  Once an address is blocked, every chat request from it is
    answered 403 with code 9, without a backend call and with the store
    as it was, whatever limit rule or counter the address has; requests
    from other addresses are let in or refused as before. *)
Theorem block_takes_effect (a : jsstr) (d d' : db) :
  admin_block_ip (Some a) d = (d', Accepted) →
  (∀ t d'', ip_rules d'' = ip_rules d' → ip (turn_environment t) = a →
     serve cfg JSON_parse t d''
     = {| db_after := d''; resp := Json 403 9 msg_blocked; calls := [] |})
  ∧ (∀ a' date, a' ≠ a →
       allows a' date d' = allows a' date d
       ∧ configured_limit a' d' = configured_limit a' d
       ∧ counter a' date d' = counter a' date d).
Proof.
  unfold admin_block_ip. destruct a as [|c a]; [discriminate|].
  cbn [Js.truthy negb Js.or_else]. intros [= <-]. split.
  - intros t d'' Hr Ht. unfold serve, checkIpRules. rewrite Hr, Ht.
    cbn [ip_rules set_ip_rules]. rewrite existsb_snoc.
    unfold rule_matches at 2. cbn [rule_ip rule_type].
    rewrite !bool_decide_eq_true_2 by reflexivity.
    by rewrite orb_true_r.
  - intros a' date Hne.
    assert (Hb : blocked a' (set_ip_rules
                   (ip_rules d ++ [ {| rule_ip := c :: a; rule_type := lit "block";
                                       limit_value := None |} ]) d) = blocked a' d).
    { unfold blocked. cbn [ip_rules set_ip_rules]. rewrite existsb_snoc.
      rewrite (rule_matches_other (c :: a)) by done. by rewrite orb_false_r. }
    assert (Hl : configured_limit a' (set_ip_rules
                   (ip_rules d ++ [ {| rule_ip := c :: a; rule_type := lit "block";
                                       limit_value := None |} ]) d) = configured_limit a' d).
    { unfold configured_limit. cbn [ip_rules set_ip_rules]. rewrite find_snoc.
      rewrite (rule_matches_other (c :: a)) by done.
      by destruct (find _ (ip_rules d)). }
    split; [|split; [exact Hl|reflexivity]].
    by apply allows_rules.
Qed.

(** X3.  A limit posted for an address takes effect only if the address
    has no limit rule yet: the first rule stays the one in force.
    Block rules and the rules of other addresses are not affected. *)
Theorem limit_first_rule_wins (a : jsstr) (L : Z) (d d' : db) :
  admin_limit_ip (Some a) (Some L) d = (d', Accepted) →
  configured_limit a d' =
    (if existsb (rule_matches a (lit "limit")) (ip_rules d)
     then configured_limit a d else Some L)
  ∧ (∀ a', blocked a' d' = blocked a' d)
  ∧ (∀ a', a' ≠ a → configured_limit a' d' = configured_limit a' d).
Proof.
  unfold admin_limit_ip. destruct a as [|c a]; [discriminate|].
  cbn [Js.truthy negb Js.or_else Js.or0 default orb].
  destruct (decide (L = 0)) as [->|HL]; [discriminate|].
  rewrite (bool_decide_eq_false_2 _ HL). intros [= <-].
  split; [|split].
  - unfold configured_limit. cbn [ip_rules set_ip_rules]. rewrite find_snoc.
    destruct (find _ (ip_rules d)) as [r|] eqn:Hf.
    + destruct (existsb _ _) eqn:He; [reflexivity|].
      apply find_none_existsb in He. congruence.
    + rewrite (proj1 (find_none_existsb _ _) Hf).
      unfold rule_matches. cbn [rule_ip rule_type].
      rewrite !bool_decide_eq_true_2 by reflexivity. cbn.
      by rewrite (bool_decide_eq_false_2 _ HL).
  - intros a'. unfold blocked. cbn [ip_rules set_ip_rules]. rewrite existsb_snoc.
    unfold rule_matches at 2. cbn [rule_ip rule_type].
    rewrite (bool_decide_eq_false_2 (lit "limit" = lit "block")) by discriminate.
    by rewrite andb_false_r, orb_false_r.
  - intros a' Hne. unfold configured_limit. cbn [ip_rules set_ip_rules]. rewrite find_snoc.
    rewrite (rule_matches_other (c :: a)) by done.
    by destruct (find _ (ip_rules d)).
Qed.

Lemma serve_rules (t : turn) (d : db) :
  ip_rules (db_after (serve cfg JSON_parse t d)) = ip_rules d.
Proof.
  destruct (serve_cases cfg JSON_parse t d) as [(_ & -> & _)|(_ & reqs & ->)]; [reflexivity|].
  by rewrite (proj1 (handler_admission_tables cfg JSON_parse _ _ _)).
Qed.

(** A request changes no counter but that of its own address and day. *)
Lemma serve_counter_other (ipa date : jsstr) (t : turn) (d : db) :
  ip (turn_environment t) ≠ ipa ∨ admission_date (turn_environment t) ≠ date →
  counter ipa date (db_after (serve cfg JSON_parse t d)) = counter ipa date d.
Proof.
  intros Hne. unfold serve. rewrite checkIpRules_eq.
  destruct (blocked _ d); [reflexivity|].
  destruct (configured_limit _ d) as [l|].
  - destruct (l <=? _); [reflexivity|].
    unfold counter at 1.
    rewrite (proj2 (handler_admission_tables cfg JSON_parse _ _ _)).
    cbn [ip_requests set_ip_requests]. rewrite lookup_insert_ne; [reflexivity|].
    intros [= H1 H2]. tauto.
  - unfold counter.
    by rewrite (proj2 (handler_admission_tables cfg JSON_parse _ _ _)).
Qed.

(** X4.  In any sequential history, whatever other addresses and days
    it mixes in, the counter of a limited address for a day has grown by
    the number of requests made from that address on that day, capped at
    the limit. *)
Theorem counter_counts_own_requests (ipa date : jsstr) (L : Z) (ts : list turn) (d : db) :
  blocked ipa d = false →
  configured_limit ipa d = Some L →
  0 ≤ counter ipa date d ≤ L →
  counter ipa date (final_db cfg JSON_parse d ts)
  = Z.min (counter ipa date d + requests_from ipa date ts) L.
Proof.
  revert d. induction ts as [|t ts IH]; intros d Hb Hl Hc.
  - unfold requests_from. cbn. lia.
  - rewrite final_db_cons.
    pose proof (serve_rules t d) as Hr.
    assert (Hstep :
      counter ipa date (db_after (serve cfg JSON_parse t d))
      = if decide (ip (turn_environment t) = ipa ∧ admission_date (turn_environment t) = date)
        then (if L <=? counter ipa date d then counter ipa date d else counter ipa date d + 1)
        else counter ipa date d).
    { destruct (decide _) as [[H1 H2]|Hn].
      - exact (proj2 (serve_counter cfg JSON_parse ipa date L t d Hb Hl H1 H2)).
      - apply serve_counter_other.
        destruct (decide (ip (turn_environment t) = ipa)); [right|left]; tauto. }
    rewrite IH.
    + rewrite Hstep. unfold requests_from. rewrite filter_cons.
      destruct (decide _); cbn [length]; [destruct (Z.leb_spec L (counter ipa date d))|]; lia.
    + by rewrite (blocked_rules _ _ _ Hr).
    + by rewrite (configured_limit_rules _ _ _ Hr).
    + rewrite Hstep. destruct (decide _); [destruct (Z.leb_spec L (counter ipa date d))|]; lia.
Qed.

End Admission.

(** ** Daily metrics *)

Lemma keyword_step (date token : jsstr) (d : db) :
  match keywords_daily d !! (date, token) with
  | None => set_keywords_daily (<[(date, token) := 1]> (keywords_daily d)) d
  | Some count => set_keywords_daily (<[(date, token) := count + 1]> (keywords_daily d)) d
  end
  = set_keywords_daily
      (<[(date, token) := Js.or0 (keywords_daily d !! (date, token)) + 1]> (keywords_daily d)) d.
Proof. by destruct (keywords_daily d !! (date, token)). Qed.

Lemma keyword_fold (date : jsstr) (key : jsstr * jsstr) (tokens : list jsstr) (d : db) :
  let n := Z.of_nat (length (filter (λ x, (date, x) = key) tokens)) in
  keywords_daily
    (fold_left
       (λ d token,
          match keywords_daily d !! (date, token) with
          | None => set_keywords_daily (<[(date, token) := 1]> (keywords_daily d)) d
          | Some count =>
              set_keywords_daily (<[(date, token) := count + 1]> (keywords_daily d)) d
          end) tokens d) !! key
  = if decide (n = 0) then keywords_daily d !! key
    else Some (Js.or0 (keywords_daily d !! key) + n).
Proof.
  revert d. induction tokens as [|token tokens IH]; intros d; [reflexivity|].
  cbn [fold_left]. cbv zeta in IH |- *. rewrite IH, keyword_step, filter_cons.
  cbn [keywords_daily set_keywords_daily].
  destruct (decide ((date, token) = key)) as [<-|Hne].
  - rewrite lookup_insert_eq. cbn [length Js.or0 default].
    destruct (decide (Z.of_nat (S _) = 0)) as [H0|_]; [lia|].
    destruct (decide (Z.of_nat (length _) = 0)) as [H0|_]; unfold id; f_equal; lia.
  - by rewrite lookup_insert_ne.
Qed.

(** X5.  [updateKeywordMetric] raises the day's count of a word by the
    number of times the word stands among the first twelve white-space
    separated tokens of the text, a first sighting counting from zero;
    words that do not occur there and the counts of other days stay as
    they were. *)
Theorem keyword_counts (date text : jsstr) (d : db) (day w : jsstr) :
  let n := Z.of_nat (length (filter (λ x, x = w) (take 12 (Js.words text)))) in
  keywords_daily (updateKeywordMetric date text d) !! (day, w)
  = if decide (day = date ∧ n ≠ 0)
    then Some (Js.or0 (keywords_daily d !! (day, w)) + n)
    else keywords_daily d !! (day, w).
Proof.
  intros n. unfold updateKeywordMetric.
  rewrite (keyword_fold date (day, w)). cbv zeta.
  destruct (decide (day = date)) as [->|Hne].
  - assert (Hn : Z.of_nat (length (filter (λ x, (date, x) = (date, w)) (take 12 (Js.words text))))
                 = n).
    { unfold n. f_equal. f_equal. apply list_filter_iff. intros x. split; congruence. }
    rewrite Hn. clearbody n. repeat case_decide; try reflexivity; exfalso; tauto.
  - rewrite (filter_none (λ x, (date, x) = (day, w))).
    + change (Z.of_nat (length [])) with 0. clearbody n.
      rewrite (decide_True (P := 0 = 0)) by reflexivity.
      rewrite decide_False; [reflexivity|]. by intros [? _].
    + apply Forall_forall. intros x _ [= ? ?]. congruence.
Qed.

(** X6.  The day's row after one more request: the request count rises
    by one; the rounded running mean of the latency stays within any
    bounds that hold the old mean and the new latency, and is the new
    latency itself on the first request of the day; the token total
    grows by the usage reported; the peak is at least one and does not
    fall. *)
Theorem daily_mean_bounded (env : turn_env) (u : usage) (e : daily_row) (lo hi : Z) :
  0 ≤ total_requests e →
  lo ≤ avg_latency e ≤ hi →
  lo ≤ latency_ms env ≤ hi →
  let e' := daily_update env u e in
  total_requests e' = total_requests e + 1
  ∧ lo ≤ avg_latency e' ≤ hi
  ∧ (total_requests e = 0 → avg_latency e' = latency_ms env)
  ∧ token_total e' = token_total e + Js.or0 (total_tokens u)
  ∧ 1 ≤ concurrent_peak e'
  ∧ concurrent_peak e ≤ concurrent_peak e'.
Proof.
  intros Hn Ha Hl. cbn [daily_update total_requests avg_latency token_total concurrent_peak].
  unfold Js.round_div.
  split; [reflexivity|]. split; [|split; [|split; [reflexivity|lia]]].
  - split.
    + apply Z.div_le_lower_bound; nia.
    + apply Z.lt_succ_r, Z.div_lt_upper_bound; nia.
  - intros ->. rewrite Z.mul_0_r, !Z.add_0_l.
    replace (2 * latency_ms env + 1) with (1 + latency_ms env * (2 * 1)) by lia.
    rewrite Z.div_add by lia. reflexivity.
Qed.

(** ** The request and its prompt *)

(** X7.  The text that is checked, counted and stored as the user's turn
    is the content of the last message whose role is [user]: whatever
    stands after it in the request is passed over, and a request without
    such a message has the empty text. *)
Theorem last_user_message (rq : chat_request) :
  (∀ pre m post,
     messages_in rq = pre ++ m :: post →
     role m = lit "user" →
     Forall (λ x, role x ≠ lit "user") post →
     lastUser rq = Some m ∧ lastContent rq = content m)
  ∧ (Forall (λ x, role x ≠ lit "user") (messages_in rq) → lastContent rq = []).
Proof.
  assert (Hnone : ∀ l : list chat_message,
            Forall (λ x, role x ≠ lit "user") l →
            find (λ item, bool_decide (role item = lit "user")) l = None).
  { intros l Hl. apply find_none_existsb.
    induction Hl as [|x l Hx _ IH]; [reflexivity|].
    cbn. by rewrite (bool_decide_eq_false_2 _ Hx). }
  split.
  - intros pre m post Hm Hr Hpost.
    assert (Hu : lastUser rq = Some m).
    { unfold lastUser. rewrite Hm, rev_app_distr. cbn [rev]. rewrite <- app_assoc.
      rewrite find_append, Hnone by (by apply Forall_rev).
      cbn. by rewrite (bool_decide_eq_true_2 _ Hr). }
    split; [exact Hu|]. unfold lastContent. by rewrite Hu.
  - intros Hall. unfold lastContent, lastUser.
    by rewrite Hnone by (by apply Forall_rev).
Qed.

Lemma filter_Boolean_some (a : jsstr) (l : list (option jsstr)) :
  a ≠ [] → filter_Boolean (Some a :: l) = a :: filter_Boolean l.
Proof. intros Ha. by destruct a. Qed.

Lemma filter_Boolean_time (o1 o2 : option jsstr) (time : jsstr) (l : list (option jsstr)) :
  ∃ x more, filter_Boolean (o1 :: o2 :: Some (label_time ++ time) :: l) = x :: more.
Proof.
  unfold filter_Boolean. cbn [flat_map].
  destruct (Js.truthy o1); [by eexists _, _|].
  destruct (Js.truthy o2); [by eexists _, _|].
  by eexists _, _.
Qed.

Lemma join_cons2 (sep x y : jsstr) (rest : list jsstr) :
  Js.join sep (x :: y :: rest) = x ++ sep ++ Js.join sep (y :: rest).
Proof. reflexivity. Qed.

(** X8.  The system message never exceeds a budget that is not
    negative, and under a budget of 150 code units or more it begins
    with the four directives in full: the cut falls on the profile,
    time and persona lines only. *)
Theorem prompt_keeps_directives (rq : chat_request) (env : turn_env) (d : db) :
  let budget := getPromptLimit (Js.or_else (model rq) (lit "normal")) d in
  (0 ≤ budget → Z.of_nat (length (systemPrompt rq env d)) ≤ budget)
  ∧ (150 ≤ budget →
     ∃ rest, systemPrompt rq env d =
             Js.join [10] [directive_compliance; directive_roleplay; directive_no_meta;
                           directive_brevity] ++ rest).
Proof.
  intros budget. split.
  - intros Hb. unfold systemPrompt. fold budget. rewrite cut_prompt_take by done.
    rewrite length_take. lia.
  - intros Hb. unfold systemPrompt. fold budget. rewrite cut_prompt_take by lia.
    assert (Hsplit : ∃ tail,
              assemble_prompt rq env d =
              Js.join [10] [directive_compliance; directive_roleplay; directive_no_meta;
                            directive_brevity] ++ tail).
    { unfold assemble_prompt.
      rewrite !filter_Boolean_some by discriminate.
      destruct (filter_Boolean_time
                  (if Js.truthy (profile_username (userProfile rq))
                   then Some (label_username ++ Js.or_else (profile_username (userProfile rq)) [])
                   else None)
                  (if Js.truthy (profile_region (userProfile rq))
                   then Some (label_region ++ Js.or_else (profile_region (userProfile rq)) [])
                   else None)
                  (local_time env)
                  [ Some (label_persona ++ persona_name (activePersona rq d));
                    (if Js.nonempty (persona_prompt (activePersona rq d))
                     then Some (label_persona_prompt ++ persona_prompt (activePersona rq d))
                     else None) ]) as (x & more & ->).
      rewrite !join_cons2. exists ([10] ++ Js.join [10] (x :: more)).
      cbn [Js.join]. by rewrite <- !app_assoc. }
    destruct Hsplit as [tail ->].
    assert (Hlen : length (Js.join [10] [directive_compliance; directive_roleplay;
                                         directive_no_meta; directive_brevity]) = 150%nat)
      by (vm_compute; reflexivity).
    rewrite take_app_ge by (rewrite Hlen; lia).
    eexists. reflexivity.
Qed.

(** ** Reading a conversation back *)

Lemma insert_perm (x : message_row) (l : list message_row) :
  insert_by_created_at x l ≡ₚ x :: l.
Proof.
  induction l as [|y l IH]; [reflexivity|]. cbn.
  destruct (_ <=? _); [reflexivity|]. rewrite IH. apply Permutation_swap.
Qed.

Lemma order_perm (l : list message_row) : order_by_created_at l ≡ₚ l.
Proof.
  induction l as [|x l IH]; [reflexivity|]. cbn. rewrite insert_perm. by rewrite IH.
Qed.

(** X9.  The listing of a conversation holds the rows stored under its
    identifier, each as often as it is stored and no other row, in the
    order of their creation times; the answer is 404 exactly when the
    conversation itself has no row, whatever messages there are. *)
Theorem conversation_listing (id : jsstr) (d : db) :
  messages_of id d ≡ₚ filter (λ m, conversation_id m = id) (messages d)
  ∧ StronglySorted earlier (messages_of id d)
  ∧ (∀ m, m ∈ messages_of id d ↔ m ∈ messages d ∧ conversation_id m = id)
  ∧ (get_conversation id d = None ↔ conversations d !! id = None)
  ∧ (∀ conversation rows,
       get_conversation id d = Some (conversation, rows) ↔
       conversations d !! id = Some conversation ∧ rows = messages_of id d).
Proof.
  split; [apply order_perm|]. split; [apply order_sorted|]. split; [|split].
  - intros m. unfold messages_of. rewrite order_perm, list_elem_of_filter. tauto.
  - unfold get_conversation. destruct (conversations d !! id); [split; discriminate|done].
  - intros conversation rows. unfold get_conversation.
    destruct (conversations d !! id) as [c|].
    + split; [intros [= <- <-]; done|intros [[= <-] ->]; done].
    + split; [discriminate|intros [? _]; discriminate].
Qed.

Section Turns.

Variable cfg : config.
Variable JSON_parse : jsstr → option sse_payload.

(** X10.  A completed turn sent under the identifier of a stored
    conversation leaves the conversation table as it is, so the row
    keeps its owner, persona and tier whoever the caller is, and the
    rows it appends carry that identifier. *)
Theorem conversation_row_kept (t : turn) (d : db) (c : jsstr) (row : conversation_row) :
  let rq := turn_request t in
  let env := turn_environment t in
  let r := serve cfg JSON_parse t d in
  completed r = true →
  conversationId rq = Some c → c ≠ [] →
  conversations d !! c = Some row →
  conversations (db_after r) = conversations d
  ∧ ∃ rows, messages (db_after r) = messages d ++ rows
            ∧ rows ≠ []
            ∧ Forall (λ m, conversation_id m = c) rows.
Proof.
  intros rq env r Hc Hid Hne Hrow.
  destruct (serve_completed cfg JSON_parse t d Hc)
    as (reqs & stream & em & tr & kw & _ & _ & _ & _ & Hdb & _).
  fold r in Hdb. rewrite Hdb.
  assert (Hconv : convId (turn_request t) (turn_environment t) = c).
  { unfold convId. fold rq. rewrite Hid. by destruct c. }
  cbn [conversations messages set_ip_requests accounted]. rewrite Hconv, Hrow.
  split; [reflexivity|]. eexists. split; [reflexivity|]. split.
  - unfold new_messages. by destruct (Js.nonempty _).
  - unfold new_messages. apply Forall_app. split.
    + destruct (Js.nonempty _); [|constructor].
      constructor; [|constructor]. exact Hconv.
    + constructor; [|constructor]. exact Hconv.
Qed.

(** X11.  No chat request, however it ends, changes the moderation
    list, the tier-to-model table, the prompt budgets, the personas or
    the address rules. *)
Theorem reference_tables_untouched (t : turn) (d : db) :
  let r := serve cfg JSON_parse t d in
  sensitive_words (db_after r) = sensitive_words d
  ∧ models (db_after r) = models d
  ∧ prompt_limits (db_after r) = prompt_limits d
  ∧ personas (db_after r) = personas d
  ∧ ip_rules (db_after r) = ip_rules d.
Proof.
  intros r. unfold r.
  destruct (serve_cases cfg JSON_parse t d) as [(_ & -> & _)|(_ & reqs & ->)]; [done|].
  destruct (handler_store cfg JSON_parse (turn_request t) (turn_environment t)
              (set_ip_requests reqs d)) as [->|(_ & u & tr & kw & msgs & logs & ->)]; done.
Qed.

(** X12.  When the call to the backend fails outright, or reading its
    body breaks off before the end, the turn stores nothing beyond the
    address counter raised on entry: no message, no quota change, no
    metrics, no audit row.  The caller gets 500 with code 5 if no frame
    had been forwarded, and otherwise keeps the frames already sent on a
    stream that is not ended. *)
Theorem failure_before_commit (t : turn) (d d1 : db) :
  let rq := turn_request t in
  let env := turn_environment t in
  checkIpRules (ip env) (admission_date env) d = Allowed d1 →
  guards cfg rq d1 = None →
  (backend env = FetchRejects →
   serve cfg JSON_parse t d
   = {| db_after := d1; resp := Json 500 5 msg_service; calls := [payload cfg rq env d1] |})
  ∧ (∀ stream em,
       backend env = FetchResolves true (Some stream) em → breaks stream = true →
       serve cfg JSON_parse t d
       = {| db_after := d1;
            resp := match written (relay JSON_parse (chunks stream)) with
                    | [] => Json 500 5 msg_service
                    | ev :: evs => Stream (ev :: evs) false
                    end;
            calls := [payload cfg rq env d1] |})
  ∧ ∃ reqs, d1 = set_ip_requests reqs d.
Proof.
  intros rq env Ha Hg. split; [|split].
  - intros Hb. unfold serve. fold env rq. rewrite Ha. unfold chat_handler.
    by rewrite Hg, Hb.
  - intros stream em Hb Hbr. unfold serve. fold env rq. rewrite Ha. unfold chat_handler.
    rewrite Hg, Hb, Hbr. unfold on_catch. by destruct (written _).
  - by apply checkIpRules_frame in Ha.
Qed.

End Turns.

(** ** Identities and their balances *)

Lemma find_map_stable {A} (p : A → bool) (g : A → A) (l : list A) :
  (∀ x, p (g x) = p x) → find p (map g l) = g <$> find p l.
Proof.
  intros Hp. induction l as [|x l IH]; [reflexivity|].
  cbn. rewrite Hp. destruct (p x); [reflexivity|exact IH].
Qed.

Lemma find_filter_other {A} (p : A → bool) (Q : A → Prop) `{∀ x, Decision (Q x)} (l : list A) :
  (∀ x, p x = true → Q x) → find p (filter Q l) = find p l.
Proof.
  intros HpQ. induction l as [|x l IH]; [reflexivity|].
  rewrite filter_cons. destruct (decide (Q x)) as [HQ|HQ]; cbn.
  - destruct (p x); [reflexivity|exact IH].
  - destruct (p x) eqn:Hpx; [by destruct HQ; apply HpQ|exact IH].
Qed.

Lemma find_filter_none {A} (p : A → bool) (Q : A → Prop) `{∀ x, Decision (Q x)} (l : list A) :
  (∀ x, p x = true → ¬ Q x) → find p (filter Q l) = None.
Proof.
  intros HpQ. induction l as [|x l IH]; [reflexivity|].
  rewrite filter_cons. destruct (decide (Q x)) as [HQ|HQ]; [|exact IH].
  cbn. destruct (p x) eqn:Hpx; [by destruct (HpQ x Hpx)|exact IH].
Qed.

Lemma find_by_id_unique (us : list user_row) (usr : user_row) :
  NoDup (map user_id us) → usr ∈ us →
  find (λ u, bool_decide (user_id u = user_id usr)) us = Some usr.
Proof.
  intros Hnd Hin. destruct (find _ us) as [x|] eqn:Hf.
  - apply find_some in Hf as [Hx Hid]. apply bool_decide_eq_true in Hid.
    f_equal. apply (NoDup_map_inj user_id us); [done|by apply list_elem_of_In|done|done].
  - apply find_none with (x := usr) in Hf; [|by apply list_elem_of_In].
    by rewrite bool_decide_eq_true_2 in Hf.
Qed.

Lemma map_update_stable {B} (proj : user_row → B) (f : user_row → user_row) (uid : jsstr)
    (us : list user_row) :
  (∀ x, proj (f x) = proj x) →
  map proj (map (λ x, if bool_decide (user_id x = uid) then f x else x) us) = map proj us.
Proof.
  intros Hf. rewrite map_map. apply map_ext. intros x.
  by destruct (bool_decide _).
Qed.

Lemma charge_quota_tokens (rq : chat_request) (user : option user_row) (d : db) :
  map token (users (charge_quota rq user d)) = map token (users d).
Proof.
  destruct user as [usr|]; [|reflexivity]. unfold charge_quota.
  destruct (Js.eqs (model rq) (lit "enhanced")); destruct (Js.eqs (model rq) (lit "pro"));
    unfold update_quota_pro, update_quota_enhanced; cbn [users set_users];
    rewrite ?(map_update_stable token); reflexivity.
Qed.

Lemma charge_quota_find (rq : chat_request) (usr : user_row) (d : db) :
  NoDup (map user_id (users d)) → usr ∈ users d →
  find_user_by_id (user_id usr) (charge_quota rq (Some usr) d)
  = Some {| user_id := user_id usr; token := token usr; tag := tag usr;
            quota_enhanced :=
              quota_enhanced usr - (if Js.eqs (model rq) (lit "enhanced") then 1 else 0);
            quota_pro := quota_pro usr - (if Js.eqs (model rq) (lit "pro") then 1 else 0) |}.
Proof.
  intros Hnd Hin. pose proof (find_by_id_unique _ _ Hnd Hin) as Hf.
  unfold find_user_by_id, charge_quota, Js.eqs.
  destruct (decide (model rq = Some (lit "enhanced"))) as [He|He];
    destruct (decide (model rq = Some (lit "pro"))) as [Hp|Hp];
    try (rewrite He in Hp; discriminate);
    rewrite ?(bool_decide_eq_true_2 _ He), ?(bool_decide_eq_false_2 _ He),
            ?(bool_decide_eq_true_2 _ Hp), ?(bool_decide_eq_false_2 _ Hp);
    unfold update_quota_pro, update_quota_enhanced; cbn [users set_users].
  - rewrite find_map_stable, Hf
      by (intros x; destruct (bool_decide (user_id x = _)) eqn:E; cbn; rewrite ?E; reflexivity).
    cbn. rewrite bool_decide_eq_true_2 by reflexivity. by rewrite Z.sub_0_r.
  - rewrite find_map_stable, Hf
      by (intros x; destruct (bool_decide (user_id x = _)) eqn:E; cbn; rewrite ?E; reflexivity).
    cbn. rewrite bool_decide_eq_true_2 by reflexivity. by rewrite Z.sub_0_r.
  - rewrite Hf, !Z.sub_0_r. by destruct usr.
Qed.

Section Identities.

Variable cfg : config.
Variable JSON_parse : jsstr → option sse_payload.

(** X13.  The terminal frame of a completed turn reports the caller's
    balances as they stand after the turn: the stored ones, the tier
    that was used lowered by one; a caller without identity is shown the
    default quotas. *)
Theorem done_frame_balance (t : turn) (d : db) :
  let rq := turn_request t in
  let r := serve cfg JSON_parse t d in
  completed r = true →
  NoDup (map user_id (users d)) →
  ∃ evs prompt completion total,
    resp r =
    Stream
      (evs ++
       [EvDone prompt completion total
          (match resolve_user rq d with
           | Some usr =>
               if Js.nonempty (user_id usr)
               then quota_enhanced usr - (if Js.eqs (model rq) (lit "enhanced") then 1 else 0)
               else defaultQuotas_enhanced cfg
           | None => defaultQuotas_enhanced cfg
           end)
          (match resolve_user rq d with
           | Some usr =>
               if Js.nonempty (user_id usr)
               then quota_pro usr - (if Js.eqs (model rq) (lit "pro") then 1 else 0)
               else defaultQuotas_pro cfg
           | None => defaultQuotas_pro cfg
           end)]) true.
Proof.
  intros rq r Hc Hnd.
  destruct (serve_completed cfg JSON_parse t d Hc)
    as (reqs & stream & em & tr & kw & _ & _ & _ & _ & Hdb & Hresp & _).
  fold r rq in Hdb, Hresp. rewrite Hresp. eexists _, _, _, _. f_equal. f_equal. f_equal.
  unfold done_event. 
  assert (Hus : ∀ uid, find_user_by_id uid (db_after r)
                       = find_user_by_id uid (charge_quota rq (resolve_user rq d) d)).
  { intros uid. unfold find_user_by_id. by rewrite Hdb. }
  destruct (resolve_user rq d) as [usr|] eqn:Hres; [|reflexivity].
  cbn [userId]. destruct (Js.nonempty (user_id usr)); [|reflexivity].
  rewrite Hus, charge_quota_find; [reflexivity|done|].
  by destruct (resolve_user_spec rq d usr Hres) as (_ & _ & ? & _).
Qed.

(** X14.  A word added by the administrator is screened from then on:
    every text that holds it is flagged, texts flagged before stay
    flagged, and a request whose last user message holds it is rejected
    with code 2 unless the caller is trusted. *)
Theorem word_added_takes_effect (w : jsstr) (d d' : db) :
  admin_add_word (Some w) d = Some d' →
  (∀ text, checkSensitive text d = true → checkSensitive text d' = true)
  ∧ (∀ text, occurs_in w text → checkSensitive text d' = true)
  ∧ (∀ rq, occurs_in w (lastContent rq) →
       userTag (resolve_user rq d') ≠ lit "trusted" →
       guards cfg rq d' = Some (Json 400 2 msg_sensitive)).
Proof.
  unfold admin_add_word. destruct w as [|c w]; [discriminate|].
  cbn [Js.truthy Js.or_else]. intros [= <-].
  assert (Hnew : ∀ text, occurs_in (c :: w) text →
            checkSensitive text (set_sensitive_words (sensitive_words d ++ [c :: w]) d) = true).
  { intros text Hocc. apply checkSensitive_true. exists (c :: w).
    cbn [sensitive_words set_sensitive_words]. split; [|done].
    apply elem_of_app. right. by apply list_elem_of_singleton. }
  split; [|split].
  - intros text Hf. apply checkSensitive_true in Hf as (x & Hx & Hne & Hocc).
    apply checkSensitive_true. exists x. cbn [sensitive_words set_sensitive_words].
    split; [|done]. apply elem_of_app. by left.
  - exact Hnew.
  - intros rq Hocc Htag. unfold guards. rewrite (Hnew _ Hocc).
    by rewrite (bool_decide_eq_false_2 _ Htag).
Qed.

(** X15.  Logging in under a token never seen creates an identity with
    the default quotas and no tag; logging in again, under any fresh
    identifier drawn, returns that same identity and balances and
    changes nothing; the identities of other tokens are not affected. *)
Theorem login_creates_once (tok nid : jsstr) (d d' : db) (uid : jsstr) (qe qp : Z) :
  auth_login cfg (Some tok) nid d = (d', LoginOk uid qe qp) →
  (∃ usr, find_user_by_token tok d' = Some usr
          ∧ user_id usr = uid ∧ quota_enhanced usr = qe ∧ quota_pro usr = qp
          ∧ (find_user_by_token tok d = None →
             uid = nid ∧ tag usr = []
             ∧ qe = defaultQuotas_enhanced cfg ∧ qp = defaultQuotas_pro cfg))
  ∧ (∀ nid', auth_login cfg (Some tok) nid' d' = (d', LoginOk uid qe qp))
  ∧ (∀ tok', tok' ≠ tok → find_user_by_token tok' d' = find_user_by_token tok' d)
  ∧ (∀ rq, userToken rq = Some tok → ∃ usr, resolve_user rq d' = Some usr ∧ user_id usr = uid).
Proof.
  unfold auth_login. destruct tok as [|c tok]; [discriminate|].
  cbn [Js.truthy negb Js.or_else].
  destruct (find_user_by_token (c :: tok) d) as [usr|] eqn:Hf.
  - intros [= <- <- <- <-]. split; [|split; [|split]].
    + exists usr. rewrite Hf. split_and!; try reflexivity. discriminate.
    + intros nid'. by rewrite Hf.
    + done.
    + intros rq Htok. exists usr. unfold resolve_user. rewrite Htok. cbn. by rewrite Hf.
  - destruct (existsb _ (users d)) eqn:Hex; [discriminate|].
    intros [= <- <- <- <-].
    assert (Hnew : find_user_by_token (c :: tok)
                     (set_users (users d ++
                        [ {| user_id := nid; token := c :: tok; tag := [];
                             quota_enhanced := defaultQuotas_enhanced cfg;
                             quota_pro := defaultQuotas_pro cfg |} ]) d)
                   = Some {| user_id := nid; token := c :: tok; tag := [];
                             quota_enhanced := defaultQuotas_enhanced cfg;
                             quota_pro := defaultQuotas_pro cfg |}).
    { unfold find_user_by_token in *. cbn [users set_users]. rewrite find_snoc, Hf.
      cbn. by rewrite bool_decide_eq_true_2. }
    split; [|split; [|split]].
    + eexists. split; [exact Hnew|]. by split_and!.
    + intros nid'. by rewrite Hnew.
    + intros tok' Hne. unfold find_user_by_token. cbn [users set_users].
      rewrite find_snoc. cbn. rewrite (bool_decide_eq_false_2 (c :: tok = tok')) by done.
      by destruct (find _ (users d)).
    + intros rq Htok. eexists. unfold resolve_user. rewrite Htok.
      cbn [Js.truthy Js.or_else]. by rewrite Hnew.
Qed.

End Identities.

(** ** Administration of identities *)

Lemma find_map_fixed {A} (p : A → bool) (g : A → A) (l : list A) :
  (∀ x, p (g x) = p x) → (∀ x, p x = true → g x = x) →
  find p (map g l) = find p l.
Proof.
  intros Hp Hg. rewrite find_map_stable by done.
  destruct (find p l) as [x|] eqn:Hf; [|reflexivity].
  apply find_some in Hf as [_ Hx]. cbn. by rewrite Hg.
Qed.

Lemma find_by_id_id (id : jsstr) (d : db) (usr : user_row) :
  find_user_by_id id d = Some usr → user_id usr = id ∧ usr ∈ users d.
Proof.
  intros Hf. apply find_some in Hf as [Hin Hid].
  apply bool_decide_eq_true in Hid. split; [done|by apply list_elem_of_In].
Qed.

Lemma unique_snoc (us : list user_row) (row : user_row) :
  NoDup (map user_id us) → NoDup (map token us) →
  existsb (λ u, bool_decide (user_id u = user_id row)) us = false →
  existsb (λ u, bool_decide (token u = token row)) us = false →
  NoDup (map user_id (us ++ [row])) ∧ NoDup (map token (us ++ [row])).
Proof.
  intros Hid Htok Hnid Hntok.
  apply existsb_false_not_in in Hnid, Hntok.
  rewrite !map_app. cbn [map]. split; apply NoDup_app.
  - split; [done|]. split; [|apply NoDup_singleton].
    intros x Hx Hx'. apply list_elem_of_singleton in Hx'. by subst.
  - split; [done|]. split; [|apply NoDup_singleton].
    intros x Hx Hx'. apply list_elem_of_singleton in Hx'. by subst.
Qed.

Lemma unique_filter {B} (proj : user_row → B) (Q : user_row → Prop) `{∀ x, Decision (Q x)}
    (us : list user_row) :
  NoDup (map proj us) → NoDup (map proj (filter Q us)).
Proof.
  intros Hnd. apply (sublist_NoDup _ (map proj us)); [done|].
  apply (fmap_sublist proj), sublist_filter.
Qed.

Lemma delete_messages_fold (convs : list jsstr) (d : db) :
  fold_left
    (λ d conv, set_messages (filter (λ m, conversation_id m ≠ conv) (messages d)) d) convs d
  = set_messages (filter (λ m, conversation_id m ∉ convs) (messages d)) d.
Proof.
  revert d. induction convs as [|c convs IH]; intros d.
  - cbn [fold_left]. rewrite filter_all; [by destruct d|].
    apply Forall_forall. intros m _. apply not_elem_of_nil.
  - cbn [fold_left]. rewrite IH. cbn [messages set_messages].
    rewrite list_filter_filter. unfold set_messages. cbn. f_equal.
    apply list_filter_iff. intros m. rewrite not_elem_of_cons. tauto.
Qed.

Lemma delete_user_eq (uid : jsstr) (d : db) :
  admin_delete_user uid d =
  set_users (filter (λ u, user_id u ≠ uid) (users d))
    (set_conversations (filter (λ kv, conv_user_id kv.2 ≠ Some uid) (conversations d))
       (set_messages (filter (λ m, owner_of m d ≠ Some uid) (messages d)) d)).
Proof.
  unfold admin_delete_user. rewrite delete_messages_fold.
  cbn [users conversations set_messages set_conversations].
  f_equal. f_equal. f_equal. apply list_filter_iff. intros m.
  unfold owner_of. rewrite list_elem_of_fmap. split.
  - intros Hn Ho. apply Hn.
    destruct (conversations d !! conversation_id m) as [conv|] eqn:Hc; [|discriminate].
    exists (conversation_id m, conv). split; [reflexivity|].
    apply elem_of_map_to_list. apply map_lookup_filter_Some. done.
  - intros Ho ([k conv] & Hk & Hin). apply Ho.
    apply elem_of_map_to_list, map_lookup_filter_Some in Hin as [Hc Hown].
    cbn [fst snd] in *. rewrite Hk, Hc. exact Hown.
Qed.

Section Accounts.

Variable cfg : config.
Variable JSON_parse : jsstr → option sse_payload.

(** X16.  Every route that writes the [users] table keeps both of its
    uniqueness constraints: no two rows share an identifier or a token
    after a login, an administrative creation that does not throw, an
    update, a recharge, a deletion, or a chat request. *)
Theorem users_stay_unique (d : db) :
  users_unique d →
  (∀ tok nid, users_unique (auth_login cfg tok nid d).1)
  ∧ (∀ uid nid tg qe qp d',
       admin_create_user uid nid tg qe qp d = Some d' → users_unique d')
  ∧ (∀ id tg qe qp, users_unique (admin_update_user id tg qe qp d))
  ∧ (∀ id e p, users_unique (admin_recharge id e p d).1)
  ∧ (∀ id, users_unique (admin_delete_user id d))
  ∧ (∀ t, users_unique (db_after (serve cfg JSON_parse t d))).
Proof.
  intros [Hid Htok]. split_and!.
  - intros tok nid. unfold auth_login.
    destruct (negb (Js.truthy tok)); [done|].
    destruct (find_user_by_token _ d) eqn:Hf; [done|].
    destruct (existsb _ (users d)) eqn:Hex; [done|].
    apply unique_snoc; try done. by apply find_none_existsb.
  - intros uid nid tg qe qp d'. unfold admin_create_user.
    destruct (_ || _) eqn:Hex; [discriminate|]. intros [= <-].
    apply orb_false_elim in Hex as [H1 H2]. by apply unique_snoc.
  - intros id tg qe qp. unfold users_unique, admin_update_user. cbn [users set_users].
    by rewrite !map_update_stable.
  - intros id e p. unfold admin_recharge.
    destruct (find_user_by_id id d); [|done].
    unfold users_unique. cbn [fst users set_users]. by rewrite !map_update_stable.
  - intros id. rewrite delete_user_eq. unfold users_unique. cbn [users set_users].
    split; by apply unique_filter.
  - intros t. unfold users_unique.
    destruct (serve_users cfg JSON_parse t d) as (_ & _ & [->|[_ ->]]); [done|].
    by rewrite charge_quota_ids, charge_quota_tokens.
Qed.

(** X17.  A recharge adds the two amounts to the stored balances of the
    identity and answers with the sums; a missing amount adds nothing,
    an unknown identifier is answered 404 with nothing changed, and no
    other identity is touched.  A caller whose balance for a tier is
    positive after it passes the quota guard of that tier. *)
Theorem recharge_adds (id : jsstr) (e p : option Z) (d : db) :
  (find_user_by_id id d = None → admin_recharge id e p d = (d, None))
  ∧ (∀ usr, find_user_by_id id d = Some usr →
       let out := admin_recharge id e p d in
       out.2 = Some (quota_enhanced usr + Js.or0 e, quota_pro usr + Js.or0 p)
       ∧ find_user_by_id id out.1
         = Some {| user_id := id; token := token usr; tag := tag usr;
                   quota_enhanced := quota_enhanced usr + Js.or0 e;
                   quota_pro := quota_pro usr + Js.or0 p |}
       ∧ (∀ id', id' ≠ id → find_user_by_id id' out.1 = find_user_by_id id' d)
       ∧ (∀ rq q,
            resolve_user rq d = Some usr →
            model rq = Some (tier_name q) →
            checkSensitive (lastContent rq) d = false →
            apiKey cfg ≠ [] →
            0 < quota q usr + Js.or0 (match q with Enhanced => e | Pro => p end) →
            guards cfg rq out.1 = None)).
Proof.
  unfold admin_recharge. split; [by intros ->|].
  intros usr Hf. rewrite Hf. cbn [fst snd]. cbv zeta.
  destruct (find_by_id_id _ _ _ Hf) as [Hid _].
  split; [reflexivity|]. split; [|split].
  - unfold find_user_by_id in *. cbn [users set_users].
    rewrite find_map_stable, Hf
      by (intros x; destruct (bool_decide (user_id x = _)) eqn:E; cbn; rewrite ?E; reflexivity).
    cbn. by rewrite Hid, bool_decide_eq_true_2.
  - intros id' Hne. unfold find_user_by_id. cbn [users set_users].
    apply find_map_fixed.
    + intros x. by destruct (bool_decide (user_id x = id)).
    + intros x Hx. apply bool_decide_eq_true in Hx.
      rewrite bool_decide_eq_false_2; [reflexivity|congruence].
  - intros rq q Hres Hm Hs Hk Hpos.
    assert (Hres' :
      resolve_user rq
        (set_users
           (map (λ u, if bool_decide (user_id u = id)
                      then {| user_id := user_id u; token := token u; tag := tag u;
                              quota_enhanced := quota_enhanced usr + Js.or0 e;
                              quota_pro := quota_pro usr + Js.or0 p |}
                      else u) (users d)) d)
      = Some {| user_id := user_id usr; token := token usr; tag := tag usr;
                quota_enhanced := quota_enhanced usr + Js.or0 e;
                quota_pro := quota_pro usr + Js.or0 p |}).
    { unfold resolve_user, find_user_by_token in *.
      destruct (Js.truthy (userToken rq)); [|discriminate].
      cbn [users set_users].
      rewrite (find_update
                 (λ u, {| user_id := user_id u; token := token u; tag := tag u;
                          quota_enhanced := quota_enhanced usr + Js.or0 e;
                          quota_pro := quota_pro usr + Js.or0 p |}) id _ _ usr) by done.
      by rewrite (bool_decide_eq_true_2 _ Hid). }
    unfold guards. rewrite Hres'.
    change (checkSensitive (lastContent rq) (set_users ?us d))
      with (checkSensitive (lastContent rq) d).
    rewrite Hs. cbn [andb is_some negb quota_enhanced quota_pro].
    destruct (apiKey cfg) as [|k ks]; [done|]. cbn [Js.nonempty negb].
    rewrite andb_false_r. unfold Js.eqs. rewrite Hm.
    destruct q; cbn [tier_name quota] in *.
    + rewrite (bool_decide_eq_true_2 (Some (lit "enhanced") = Some (lit "enhanced")))
        by reflexivity.
      rewrite (bool_decide_eq_false_2 (Some (lit "enhanced") = Some (lit "pro")))
        by discriminate.
      cbn [andb]. destruct (Z.leb_spec (quota_enhanced usr + Js.or0 e) 0); [lia|reflexivity].
    + rewrite (bool_decide_eq_false_2 (Some (lit "pro") = Some (lit "enhanced")))
        by discriminate.
      rewrite (bool_decide_eq_true_2 (Some (lit "pro") = Some (lit "pro"))) by reflexivity.
      cbn [andb]. destruct (Z.leb_spec (quota_pro usr + Js.or0 p) 0); [lia|reflexivity].
Qed.

(** X18.  An administrative update overwrites the tag and both balances
    of the identity and leaves its token and every other identity alone;
    balances left out of the update become zero.  Afterwards a caller
    tagged [trusted] is never rejected by the input check, and a caller
    whose enhanced balance was left out is not let through on the
    enhanced tier. *)
Theorem update_user_effect (id : jsstr) (tg : option jsstr) (qe qp : option Z)
    (d : db) (usr : user_row) :
  find_user_by_id id d = Some usr →
  let d' := admin_update_user id tg qe qp d in
  find_user_by_id id d'
  = Some {| user_id := id; token := token usr; tag := Js.or_else tg [];
            quota_enhanced := Js.or0 qe; quota_pro := Js.or0 qp |}
  ∧ (∀ id', id' ≠ id → find_user_by_id id' d' = find_user_by_id id' d)
  ∧ (∀ rq, resolve_user rq d = Some usr →
       (tg = Some (lit "trusted") → ∀ status message,
          guards cfg rq d' ≠ Some (Json status 2 message))
       ∧ (qe = None → model rq = Some (lit "enhanced") → guards cfg rq d' ≠ None)).
Proof.
  intros Hf d'. destruct (find_by_id_id _ _ _ Hf) as [Hid _].
  split; [|split].
  - unfold d', find_user_by_id, admin_update_user in *. cbn [users set_users].
    rewrite find_map_stable, Hf
      by (intros x; destruct (bool_decide (user_id x = _)) eqn:E; cbn; rewrite ?E; reflexivity).
    cbn. by rewrite Hid, bool_decide_eq_true_2.
  - intros id' Hne. unfold d', find_user_by_id, admin_update_user. cbn [users set_users].
    apply find_map_fixed.
    + intros x. by destruct (bool_decide (user_id x = id)).
    + intros x Hx. apply bool_decide_eq_true in Hx.
      rewrite bool_decide_eq_false_2; [reflexivity|congruence].
  - intros rq Hres.
    assert (Hres' :
      resolve_user rq d'
      = Some {| user_id := user_id usr; token := token usr; tag := Js.or_else tg [];
                quota_enhanced := Js.or0 qe; quota_pro := Js.or0 qp |}).
    { unfold d', admin_update_user, resolve_user, find_user_by_token in *.
      destruct (Js.truthy (userToken rq)); [|discriminate].
      cbn [users set_users].
      rewrite (find_update
                 (λ u, {| user_id := user_id u; token := token u; tag := Js.or_else tg [];
                          quota_enhanced := Js.or0 qe; quota_pro := Js.or0 qp |})
                 id _ _ usr) by done.
      by rewrite (bool_decide_eq_true_2 _ Hid). }
    split.
    + intros -> status message. unfold guards. rewrite Hres'.
      cbn [userTag tag Js.or_else lit]. rewrite bool_decide_eq_true_2 by reflexivity.
      rewrite andb_false_r.
      repeat (match goal with |- context [if ?b then _ else _] => destruct b end);
        discriminate.
    + intros -> Hm. unfold guards. rewrite Hres'. unfold Js.eqs. rewrite Hm.
      rewrite (bool_decide_eq_true_2 (Some (lit "enhanced") = Some (lit "enhanced")))
        by reflexivity.
      cbn [quota_enhanced Js.or0 default andb orb is_some negb].
      change (0 <=? 0) with true.
      repeat (match goal with |- context [if ?b then _ else _] => destruct b end);
        discriminate.
Qed.

End Accounts.

(** X19.  Deleting an identity removes its row, the conversations it
    owns and the messages of those conversations, and nothing else:
    every conversation that is left reads back as before, and the audit
    rows of the identity stay. *)
Theorem delete_user_cascade (uid : jsstr) (d : db) :
  let d' := admin_delete_user uid d in
  users d' = filter (λ u, user_id u ≠ uid) (users d)
  ∧ find_user_by_id uid d' = None
  ∧ (∀ c, conversations d' !! c =
          match conversations d !! c with
          | Some conv => if decide (conv_user_id conv = Some uid) then None else Some conv
          | None => None
          end)
  ∧ messages d' = filter (λ m, owner_of m d ≠ Some uid) (messages d)
  ∧ (∀ c conv, conversations d' !! c = Some conv → get_conversation c d' = get_conversation c d)
  ∧ audit_logs d' = audit_logs d.
Proof.
  intros d'. unfold d'. rewrite delete_user_eq.
  cbn [users conversations messages audit_logs set_users set_conversations set_messages].
  assert (Hconv : ∀ c,
            filter (λ kv : jsstr * conversation_row, conv_user_id kv.2 ≠ Some uid)
                   (conversations d) !! c =
            match conversations d !! c with
            | Some conv => if decide (conv_user_id conv = Some uid) then None else Some conv
            | None => None
            end).
  { intros c. destruct (conversations d !! c) as [conv|] eqn:Hc.
    - destruct (decide (conv_user_id conv = Some uid)) as [Ho|Ho].
      + apply map_lookup_filter_None. right. intros x Hx. cbn. congruence.
      + apply map_lookup_filter_Some. done.
    - apply map_lookup_filter_None. by left. }
  split_and!; try reflexivity.
  - unfold find_user_by_id. cbn [users set_users]. apply find_filter_none.
    intros x Hx. apply bool_decide_eq_true in Hx. tauto.
  - exact Hconv.
  - intros c conv Hc. unfold get_conversation.
    cbn [conversations set_users set_conversations set_messages] in *.
    rewrite Hc. rewrite Hconv in Hc.
    destruct (conversations d !! c) as [conv0|] eqn:Hc0; [|discriminate].
    destruct (decide (conv_user_id conv0 = Some uid)) as [Ho|Ho]; [discriminate|].
    injection Hc as <-. f_equal. f_equal. unfold messages_of.
    cbn [messages set_users set_conversations set_messages].
    f_equal. rewrite list_filter_filter. apply list_filter_iff.
    intros m. split; [tauto|]. intros Hm. split; [done|].
    unfold owner_of. rewrite Hm, Hc0. exact Ho.
Qed.

(** ** Administration of the reference tables *)

(** X20.  After a tier has been given a model, every request of that
    tier is sent to the backend under this model and the other tiers are
    mapped as before; once the tier's mapping is deleted its requests go
    out under the normal model of the configuration. *)
Theorem model_mapping_round_trip (cfg : config) (tier mid : jsstr) (d d' : db) :
  admin_set_model (Some tier) (Some mid) d = (d', Accepted) →
  (∀ rq env, Js.or_else (model rq) (lit "normal") = tier →
     call_model (payload cfg rq env d') = mid)
  ∧ (∀ rq, Js.or_else (model rq) (lit "normal") ≠ tier →
       selectedModel rq d' = selectedModel rq d)
  ∧ (∀ rq env, Js.or_else (model rq) (lit "normal") = tier →
       call_model (payload cfg rq env (admin_delete_model tier d')) = modelMap_normal cfg).
Proof.
  unfold admin_set_model.
  destruct tier as [|c tier]; [discriminate|]. destruct mid as [|m mid]; [discriminate|].
  cbn [Js.truthy negb orb Js.or_else].
  assert (Hdel : ∀ ms rq env, Js.or_else (model rq) (lit "normal") = c :: tier →
            call_model (payload cfg rq env (admin_delete_model (c :: tier) (set_models ms d)))
            = modelMap_normal cfg).
  { intros ms rq env Ht. unfold payload, selectedModel, admin_delete_model.
    cbn [call_model models set_models]. rewrite Ht.
    rewrite find_filter_none; [reflexivity|].
    intros x Hx. apply bool_decide_eq_true in Hx. tauto. }
  destruct (existsb _ (models d)) eqn:Hex; intros [= <-].
  - split; [|split; [|apply Hdel]].
    + intros rq env Ht. unfold payload, selectedModel. cbn [call_model models set_models].
      rewrite Ht.
      rewrite find_map_stable
        by (intros x; destruct (bool_decide (model_tier x = _)) eqn:E; cbn; rewrite ?E;
            reflexivity).
      destruct (find _ (models d)) as [row|] eqn:Hf.
      * apply find_some in Hf as [_ Hrow]. cbn. by rewrite Hrow.
      * apply find_none_existsb in Hf. congruence.
    + intros rq Hne. unfold selectedModel. cbn [models set_models]. f_equal.
      apply find_map_fixed.
      * intros x. by destruct (bool_decide (model_tier x = c :: tier)).
      * intros x Hx. apply bool_decide_eq_true in Hx.
        rewrite bool_decide_eq_false_2; [reflexivity|congruence].
  - split; [|split; [|apply Hdel]].
    + intros rq env Ht. unfold payload, selectedModel. cbn [call_model models set_models].
      rewrite Ht, find_snoc.
      rewrite (proj2 (find_none_existsb _ _) Hex).
      cbn. by rewrite bool_decide_eq_true_2.
    + intros rq Hne. unfold selectedModel. cbn [models set_models]. f_equal.
      rewrite find_snoc. cbn. rewrite bool_decide_eq_false_2 by done.
      by destruct (find _ (models d)).
Qed.

(** X21.  A prompt budget is accepted exactly when the tier is named and
    the number lies between 200 and 5000; a rejected post changes
    nothing; an accepted one is the budget read for that tier from then
    on and leaves the budgets of the other tiers as they were. *)
Theorem prompt_limit_round_trip (tier : jsstr) (n : Z) (d : db) :
  let out := admin_set_prompt_limit (Some tier) (Some n) d in
  (out.2 = Accepted ↔ tier ≠ [] ∧ 200 ≤ n ≤ 5000)
  ∧ (out.2 ≠ Accepted → out.1 = d)
  ∧ (out.2 = Accepted →
     getPromptLimit tier out.1 = n
     ∧ (∀ rq, model rq = Some tier → getPromptLimit (Js.or_else (model rq) (lit "normal")) out.1 = n)
     ∧ (∀ tier', Js.or_else (Some tier') (lit "normal") ≠ tier →
          getPromptLimit tier' out.1 = getPromptLimit tier' d)).
Proof.
  unfold admin_set_prompt_limit. change (Js.or0 (Some n)) with n. cbv zeta.
  destruct tier as [|c tier].
  { cbn. split; [split; [discriminate|intros [? _]; done]|]. split; [done|discriminate]. }
  cbn [Js.truthy negb orb Js.or_else].
  destruct (decide (n = 0)) as [->|Hn0].
  { cbn. split; [split; [discriminate|lia]|]. split; [done|discriminate]. }
  rewrite (bool_decide_eq_false_2 _ Hn0).
  destruct (Z.ltb_spec n 200) as [Hlo|Hlo].
  { cbn. split; [split; [discriminate|lia]|]. split; [done|discriminate]. }
  destruct (Z.ltb_spec 5000 n) as [Hhi|Hhi].
  { cbn. split; [split; [discriminate|lia]|]. split; [done|discriminate]. }
  cbn [orb].
  assert (Hout : (match prompt_limits d !! (c :: tier) with
                  | Some _ =>
                      (set_prompt_limits (<[c :: tier := n]> (prompt_limits d)) d, Accepted)
                  | None =>
                      (set_prompt_limits (<[c :: tier := n]> (prompt_limits d)) d, Accepted)
                  end) = (set_prompt_limits (<[c :: tier := n]> (prompt_limits d)) d, Accepted))
    by (by destruct (prompt_limits d !! (c :: tier))).
  rewrite Hout. cbn [fst snd].
  split; [split; [intros _; split; [done|lia]|done]|]. split; [done|]. intros _.
  assert (Hget : getPromptLimit (c :: tier)
                   (set_prompt_limits (<[c :: tier := n]> (prompt_limits d)) d) = n).
  { unfold getPromptLimit. cbn [Js.or_else prompt_limits set_prompt_limits].
    rewrite lookup_insert_eq. by rewrite (bool_decide_eq_false_2 _ Hn0). }
  split; [exact Hget|]. split.
  - intros rq ->. exact Hget.
  - intros tier' Hne. unfold getPromptLimit. cbn [prompt_limits set_prompt_limits].
    by rewrite lookup_insert_ne.
Qed.

(** ** Splitting on a single code unit *)

Lemma split_char_none (c : Z) (x : jsstr) : c ∉ x → Js.split [c] x = [x].
Proof.
  induction x as [|a x IH]; intros Hc; [reflexivity|].
  apply not_elem_of_cons in Hc as [Hne Hc].
  rewrite split_cons. cbn [Js.startsWith].
  rewrite (bool_decide_eq_false_2 _ Hne). cbn [andb]. by rewrite IH.
Qed.

Lemma split_char_cons (c : Z) (x rest : jsstr) :
  c ∉ x → Js.split [c] (x ++ c :: rest) = x :: Js.split [c] rest.
Proof.
  induction x as [|a x IH]; intros Hc.
  - cbn [app]. rewrite split_cons. cbn [Js.startsWith].
    by rewrite bool_decide_eq_true_2.
  - apply not_elem_of_cons in Hc as [Hne Hc].
    cbn [app]. rewrite split_cons. cbn [Js.startsWith].
    rewrite (bool_decide_eq_false_2 _ Hne). cbn [andb]. by rewrite IH.
Qed.

Lemma split_join_char (c : Z) (l : list jsstr) :
  l ≠ [] → Forall (λ x, c ∉ x) l → Js.split [c] (Js.join [c] l) = l.
Proof.
  intros Hne Hall. induction Hall as [|x l Hx Hall IH]; [done|].
  destruct l as [|y l].
  - cbn [Js.join]. by apply split_char_none.
  - rewrite join_cons2. cbn [app]. rewrite split_char_cons by done.
    by rewrite IH.
Qed.

Lemma join_free (c c' : Z) (l : list jsstr) :
  c' ≠ c → Forall (λ x, c' ∉ x) l → c' ∉ Js.join [c] l.
Proof.
  intros Hne Hall. induction Hall as [|x l Hx Hall IH]; [apply not_elem_of_nil|].
  destruct l as [|y l]; [exact Hx|].
  rewrite join_cons2. cbn [app].
  rewrite elem_of_app, elem_of_cons. intros [?|[?|?]]; [done|done|by apply IH].
Qed.

Lemma includes_char (text : jsstr) (c : Z) : Js.includes text [c] = true ↔ c ∈ text.
Proof.
  induction text as [|a text IH].
  - cbn. split; [discriminate|]. intros H. by apply not_elem_of_nil in H.
  - cbn [Js.includes Js.startsWith]. rewrite orb_true_iff, andb_true_r, IH.
    rewrite bool_decide_eq_true, elem_of_cons. tauto.
Qed.

Lemma includes_char_false (text : jsstr) (c : Z) : Js.includes text [c] = false ↔ c ∉ text.
Proof.
  rewrite <- includes_char, not_true_iff_false. reflexivity.
Qed.

Lemma replace_prefix (pat s : jsstr) :
  Js.startsWith pat s = true → Js.replace pat [] s = drop (length pat) s.
Proof. intros H. destruct s; cbn [Js.replace]; by rewrite H. Qed.

(** ** The export to CSV *)

Lemma double_quotes_inj (a b : jsstr) :
  flat_map (λ c, if bool_decide (c = 34) then [34; 34] else [c]) a
  = flat_map (λ c, if bool_decide (c = 34) then [34; 34] else [c]) b →
  a = b.
Proof.
  revert b. induction a as [|x a IH]; intros [|y b]; cbn [flat_map].
  - done.
  - destruct (bool_decide (y = 34)); discriminate.
  - destruct (bool_decide (x = 34)); discriminate.
  - destruct (decide (x = 34)) as [->|Hx]; destruct (decide (y = 34)) as [->|Hy];
      rewrite ?(bool_decide_eq_true_2 (34 = 34)) by reflexivity;
      rewrite ?(bool_decide_eq_false_2 _ Hx), ?(bool_decide_eq_false_2 _ Hy); cbn [app].
    + intros [= H]. by rewrite (IH _ H).
    + intros [= <- _]. done.
    + intros [= -> _]. done.
    + intros [= -> H]. by rewrite (IH _ H).
Qed.

Lemma double_quotes_free (a : jsstr) :
  34 ∉ a → flat_map (λ c, if bool_decide (c = 34) then [34; 34] else [c]) a = a.
Proof.
  induction a as [|x a IH]; intros H; [reflexivity|].
  apply not_elem_of_cons in H as [Hx H]. cbn [flat_map].
  rewrite bool_decide_eq_false_2 by done. cbn [app]. by rewrite IH.
Qed.

Lemma csv_escape_cases (t : jsstr) :
  csv_escape (Some t) =
  if bool_decide (34 ∈ t ∨ 44 ∈ t ∨ 10 ∈ t)
  then [34] ++ flat_map (λ c, if bool_decide (c = 34) then [34; 34] else [c]) t ++ [34]
  else t.
Proof.
  unfold csv_escape. change (default [] (Some t)) with t. cbv zeta.
  destruct (Js.includes t [34]) eqn:Hq.
  - apply includes_char in Hq. rewrite bool_decide_eq_true_2; [reflexivity|tauto].
  - apply includes_char_false in Hq.
    destruct (Js.includes t [44]) eqn:Hc; cbn [orb].
    + apply includes_char in Hc. rewrite bool_decide_eq_true_2 by tauto.
      by rewrite double_quotes_free.
    + apply includes_char_false in Hc. destruct (Js.includes t [10]) eqn:Hn.
      * apply includes_char in Hn. rewrite bool_decide_eq_true_2 by tauto.
        by rewrite double_quotes_free.
      * apply includes_char_false in Hn. rewrite bool_decide_eq_false_2; [reflexivity|tauto].
Qed.

(** X22.  A cell of the export determines the text it was made from:
    two different texts never give the same cell.  A text without
    quote, comma and line feed is its own cell; any other is wrapped in
    quotes. *)
Theorem csv_cell_faithful :
  (∀ a b, csv_escape (Some a) = csv_escape (Some b) → a = b)
  ∧ (∀ t, (34 ∉ t) → (44 ∉ t) → (10 ∉ t) → csv_escape (Some t) = t)
  ∧ (∀ t, 34 ∈ t ∨ 44 ∈ t ∨ 10 ∈ t →
       ∃ body, csv_escape (Some t) = [34] ++ body ++ [34])
  ∧ csv_escape None = [].
Proof.
  split; [|split; [|split; [|reflexivity]]].
  - intros a b. rewrite !csv_escape_cases.
    destruct (decide (34 ∈ a ∨ 44 ∈ a ∨ 10 ∈ a)) as [Ha|Ha];
      destruct (decide (34 ∈ b ∨ 44 ∈ b ∨ 10 ∈ b)) as [Hb|Hb];
      rewrite ?(bool_decide_eq_true_2 _ Ha), ?(bool_decide_eq_false_2 _ Ha),
              ?(bool_decide_eq_true_2 _ Hb), ?(bool_decide_eq_false_2 _ Hb).
    + intros H. apply app_inv_head, app_inv_tail in H. by apply double_quotes_inj.
    + intros <-. destruct Hb. left. cbn [app]. apply elem_of_cons. by left.
    + intros ->. destruct Ha. left. cbn [app]. apply elem_of_cons. by left.
    + done.
  - intros t H1 H2 H3. rewrite csv_escape_cases, bool_decide_eq_false_2; [reflexivity|tauto].
  - intros t H. rewrite csv_escape_cases, bool_decide_eq_true_2 by done. by eexists.
Qed.

(** X23.  When no header holds a comma or line feed and no cell that is
    exported holds a quote, comma or line feed, the export reads back:
    cutting it at the line feeds and each line at the commas gives the
    header row followed by the rows of cells, a missing cell being
    empty. *)
Theorem csv_plain_round_trip (rows : list (gmap jsstr jsstr)) (headers : list jsstr) :
  headers ≠ [] →
  Forall (λ h, (44 ∉ h) ∧ (10 ∉ h)) headers →
  Forall (λ row : gmap jsstr jsstr, ∀ key v, key ∈ headers → row !! key = Some v →
                   (34 ∉ v) ∧ (44 ∉ v) ∧ (10 ∉ v)) rows →
  map (Js.split [44]) (Js.split [10] (toCsv rows headers))
  = headers :: map (λ row : gmap jsstr jsstr, map (λ key, default [] (row !! key)) headers) rows.
Proof.
  intros Hne Hh Hrows. unfold toCsv.
  assert (Hcells : ∀ row : gmap jsstr jsstr, row ∈ rows →
            map (λ key, csv_escape (row !! key)) headers
            = map (λ key, default [] (row !! key)) headers
            ∧ Forall (λ x, 44 ∉ x) (map (λ key, default [] (row !! key)) headers)
            ∧ Forall (λ x, 10 ∉ x) (map (λ key, default [] (row !! key)) headers)).
  { intros row Hrow. rewrite Forall_forall in Hrows. specialize (Hrows row Hrow).
    split; [|split].
    - apply map_ext_in. intros key Hkey. apply list_elem_of_In in Hkey.
      destruct (row !! key) as [v|] eqn:Hv; [|reflexivity].
      destruct (Hrows key v Hkey Hv) as (? & ? & ?).
      rewrite csv_escape_cases, bool_decide_eq_false_2; [reflexivity|tauto].
    - apply Forall_forall. intros x Hx. apply list_elem_of_fmap in Hx as (key & -> & Hkey).
      destruct (row !! key) as [v|] eqn:Hv; [|apply not_elem_of_nil].
      by destruct (Hrows key v Hkey Hv) as (? & ? & ?).
    - apply Forall_forall. intros x Hx. apply list_elem_of_fmap in Hx as (key & -> & Hkey).
      destruct (row !! key) as [v|] eqn:Hv; [|apply not_elem_of_nil].
      by destruct (Hrows key v Hkey Hv) as (? & ? & ?). }
  assert (Hlines :
    map (λ row : gmap jsstr jsstr, Js.join [44] (map (λ key, csv_escape (row !! key)) headers)) rows
    = map (λ row : gmap jsstr jsstr,
             Js.join [44] (map (λ key, default [] (row !! key)) headers)) rows).
  { apply map_ext_in. intros row Hrow. apply list_elem_of_In in Hrow.
    by rewrite (proj1 (Hcells row Hrow)). }
  rewrite Hlines, split_join_char.
  - cbn [map]. f_equal.
    + apply split_join_char; [done|]. eapply Forall_impl; [exact Hh|]. by intros h [? _].
    + rewrite map_map. apply map_ext_in. intros row Hrow. apply list_elem_of_In in Hrow.
      apply split_join_char; [by destruct headers|].
      by destruct (Hcells row Hrow) as (_ & ? & _).
  - done.
  - constructor.
    + apply join_free; [done|]. eapply Forall_impl; [exact Hh|]. by intros h [_ ?].
    + apply Forall_forall. intros line Hline.
      apply list_elem_of_fmap in Hline as (row & -> & Hrow).
      apply join_free; [done|]. by destruct (Hcells row Hrow) as (_ & _ & ?).
Qed.

(** ** The caller's address *)

(** X24.  When the forwarding header is present, the address is its
    first entry, trimmed, provided that is not empty: the other entries,
    the real-address header and the socket are not looked at.  The
    loopback [::1] is given as [127.0.0.1], and an IPv4-mapped address
    loses its [::ffff:] prefix. *)
Theorem forwarded_address_wins (o : request_origin) (v more : jsstr) :
  (x_forwarded_for o = HeaderValue v ∨ x_forwarded_for o = HeaderValue (v ++ 44 :: more)
   ∨ ∃ others, x_forwarded_for o = HeaderArray ((v ++ 44 :: more) :: others)) →
  44 ∉ v →
  Js.trim v ≠ [] →
  getRequestIp o =
    if bool_decide (Js.trim v = lit "::1") then lit "127.0.0.1"
    else if Js.startsWith (lit "::ffff:") (Js.trim v) then drop 7 (Js.trim v)
    else Js.trim v.
Proof.
  intros Hfwd Hv Hne. unfold getRequestIp.
  assert (Hfirst : (λ value, Js.trim (hd [] (Js.split [44] value)))
                   <$> header_first (x_forwarded_for o) = Some (Js.trim v)).
  { destruct Hfwd as [->|[->|[others ->]]]; cbn [header_first head fmap option_fmap option_map].
    - by rewrite split_char_none.
    - by rewrite split_char_cons.
    - by rewrite split_char_cons. }
  rewrite Hfirst.
  destruct (Js.trim v) as [|c s] eqn:Ht; [done|].
  cbn [Js.or_else Js.nonempty negb].
  destruct (bool_decide _); [reflexivity|].
  destruct (Js.startsWith _ _) eqn:Hs; [|reflexivity].
  by rewrite replace_prefix.
Qed.

(** ** Administrative sessions *)

Lemma initDb_admin_settings_rows (e : admin_env) (s : admin_state) :
  is_Some (admin_settings (initDb_admin_settings e s) !! lit "admin_user")
  ∧ is_Some (admin_settings (initDb_admin_settings e s) !! lit "admin_password")
  ∧ adminTokens (initDb_admin_settings e s) = adminTokens s.
Proof.
  unfold initDb_admin_settings.
  destruct (admin_settings s !! lit "admin_user") as [u|] eqn:Hu.
  - destruct (admin_settings s !! lit "admin_password") as [p|] eqn:Hp.
    + rewrite Hu, Hp. by split_and!.
    + cbn [admin_settings adminTokens]. rewrite lookup_insert_eq.
      rewrite lookup_insert_ne by discriminate. rewrite Hu. by split_and!.
  - cbn [admin_settings adminTokens].
    rewrite (lookup_insert_ne (admin_settings s) (lit "admin_user") (lit "admin_password"))
      by discriminate.
    destruct (admin_settings s !! lit "admin_password") as [p|] eqn:Hp.
    + cbn [admin_settings adminTokens]. rewrite lookup_insert_eq.
      rewrite lookup_insert_ne by discriminate. rewrite Hp. by split_and!.
    + cbn [admin_settings adminTokens]. rewrite lookup_insert_eq.
      rewrite lookup_insert_ne by discriminate. rewrite lookup_insert_eq. by split_and!.
Qed.

(** X25.  A successful administrative login opens a session under the
    token drawn: a request bearing it passes the gate up to and
    including the millisecond 24 hours after the login and is refused
    from the next one on.  Requests bearing another token, or none, are
    judged as before; a failed login changes nothing. *)
Theorem session_window (e : admin_env) (username password : option jsstr)
    (nid : jsstr) (now : Z) (s : admin_state) :
  let out := admin_login e username password nid now s in
  (out.2 = None → out.1 = s)
  ∧ (out.2 ≠ None ↔
     username = Some (getAdminCredentials e s).1 ∧ password = Some (getAdminCredentials e s).2)
  ∧ (out.2 ≠ None →
     out.2 = Some nid
     ∧ (∀ later, requireAdmin (Some (lit "Bearer " ++ nid)) later out.1
                 = bool_decide (later ≤ now + session_ms))
     ∧ (∀ other later, other ≠ nid →
          requireAdmin (Some (lit "Bearer " ++ other)) later out.1
          = requireAdmin (Some (lit "Bearer " ++ other)) later s)
     ∧ (nid ≠ [] → ∀ hdr later, Js.startsWith (lit "Bearer ") (Js.or_else hdr []) = false →
          requireAdmin hdr later out.1 = requireAdmin hdr later s)).
Proof.
  unfold admin_login. cbv zeta.
  destruct (decide (username = Some (getAdminCredentials e s).1)) as [Hu|Hu];
    destruct (decide (password = Some (getAdminCredentials e s).2)) as [Hp|Hp];
    rewrite ?(bool_decide_eq_true_2 _ Hu), ?(bool_decide_eq_false_2 _ Hu),
            ?(bool_decide_eq_true_2 _ Hp), ?(bool_decide_eq_false_2 _ Hp);
    cbn [negb orb fst snd];
    try (split; [done|]; split; [split; [done|tauto]|done]).
  split; [discriminate|]. split; [done|]. intros _. split; [reflexivity|].
  assert (Hbearer : ∀ x, Js.or_else (Some (lit "Bearer " ++ x)) [] = lit "Bearer " ++ x)
    by reflexivity.
  split; [|split].
  - intros later. unfold requireAdmin. rewrite Hbearer, startsWith_app.
    rewrite drop_app_length'; [|reflexivity]. cbn [adminTokens]. rewrite lookup_insert_eq.
    destruct (Z.ltb_spec (now + session_ms) later); cbn [negb].
    + rewrite bool_decide_eq_false_2; [reflexivity|lia].
    + rewrite bool_decide_eq_true_2; [reflexivity|lia].
  - intros other later Hne. unfold requireAdmin. rewrite Hbearer, startsWith_app.
    rewrite drop_app_length'; [|reflexivity]. cbn [adminTokens].
    by rewrite lookup_insert_ne.
  - intros Hnid hdr later Hs. unfold requireAdmin. rewrite Hs. cbn [adminTokens].
    by rewrite lookup_insert_ne.
Qed.

(** X26.  A password change is accepted only with the current password
    and a new one of six code units or more; the new one may be the
    current one again.  Once the settings rows exist, the new password
    is the one that logs in from then on, so the old one no longer does
    unless the two are the same; the user name and the sessions already
    open stay as they are. *)
Theorem password_change (e : admin_env) (cur new : jsstr) (s s' : admin_state) :
  is_Some (admin_settings s !! lit "admin_password") →
  admin_change_password e (Some cur) (Some new) s = (s', Accepted) →
  (6 ≤ length new)%nat
  ∧ cur = (getAdminCredentials e s).2
  ∧ getAdminCredentials e s' = ((getAdminCredentials e s).1, new)
  ∧ adminTokens s' = adminTokens s
  ∧ (∀ username password nid now,
       (admin_login e username password nid now s').2 ≠ None ↔
       username = Some (getAdminCredentials e s).1 ∧ password = Some new)
  ∧ (cur ≠ new → ∀ username nid now,
       (admin_login e username (Some cur) nid now s').2 = None).
Proof.
  intros [old Hold]. unfold admin_change_password.
  destruct cur as [|c cur]; [discriminate|]. destruct new as [|n new]; [discriminate|].
  cbn [Js.truthy negb orb Js.or_else].
  destruct (Nat.ltb_spec (length (n :: new)) 6) as [Hlen|Hlen]; [discriminate|].
  destruct (decide (Some (c :: cur) = Some (getAdminCredentials e s).2)) as [Hc|Hc];
    rewrite ?(bool_decide_eq_true_2 _ Hc), ?(bool_decide_eq_false_2 _ Hc); cbn [negb];
    [|discriminate].
  rewrite Hold. set (s1 := {| admin_settings := _; adminTokens := _ |}).
  intros Heq. assert (Hs' : s' = s1) by congruence. clear Heq. subst s'.
  assert (Hcreds : getAdminCredentials e s1 = ((getAdminCredentials e s).1, n :: new)).
  { unfold getAdminCredentials, s1. cbn [admin_settings fst].
    rewrite lookup_insert_eq. rewrite lookup_insert_ne by discriminate. reflexivity. }
  split; [exact Hlen|]. split; [by injection Hc|]. split; [exact Hcreds|].
  split; [reflexivity|].
  assert (Hlogin : ∀ username password nid now,
            (admin_login e username password nid now s1).2 ≠ None ↔
            username = Some (getAdminCredentials e s).1 ∧ password = Some (n :: new)).
  { intros username password nid now. unfold admin_login. rewrite Hcreds. cbn [fst snd].
    destruct (decide (username = Some (getAdminCredentials e s).1)) as [Hu|Hu];
      destruct (decide (password = Some (n :: new))) as [Hp|Hp];
      rewrite ?(bool_decide_eq_true_2 _ Hu), ?(bool_decide_eq_false_2 _ Hu),
              ?(bool_decide_eq_true_2 _ Hp), ?(bool_decide_eq_false_2 _ Hp);
      cbn [negb orb snd]; split; try done; tauto. }
  split; [exact Hlogin|].
  intros Hne username nid now.
  destruct ((admin_login e username (Some (c :: cur)) nid now s1).2) as [tok|] eqn:Hout;
    [|reflexivity].
  assert (Hsome : (admin_login e username (Some (c :: cur)) nid now s1).2 ≠ None)
    by (rewrite Hout; discriminate).
  apply Hlogin in Hsome as [_ Hpass]. congruence.
Qed.

(** ** Retention of the audit trail *)

(** X27.  A purge keeps exactly the audit rows that are at most seven
    days old, in their order, and touches no other table; purging twice
    is purging once at the later of the two clocks. *)
Theorem purge_keeps_recent (now : Z) (d : db) :
  (∀ l, l ∈ audit_logs (purgeOldLogs now d)
        ↔ l ∈ audit_logs d ∧ now - retention_ms ≤ log_created_at l)
  ∧ audit_logs (purgeOldLogs now d) `sublist_of` audit_logs d
  ∧ purgeOldLogs now d = set_audit_logs (audit_logs (purgeOldLogs now d)) d
  ∧ (∀ now', purgeOldLogs now' (purgeOldLogs now d) = purgeOldLogs (Z.max now now') d).
Proof.
  unfold purgeOldLogs. cbn [audit_logs set_audit_logs]. split_and!.
  - intros l. rewrite list_elem_of_filter. split; intros [? ?]; split; try done; lia.
  - apply sublist_filter.
  - reflexivity.
  - intros now'. unfold set_audit_logs. cbn. f_equal.
    rewrite list_filter_filter. apply list_filter_iff. intros l. lia.
Qed.

(** ** Edges of the commit *)

Section Commit.

Variable cfg : config.
Variable JSON_parse : jsstr → option sse_payload.

(** X28.  A completed turn whose request holds no text of the user
    stores a single row, that of the assistant, in the conversation of
    the turn. *)
Theorem empty_text_turn (t : turn) (d : db) :
  let rq := turn_request t in
  let env := turn_environment t in
  let r := serve cfg JSON_parse t d in
  completed r = true →
  lastContent rq = [] →
  ∃ asst, messages (db_after r) = messages d ++ [asst]
          ∧ msg_role asst = lit "assistant"
          ∧ msg_id asst = nanoid_assistant_message env
          ∧ conversation_id asst = convId rq env
          ∧ is_Some (conversations (db_after r) !! convId rq env).
Proof.
  intros rq env r Hc Hempty.
  destruct (serve_completed cfg JSON_parse t d Hc)
    as (reqs & stream & em & tr & kw & _ & _ & _ & _ & Hdb & _).
  fold r rq env in Hdb. rewrite Hdb.
  cbn [messages conversations set_ip_requests accounted].
  unfold new_messages. rewrite Hempty. cbn [Js.nonempty app].
  eexists. split; [reflexivity|]. split_and!; try reflexivity.
  destruct (conversations d !! convId rq env) as [row|] eqn:Hrow.
  - by rewrite Hrow.
  - by rewrite lookup_insert_eq.
Qed.

(** X29.  The commit is not one transaction.  When the identifier drawn
    for the assistant's row is already taken, the turn ends in the catch
    clause, and yet the day's metrics and the quota decrement written
    before the failing insert stay in the store. *)
Theorem commit_not_atomic (t : turn) (d d1 : db) (stream : body_stream) (em : option jsstr) :
  let rq := turn_request t in
  let env := turn_environment t in
  checkIpRules (ip env) (admission_date env) d = Allowed d1 →
  guards cfg rq d1 = None →
  backend env = FetchResolves true (Some stream) em →
  breaks stream = false →
  nanoid_assistant_message env ∈ message_ids d →
  let r := serve cfg JSON_parse t d in
  completed r = false
  ∧ service_failure r = true
  ∧ users (db_after r) = users (charge_quota rq (resolve_user rq d) d)
  ∧ metrics_daily (db_after r) !! today env
    = Some (daily_update env (reported (relay JSON_parse (chunks stream)))
              (existingDaily (today env) d)).
Proof.
  intros rq env Ha Hg Hb Hbr Hid r.
  destruct (allowed_users _ _ _ _ Ha) as (Hus & Hms & _ & _ & Hmd & _).
  assert (Hres : resolve_user rq d1 = resolve_user rq d).
  { unfold resolve_user, find_user_by_token. by rewrite Hus. }
  unfold r, serve. fold env rq. rewrite Ha. unfold chat_handler. rewrite Hg, Hb, Hbr.
  set (st := relay JSON_parse (chunks stream)).
  set (text := if checkSensitive (accumulated st) d1 then refusal else accumulated st).
  set (evs := if checkSensitive (accumulated st) d1 then _ else _).
  destruct (commit_shape cfg rq env (resolve_user rq d1) text (reported st) d1)
    as (tr & kw & Hshape).
  destruct (commit cfg rq env (resolve_user rq d1) text (reported st) d1) as [[done|] d'].
  - destruct Hshape as (_ & _ & (_ & Hfree & _) & _).
    exfalso. apply Hfree. unfold message_ids in *. by rewrite Hms.
  - destruct Hshape as (msgs & logs & ->).
    destruct (on_catch_failure evs
                (accounted rq env (resolve_user rq d1) (reported st) d1 tr kw msgs logs)
                [payload cfg rq env d1]) as [Hfail Hnot].
    split; [exact Hnot|]. split; [exact Hfail|].
    cbn [db_after users metrics_daily accounted]. split.
    + rewrite Hres. by apply charge_quota_users.
    + rewrite lookup_insert_eq. unfold existingDaily. by rewrite Hmd.
Qed.

End Commit.

(** * Worked instances of the further properties *)

Lemma block_takes_effect_witness :
  let d' := (admin_block_ip (Some (lit "10.0.0.9")) sample_db).1 in
  let t := sample_turn None None (lit "hello") sample_env in
  admin_block_ip (Some (lit "10.0.0.9")) sample_db = (d', Accepted)
  ∧ serve sample_cfg sample_parse t d'
    = {| db_after := d'; resp := Json 403 9 msg_blocked; calls := [] |}
  ∧ allows (lit "10.0.0.1") (lit "2026-01-01") d' = true.
Proof.
  intros d' t.
  assert (H : admin_block_ip (Some (lit "10.0.0.9")) sample_db = (d', Accepted))
    by reflexivity.
  split; [exact H|].
  destruct (block_takes_effect sample_cfg sample_parse _ _ _ H) as [Hblock Hother].
  split; [exact (Hblock t d' eq_refl eq_refl)|].
  destruct (Hother (lit "10.0.0.1") (lit "2026-01-01")) as [Ha _]; [discriminate|].
  rewrite Ha. vm_compute. reflexivity.
Defined.

Lemma limit_first_rule_wins_witness :
  let d' := (admin_limit_ip (Some (lit "10.0.0.1")) (Some 50) sample_db).1 in
  admin_limit_ip (Some (lit "10.0.0.1")) (Some 50) sample_db = (d', Accepted)
  ∧ configured_limit (lit "10.0.0.1") d' = Some 2.
Proof.
  intros d'.
  assert (H : admin_limit_ip (Some (lit "10.0.0.1")) (Some 50) sample_db = (d', Accepted))
    by reflexivity.
  split; [exact H|].
  destruct (limit_first_rule_wins _ _ _ _ H) as [Hl _]. rewrite Hl.
  vm_compute. reflexivity.
Defined.

Lemma counter_counts_own_requests_witness :
  let mine := sample_turn None None (lit "hello") limited_env in
  let other := sample_turn None None (lit "hello") sample_env in
  blocked (lit "10.0.0.1") sample_db = false
  ∧ configured_limit (lit "10.0.0.1") sample_db = Some 2
  ∧ counter (lit "10.0.0.1") (lit "2026-01-01")
      (final_db sample_cfg sample_parse sample_db [mine; other; other]) = 1
  ∧ counter (lit "10.0.0.1") (lit "2026-01-01")
      (final_db sample_cfg sample_parse sample_db [mine; other; mine; mine]) = 2.
Proof.
  intros mine other.
  assert (H1 : blocked (lit "10.0.0.1") sample_db = false) by (vm_compute; reflexivity).
  assert (H2 : configured_limit (lit "10.0.0.1") sample_db = Some 2)
    by (vm_compute; reflexivity).
  assert (H3 : 0 ≤ counter (lit "10.0.0.1") (lit "2026-01-01") sample_db ≤ 2)
    by (vm_compute; split; discriminate).
  split; [exact H1|]. split; [exact H2|].
  split.
  - rewrite (counter_counts_own_requests sample_cfg sample_parse _ _ 2 _ _ H1 H2 H3).
    vm_compute. reflexivity.
  - rewrite (counter_counts_own_requests sample_cfg sample_parse _ _ 2 _ _ H1 H2 H3).
    vm_compute. reflexivity.
Defined.

Lemma daily_mean_bounded_witness :
  0 ≤ total_requests sample_daily
  ∧ 100 ≤ avg_latency (daily_update sample_env initial_usage sample_daily) ≤ 250
  ∧ total_requests (daily_update sample_env initial_usage sample_daily) = 4.
Proof.
  assert (H0 : 0 ≤ total_requests sample_daily) by (vm_compute; discriminate).
  assert (H1 : 100 ≤ avg_latency sample_daily ≤ 250) by (vm_compute; split; discriminate).
  assert (H2 : 100 ≤ latency_ms sample_env ≤ 250) by (vm_compute; split; discriminate).
  split; [exact H0|].
  destruct (daily_mean_bounded sample_env initial_usage sample_daily 100 250 H0 H1 H2)
    as (Ht & Ha & _).
  split; [exact Ha|exact Ht].
Defined.

Lemma last_user_message_witness : lastContent reply_request = lit "again".
Proof.
  destruct (last_user_message reply_request) as [Hlast _].
  destruct (Hlast [ {| role := lit "user"; content := lit "hello" |};
                    {| role := lit "assistant"; content := lit "hi" |} ]
                  {| role := lit "user"; content := lit "again" |}
                  [ {| role := lit "system"; content := lit "note" |} ]) as [_ Hc].
  - reflexivity.
  - reflexivity.
  - repeat constructor. discriminate.
  - exact Hc.
Defined.

Lemma prompt_keeps_directives_witness :
  150 ≤ getPromptLimit (lit "enhanced") sample_db
  ∧ ∃ rest, systemPrompt long_persona_request sample_env sample_db
            = Js.join [10] [directive_compliance; directive_roleplay; directive_no_meta;
                            directive_brevity] ++ rest.
Proof.
  assert (H : 150 ≤ getPromptLimit (lit "enhanced") sample_db) by (vm_compute; discriminate).
  split; [exact H|].
  destruct (prompt_keeps_directives long_persona_request sample_env sample_db) as [_ Hkeep].
  exact (Hkeep H).
Defined.

Lemma conversation_row_kept_witness :
  let first := sample_turn None None (lit "hello") sample_env in
  let d1 := db_after (serve sample_cfg sample_parse first sample_db) in
  let t := {| turn_request := reply_request; turn_environment := second_env |} in
  completed (serve sample_cfg sample_parse t d1) = true
  ∧ (conversations d1 !! lit "c1" ≫= conv_user_id) = None
  ∧ conversations (db_after (serve sample_cfg sample_parse t d1)) = conversations d1.
Proof.
  intros first d1 t.
  assert (Hc : completed (serve sample_cfg sample_parse t d1) = true)
    by (vm_compute; reflexivity).
  split; [exact Hc|]. split; [vm_compute; reflexivity|].
  destruct (conversations d1 !! lit "c1") as [row|] eqn:Hrow.
  - destruct (conversation_row_kept sample_cfg sample_parse t d1 (lit "c1") row Hc eq_refl)
      as [Hkept _]; [discriminate|exact Hrow|exact Hkept].
  - vm_compute in Hrow. discriminate.
Defined.

Lemma failure_before_commit_witness :
  let t := sample_turn None None (lit "hello") rejected_env in
  checkIpRules (ip rejected_env) (admission_date rejected_env) sample_db = Allowed sample_db
  ∧ guards sample_cfg (turn_request t) sample_db = None
  ∧ resp (serve sample_cfg sample_parse t sample_db) = Json 500 5 msg_service
  ∧ db_after (serve sample_cfg sample_parse t sample_db) = sample_db.
Proof.
  intros t.
  assert (H1 : checkIpRules (ip (turn_environment t)) (admission_date (turn_environment t))
                 sample_db = Allowed sample_db) by (vm_compute; reflexivity).
  assert (H2 : guards sample_cfg (turn_request t) sample_db = None)
    by (vm_compute; reflexivity).
  split; [exact H1|]. split; [exact H2|].
  destruct (failure_before_commit sample_cfg sample_parse t sample_db sample_db H1 H2)
    as (Hrej & _ & _).
  rewrite (Hrej eq_refl). split; reflexivity.
Defined.

Lemma sample_ids_unique : NoDup (map user_id (users sample_db)).
Proof. apply NoDup_singleton. Qed.

Lemma done_frame_balance_witness :
  let t := sample_turn (Some (lit "enhanced")) (Some (lit "tok-a")) (lit "hello") sample_env in
  completed (serve sample_cfg sample_parse t sample_db) = true
  ∧ ∃ evs prompt completion total,
      resp (serve sample_cfg sample_parse t sample_db)
      = Stream (evs ++ [EvDone prompt completion total 1 0]) true.
Proof.
  intros t.
  assert (Hc : completed (serve sample_cfg sample_parse t sample_db) = true)
    by (vm_compute; reflexivity).
  split; [exact Hc|].
  destruct (done_frame_balance sample_cfg sample_parse t sample_db Hc sample_ids_unique)
    as (evs & prompt & completion & total & Hresp).
  exists evs, prompt, completion, total. exact Hresp.
Defined.

Lemma word_added_takes_effect_witness :
  let d' := set_sensitive_words (sensitive_words sample_db ++ [lit "ugly"]) sample_db in
  admin_add_word (Some (lit "ugly")) sample_db = Some d'
  ∧ guards sample_cfg (sample_request None None (lit "so ugly")) sample_db = None
  ∧ guards sample_cfg (sample_request None None (lit "so ugly")) d'
    = Some (Json 400 2 msg_sensitive).
Proof.
  intros d'.
  assert (H : admin_add_word (Some (lit "ugly")) sample_db = Some d') by reflexivity.
  split; [exact H|]. split; [vm_compute; reflexivity|].
  destruct (word_added_takes_effect sample_cfg _ _ _ H) as (_ & _ & Hguard).
  apply Hguard.
  - exists (lit "so "), []. reflexivity.
  - vm_compute. discriminate.
Defined.

Lemma login_creates_once_witness :
  let d' := (auth_login sample_cfg (Some (lit "tok-new")) (lit "u2") sample_db).1 in
  auth_login sample_cfg (Some (lit "tok-new")) (lit "u2") sample_db
    = (d', LoginOk (lit "u2") 10 5)
  ∧ auth_login sample_cfg (Some (lit "tok-new")) (lit "u3") d' = (d', LoginOk (lit "u2") 10 5)
  ∧ find_user_by_token (lit "tok-a") d' = find_user_by_token (lit "tok-a") sample_db.
Proof.
  intros d'.
  assert (H : auth_login sample_cfg (Some (lit "tok-new")) (lit "u2") sample_db
              = (d', LoginOk (lit "u2") 10 5)) by reflexivity.
  split; [exact H|].
  destruct (login_creates_once sample_cfg _ _ _ _ _ _ _ H) as (_ & Hagain & Hother & _).
  split; [exact (Hagain (lit "u3"))|].
  apply Hother. discriminate.
Defined.

Lemma sample_users_unique : users_unique sample_db.
Proof. split; apply NoDup_singleton. Qed.

Lemma users_stay_unique_witness :
  let t := sample_turn (Some (lit "enhanced")) (Some (lit "tok-a")) (lit "hello") sample_env in
  users_unique sample_db
  ∧ users_unique (db_after (serve sample_cfg sample_parse t sample_db))
  ∧ users_unique (auth_login sample_cfg (Some (lit "tok-new")) (lit "u2") sample_db).1.
Proof.
  intros t. split; [exact sample_users_unique|].
  destruct (users_stay_unique sample_cfg sample_parse sample_db sample_users_unique)
    as (Hlogin & _ & _ & _ & _ & Hserve).
  split; [exact (Hserve t)|exact (Hlogin _ _)].
Defined.

Lemma recharge_adds_witness :
  (admin_recharge (lit "u1") (Some 3) None sample_db).2 = Some (5, 0)
  ∧ admin_recharge (lit "nobody") (Some 3) None sample_db = (sample_db, None).
Proof.
  destruct (recharge_adds sample_cfg (lit "u1") (Some 3) None sample_db) as [_ Hsome].
  destruct (recharge_adds sample_cfg (lit "nobody") (Some 3) None sample_db) as [Hnone _].
  split.
  - destruct (Hsome {| user_id := lit "u1"; token := lit "tok-a"; tag := [];
                       quota_enhanced := 2; quota_pro := 0 |} eq_refl) as [Hout _].
    exact Hout.
  - apply Hnone. reflexivity.
Defined.

Lemma update_user_effect_witness :
  let d' := admin_update_user (lit "u1") (Some (lit "trusted")) None None sample_db in
  find_user_by_id (lit "u1") sample_db
    = Some {| user_id := lit "u1"; token := lit "tok-a"; tag := [];
              quota_enhanced := 2; quota_pro := 0 |}
  ∧ find_user_by_id (lit "u1") d'
    = Some {| user_id := lit "u1"; token := lit "tok-a"; tag := lit "trusted";
              quota_enhanced := 0; quota_pro := 0 |}
  ∧ guards sample_cfg (sample_request (Some (lit "enhanced")) (Some (lit "tok-a")) (lit "hi")) d'
    ≠ None.
Proof.
  intros d'.
  assert (H : find_user_by_id (lit "u1") sample_db
              = Some {| user_id := lit "u1"; token := lit "tok-a"; tag := [];
                        quota_enhanced := 2; quota_pro := 0 |}) by reflexivity.
  split; [exact H|].
  destruct (update_user_effect sample_cfg (lit "u1") (Some (lit "trusted")) None None
              sample_db _ H) as (Hrow & _ & Hguard).
  split; [exact Hrow|].
  destruct (Hguard (sample_request (Some (lit "enhanced")) (Some (lit "tok-a")) (lit "hi"))
              eq_refl) as [_ Hzero].
  apply Hzero; reflexivity.
Defined.

Lemma model_mapping_round_trip_witness :
  let d' := (admin_set_model (Some (lit "pro")) (Some (lit "gpt-5")) sample_db).1 in
  let rq := sample_request (Some (lit "pro")) (Some (lit "tok-a")) (lit "hello") in
  admin_set_model (Some (lit "pro")) (Some (lit "gpt-5")) sample_db = (d', Accepted)
  ∧ call_model (payload sample_cfg rq sample_env d') = lit "gpt-5"
  ∧ call_model (payload sample_cfg rq sample_env (admin_delete_model (lit "pro") d'))
    = lit "gpt-4o-mini".
Proof.
  intros d' rq.
  assert (H : admin_set_model (Some (lit "pro")) (Some (lit "gpt-5")) sample_db
              = (d', Accepted)) by reflexivity.
  split; [exact H|].
  destruct (model_mapping_round_trip sample_cfg _ _ _ _ H) as (Hset & _ & Hdel).
  split; [exact (Hset rq sample_env eq_refl)|exact (Hdel rq sample_env eq_refl)].
Defined.

Lemma prompt_limit_round_trip_witness :
  (admin_set_prompt_limit (Some (lit "pro")) (Some 800) sample_db).2 = Accepted
  ∧ getPromptLimit (lit "pro")
      (admin_set_prompt_limit (Some (lit "pro")) (Some 800) sample_db).1 = 800
  ∧ (admin_set_prompt_limit (Some (lit "pro")) (Some 100) sample_db).1 = sample_db.
Proof.
  destruct (prompt_limit_round_trip (lit "pro") 800 sample_db) as (Hacc & _ & Hget).
  destruct (prompt_limit_round_trip (lit "pro") 100 sample_db) as (Hrej & Hsame & _).
  assert (H : (admin_set_prompt_limit (Some (lit "pro")) (Some 800) sample_db).2 = Accepted).
  { apply Hacc. split; [discriminate|lia]. }
  split; [exact H|]. split; [exact (proj1 (Hget H))|].
  apply Hsame. intros Hno. apply Hrej in Hno. lia.
Defined.

Lemma csv_cell_faithful_witness :
  csv_escape (Some (lit "chat")) = lit "chat"
  ∧ ∃ body, csv_escape (Some (lit "a,b")) = [34] ++ body ++ [34].
Proof.
  destruct csv_cell_faithful as (_ & Hplain & Hquoted & _).
  split.
  - apply Hplain; apply includes_char_false; reflexivity.
  - apply Hquoted. right. left. apply includes_char. reflexivity.
Defined.

Lemma csv_plain_round_trip_witness :
  map (Js.split [44]) (Js.split [10] (toCsv sample_rows [lit "id"; lit "action"]))
  = [ [lit "id"; lit "action"]; [lit "l1"; lit "chat"]; [lit "l2"; []] ].
Proof.
  rewrite csv_plain_round_trip.
  - vm_compute. reflexivity.
  - discriminate.
  - apply Forall_forall. intros h Hh.
    apply elem_of_cons in Hh as [->|Hh]; [|apply list_elem_of_singleton in Hh as ->];
      split; apply includes_char_false; reflexivity.
  - assert (Hkeys : ∀ key : jsstr, key ∈ [lit "id"; lit "action"] →
              key = lit "id" ∨ key = lit "action").
    { intros key Hk. apply elem_of_cons in Hk as [->|Hk]; [by left|].
      apply list_elem_of_singleton in Hk. by right. }
    apply Forall_forall. intros row Hrow key v Hk Hv.
    apply elem_of_cons in Hrow as [->|Hrow]; [|apply list_elem_of_singleton in Hrow as ->];
      destruct (Hkeys key Hk) as [->| ->];
      vm_compute in Hv; try discriminate; injection Hv as <-;
      split_and!; apply includes_char_false; reflexivity.
Defined.

Lemma forwarded_address_wins_witness : getRequestIp sample_origin = lit "10.0.0.9".
Proof.
  rewrite (forwarded_address_wins sample_origin (lit " ::ffff:10.0.0.9 ") (lit " 172.16.0.1")).
  - vm_compute. reflexivity.
  - right. left. reflexivity.
  - apply includes_char_false. reflexivity.
  - vm_compute. discriminate.
Defined.

Lemma session_window_witness :
  let out := admin_login sample_admin_env (Some (lit "admin")) (Some (lit "admin"))
               (lit "tok-session") 1000 sample_admin_state in
  out.2 = Some (lit "tok-session")
  ∧ requireAdmin (Some (lit "Bearer tok-session")) (1000 + session_ms) out.1 = true
  ∧ requireAdmin (Some (lit "Bearer tok-session")) (1001 + session_ms) out.1 = false
  ∧ (admin_login sample_admin_env (Some (lit "admin")) (Some (lit "wrong"))
       (lit "tok-session") 1000 sample_admin_state).1 = sample_admin_state.
Proof.
  intros out.
  destruct (session_window sample_admin_env (Some (lit "admin")) (Some (lit "admin"))
              (lit "tok-session") 1000 sample_admin_state) as (_ & Hiff & Hin).
  destruct (session_window sample_admin_env (Some (lit "admin")) (Some (lit "wrong"))
              (lit "tok-session") 1000 sample_admin_state) as (Hfail & _ & _).
  assert (Hok : out.2 ≠ None) by (apply Hiff; split; reflexivity).
  destruct (Hin Hok) as (Htok & Hwin & _).
  split; [exact Htok|]. split; [|split].
  - etrans; [exact (Hwin (1000 + session_ms))|]. apply bool_decide_eq_true_2. lia.
  - etrans; [exact (Hwin (1001 + session_ms))|]. apply bool_decide_eq_false_2. lia.
  - apply Hfail. reflexivity.
Defined.

Lemma password_change_witness :
  let s' := (admin_change_password sample_admin_env (Some (lit "admin")) (Some (lit "secret1"))
               sample_admin_state).1 in
  is_Some (admin_settings sample_admin_state !! lit "admin_password")
  ∧ admin_change_password sample_admin_env (Some (lit "admin")) (Some (lit "secret1"))
      sample_admin_state = (s', Accepted)
  ∧ getAdminCredentials sample_admin_env s' = (lit "admin", lit "secret1")
  ∧ (admin_login sample_admin_env (Some (lit "admin")) (Some (lit "admin"))
       (lit "tok-session") 1000 s').2 = None
  ∧ admin_change_password sample_admin_env (Some (lit "secret1")) (Some (lit "secret1")) s'
    = (s', Accepted)
  ∧ (admin_login sample_admin_env (Some (lit "admin")) (Some (lit "secret1"))
       (lit "tok-session") 1000 s').2 = Some (lit "tok-session").
Proof.
  intros s'.
  assert (H1 : is_Some (admin_settings sample_admin_state !! lit "admin_password"))
    by exact (proj1 (proj2 (initDb_admin_settings_rows sample_admin_env _))).
  assert (H2 : admin_change_password sample_admin_env (Some (lit "admin"))
                 (Some (lit "secret1")) sample_admin_state = (s', Accepted))
    by (vm_compute; reflexivity).
  split; [exact H1|]. split; [exact H2|].
  destruct (password_change sample_admin_env _ _ _ _ H1 H2)
    as (_ & _ & Hcreds & _ & _ & Hold).
  split; [rewrite Hcreds; vm_compute; reflexivity|].
  split; [apply Hold; discriminate|].
  split; vm_compute; reflexivity.
Defined.

Lemma empty_text_turn_witness :
  let t := {| turn_request := silent_request; turn_environment := sample_env |} in
  completed (serve sample_cfg sample_parse t sample_db) = true
  ∧ lastContent silent_request = []
  ∧ length (messages (db_after (serve sample_cfg sample_parse t sample_db))) = 1%nat.
Proof.
  intros t.
  assert (Hc : completed (serve sample_cfg sample_parse t sample_db) = true)
    by (vm_compute; reflexivity).
  split; [exact Hc|]. split; [reflexivity|].
  destruct (empty_text_turn sample_cfg sample_parse t sample_db Hc eq_refl)
    as (asst & Hm & _).
  rewrite Hm. reflexivity.
Defined.

Lemma commit_not_atomic_witness :
  let t := sample_turn (Some (lit "enhanced")) (Some (lit "tok-a")) (lit "hello") sample_env in
  let d1 := db_after (serve sample_cfg sample_parse t sample_db) in
  (quota_enhanced <$> find_user_by_token (lit "tok-a") d1) = Some 1
  ∧ completed (serve sample_cfg sample_parse t d1) = false
  ∧ (quota_enhanced <$> find_user_by_token (lit "tok-a")
       (db_after (serve sample_cfg sample_parse t d1))) = Some 0.
Proof.
  intros t d1.
  assert (H1 : checkIpRules (ip (turn_environment t)) (admission_date (turn_environment t)) d1
               = Allowed d1) by (vm_compute; reflexivity).
  assert (H2 : guards sample_cfg (turn_request t) d1 = None) by (vm_compute; reflexivity).
  assert (H3 : nanoid_assistant_message (turn_environment t) ∈ message_ids d1).
  { apply list_elem_of_In. vm_compute. right. left. reflexivity. }
  split; [vm_compute; reflexivity|].
  destruct (commit_not_atomic sample_cfg sample_parse t d1 d1 sample_body None
              H1 H2 eq_refl eq_refl H3) as (Hc & _ & Hus & _).
  split; [exact Hc|].
  unfold find_user_by_token. rewrite Hus. vm_compute. reflexivity.
Defined.
